(** * MiniLedger: merchant balances, transfers with a fee, idempotency keys

    A shallow embedding of the ledger core of the MiniLedger service
    (domain/, application/, infrastructure/repositories.py and the routes
    of api/routes.py) together with the properties its specification
    states about it and further properties of the code.

    Layout:
    - [Dec]        Python's [decimal.Decimal] under the default context
                   (28 significant digits, ROUND_HALF_EVEN);
    - [PyStr]      the few [str] methods the code calls;
    - exceptions, the session monad and the four tables;
    - [Engine]     what the database engine does to a row, a parameter;
    - entities, repositories, use cases and the routes;
    - the properties. *)

From Stdlib Require Import ZArith QArith Qround Qpower Lia Bool Ascii String Sorted.
From stdpp Require Import gmap strings pretty list.

Local Open Scope Z_scope.

(* ===================================================================== *)
(** * Exceptions *)
(* ===================================================================== *)

(** The exception classes the code raises or can meet.  [ValueError] is the
    built-in one, the next three are domain/exceptions.py, the two decimal
    signals come from the [decimal] module, [IntegrityError] is what a flush
    raises when a unique index is violated and [DBAPIError] what it raises
    when the engine refuses a value, [ValidationError] is pydantic's (a
    subclass of [ValueError]), and [HTTPException] is what the route turns
    the others into. *)
Inductive exn : Type :=
| ValueError (msg : string)
| MerchantNotFoundError (msg : string)
| InsufficientFundsError (msg : string)
| InvalidTransferError (msg : string)
| InvalidOperation
| DivisionByZero
| IntegrityError
| DBAPIError
| ValidationError
| HTTPException (status_code : Z) (detail : string).

Inductive result (A : Type) : Type :=
| Ok (a : A)
| Raise (e : exn).

Arguments Ok {A} a.
Arguments Raise {A} e.

(** [str(e)] of an exception: its message. *)
Definition exn_str (e : exn) : string :=
  match e with
  | ValueError msg | MerchantNotFoundError msg
  | InsufficientFundsError msg | InvalidTransferError msg => msg
  | InvalidOperation => "[<class 'decimal.InvalidOperation'>]"
  | DivisionByZero => "[<class 'decimal.DivisionByZero'>]"
  | IntegrityError => "IntegrityError"
  | DBAPIError => "DBAPIError"
  | ValidationError => "validation error"
  | HTTPException _ detail => detail
  end.

(* ===================================================================== *)
(** * Decimal arithmetic *)
(* ===================================================================== *)

Module Dec.

(** A finite [Decimal]: the number [coeff * 10 ^ exp].  Python keeps a sign
    bit and a digit string; the sign is folded into [coeff] here, so the two
    zeros [0] and [-0] (equal for every comparison) are one value.  NaN and
    the infinities are not modelled, and neither are the exponent limits
    Emax = 999999 and Emin = -999999 of the default context. *)
Record Decimal : Type := mkDecimal { coeff : Z; exp : Z }.

#[global] Instance Decimal_eq_dec : EqDecision Decimal.
Proof. solve_decision. Defined.

(** [getcontext().prec] of the default context. *)
Definition prec : Z := 28.

(** [len(str(n))] for [n >= 0]: the number of decimal digits, 1 for 0. *)
Fixpoint digits_fuel (fuel : nat) (n : Z) : Z :=
  match fuel with
  | O => 1
  | S f => if n <? 10 then 1 else 1 + digits_fuel f (n / 10)
  end.

Definition ndigits (n : Z) : Z :=
  let a := Z.abs n in digits_fuel (Z.to_nat (Z.log2 a)) a.

(** Drop the last [k] digits of [c >= 0], rounding to nearest and a tie to
    the even neighbour (ROUND_HALF_EVEN, the context's rounding). *)
Definition round_half_even (c k : Z) : Z :=
  let p := 10 ^ k in
  let q := c / p in
  let r := c mod p in
  if 2 * r <? p then q
  else if p <? 2 * r then q + 1
  else if Z.even q then q else q + 1.

(** [Decimal._fix]: round to the context precision when the coefficient has
    more than [prec] digits; a carry out of the top digit drops the last
    (zero) digit and bumps the exponent. *)
Definition fix_context (d : Decimal) : Decimal :=
  let a := Z.abs (coeff d) in
  let n := ndigits a in
  if n <=? prec then d
  else
    let k := n - prec in
    let c := round_half_even a k in
    if prec <? ndigits c
    then mkDecimal (Z.sgn (coeff d) * (c / 10)) (exp d + k + 1)
    else mkDecimal (Z.sgn (coeff d) * c) (exp d + k).

(** [x + y]: the exact sum on the smaller exponent, then [_fix].  (Python
    shortcuts operands that are zero or far apart; the rounded result is
    the same.) *)
Definition add (x y : Decimal) : Decimal :=
  let e := Z.min (exp x) (exp y) in
  fix_context
    (mkDecimal (coeff x * 10 ^ (exp x - e) + coeff y * 10 ^ (exp y - e)) e).

Definition neg (x : Decimal) : Decimal := mkDecimal (- coeff x) (exp x).

(** [x - y] is [x.__add__(y.copy_negate())]. *)
Definition sub (x y : Decimal) : Decimal := add x (neg y).

(** [x * y]: exact product, then [_fix]. *)
Definition mul (x y : Decimal) : Decimal :=
  fix_context (mkDecimal (coeff x * coeff y) (exp x + exp y)).

(** The loop of [__truediv__] for an exact quotient: strip trailing zeros
    while the exponent is below the ideal one. *)
Fixpoint strip_zeros (fuel : nat) (c e : Z) : Z * Z :=
  match fuel with
  | O => (c, e)
  | S f => if c mod 10 =? 0 then strip_zeros f (c / 10) (e + 1) else (c, e)
  end.

(** [x / y] ([Decimal.__truediv__]). *)
Definition div (x y : Decimal) : result Decimal :=
  if coeff y =? 0 then
    Raise (if coeff x =? 0 then InvalidOperation else DivisionByZero)
  else if coeff x =? 0 then
    Ok (fix_context (mkDecimal 0 (exp x - exp y)))
  else
    let a := Z.abs (coeff x) in
    let b := Z.abs (coeff y) in
    let sign := Z.sgn (coeff x) * Z.sgn (coeff y) in
    let shift := ndigits b - ndigits a + prec + 1 in
    let e := exp x - exp y - shift in
    let '(q, r) :=
      if 0 <=? shift then Z.div_eucl (a * 10 ^ shift) b
      else Z.div_eucl a (b * 10 ^ (- shift)) in
    let '(c, e') :=
      if r =? 0 then strip_zeros (Z.to_nat (exp x - exp y - e)) q e
      else (if q mod 5 =? 0 then q + 1 else q, e) in
    Ok (fix_context (mkDecimal (sign * c) e')).

(** [Decimal.adjusted()]: the exponent of the leading digit. *)
Definition adjusted (x : Decimal) : Z := exp x + ndigits (coeff x) - 1.

(** [Decimal._rescale(e, ROUND_HALF_EVEN)]: the same number on exponent
    [e], padded with zeros or rounded. *)
Definition rescale (x : Decimal) (e : Z) : Decimal :=
  if e <=? exp x then mkDecimal (coeff x * 10 ^ (exp x - e)) e
  else mkDecimal
         (Z.sgn (coeff x) * round_half_even (Z.abs (coeff x)) (e - exp x)) e.

(** [x.quantize(q)]: [x] on the exponent of [q]; InvalidOperation when the
    result would need more than [prec] digits. *)
Definition quantize (x q : Decimal) : result Decimal :=
  let e := exp q in
  if coeff x =? 0 then Ok (fix_context (mkDecimal 0 e))
  else if prec <? adjusted x - e + 1 then Raise InvalidOperation
  else
    let ans := rescale x e in
    if prec <? ndigits (coeff ans) then Raise InvalidOperation
    else Ok (fix_context ans).

(** Comparison is numeric: both coefficients on the smaller exponent. *)
Definition compare (x y : Decimal) : comparison :=
  let e := Z.min (exp x) (exp y) in
  (coeff x * 10 ^ (exp x - e) ?= coeff y * 10 ^ (exp y - e)).

Definition ltb (x y : Decimal) : bool :=
  match compare x y with Lt => true | _ => false end.
Definition leb (x y : Decimal) : bool :=
  match compare x y with Gt => false | _ => true end.
Definition gtb (x y : Decimal) : bool := ltb y x.
Definition eqb (x y : Decimal) : bool :=
  match compare x y with Eq => true | _ => false end.

(** The integer [0] the code compares amounts with. *)
Definition zero : Decimal := mkDecimal 0 0.

(** The exact rational a [Decimal] stands for. *)
Definition value (x : Decimal) : Q := (inject_Z (coeff x) * (10 # 1) ^ exp x)%Q.

(** [str(x)] ([Decimal.__str__]): plain notation when the exponent is not
    positive and the number has at most six leading fractional zeros,
    scientific notation otherwise. *)
Definition zeros (n : Z) : string := String.concat "" (replicate (Z.to_nat n) "0"%string).

Definition str (x : Decimal) : string :=
  let sign := if coeff x <? 0 then "-" else "" in
  let int := pretty (Z.to_N (Z.abs (coeff x))) in
  let len := Z.of_nat (String.length int) in
  let leftdigits := exp x + len in
  let dotplace := if (exp x <=? 0) && (-6 <? leftdigits) then leftdigits else 1 in
  let intpart :=
    if dotplace <=? 0 then "0"
    else if len <=? dotplace then int +:+ zeros (dotplace - len)
    else String.substring 0 (Z.to_nat dotplace) int in
  let fracpart :=
    if dotplace <=? 0 then "." +:+ zeros (- dotplace) +:+ int
    else if len <=? dotplace then ""
    else "." +:+ String.substring (Z.to_nat dotplace) (Z.to_nat (len - dotplace)) int in
  let e :=
    if leftdigits =? dotplace then ""
    else "E" +:+ (if 0 <=? leftdigits - dotplace then "+" else "") +:+ pretty (leftdigits - dotplace) in
  sign +:+ intpart +:+ fracpart +:+ e.

End Dec.

Export Dec(Decimal, mkDecimal, coeff, exp).


(* ===================================================================== *)
(** * The [str] methods the code relies on *)
(* ===================================================================== *)

Module PyStr.

(** [s.lower()] on the ASCII letters. *)
Definition lower_ascii (c : ascii) : ascii :=
  let n := Ascii.N_of_ascii c in
  if ((65 <=? n) && (n <=? 90))%N then Ascii.ascii_of_N (n + 32) else c.

Fixpoint lower (s : string) : string :=
  match s with
  | EmptyString => EmptyString
  | String c s' => String (lower_ascii c) (lower s')
  end.

(** [needle in s]: [needle] occurs somewhere in [s]. *)
Fixpoint contains (needle s : string) : bool :=
  String.prefix needle s ||
  match s with
  | EmptyString => false
  | String _ s' => contains needle s'
  end.

(** The characters [str.isspace] accepts among the code points below 256
    (a character of a [string] is its code point): the ASCII ones, U+0085
    and U+00A0. *)
Definition isspace (c : ascii) : bool :=
  let n := Ascii.N_of_ascii c in
  (((9 <=? n) && (n <=? 13)) || ((28 <=? n) && (n <=? 32))
   || (n =? 133) || (n =? 160))%N.

Fixpoint lstrip (s : string) : string :=
  match s with
  | EmptyString => EmptyString
  | String c s' => if isspace c then lstrip s' else s
  end.

(** [s.rstrip()]: the result is empty exactly when nothing but white space
    is left. *)
Fixpoint rstrip (s : string) : string :=
  match s with
  | EmptyString => EmptyString
  | String c s' =>
      match rstrip s' with
      | EmptyString => if isspace c then EmptyString else String c EmptyString
      | t => String c t
      end
  end.

Definition strip (s : string) : string := rstrip (lstrip s).

(** Truth value of a string: [not s] holds for the empty string only. *)
Definition truthy (s : string) : bool :=
  match s with EmptyString => false | _ => true end.

End PyStr.

(* ===================================================================== *)
(** * Entities (domain/entities.py) *)
(* ===================================================================== *)

(** A [datetime]; only its order is used (the listing sorts by it). *)
Definition datetime : Type := Z.

Record Merchant : Type := mkMerchant {
  name : string;
  merchant_created_at : datetime
}.

Record Balance : Type := mkBalance {
  merchant_name : string;
  balance_currency : string;
  balance_amount : Decimal
}.

Record Transfer : Type := mkTransfer {
  id : option Z;
  from_merchant : string;
  to_merchant : string;
  currency : string;
  amount : Decimal;
  fee : Decimal;
  idempotency_key : string;
  created_at : datetime
}.

(** The dataclass constructors with their [__post_init__] checks. *)
Definition Merchant_init (n : string) (t : datetime) : result Merchant :=
  if negb (PyStr.truthy n) then Raise (ValueError "Merchant name cannot be empty")
  else Ok (mkMerchant n t).

Definition Balance_init (m c : string) (a : Decimal) : result Balance :=
  if Dec.ltb a Dec.zero then Raise (ValueError "Balance cannot be negative")
  else if negb (PyStr.truthy c) then Raise (ValueError "Currency cannot be empty")
  else Ok (mkBalance m c a).

Definition Transfer_init (i : option Z) (f t c : string) (a fe : Decimal)
    (k : string) (ts : datetime) : result Transfer :=
  if Dec.leb a Dec.zero then Raise (ValueError "Transfer amount must be positive")
  else if Dec.ltb fe Dec.zero then Raise (ValueError "Transfer fee cannot be negative")
  else if negb (PyStr.truthy k) then Raise (ValueError "Idempotency key is required")
  else if bool_decide (f = t) then Raise (ValueError "Cannot transfer to the same merchant")
  else Ok (mkTransfer i f t c a fe k ts).

(** [Transfer.total_debit]. *)
Definition total_debit (t : Transfer) : Decimal := Dec.add (amount t) (fee t).

(* ===================================================================== *)
(** * Fee policy (domain/services.py) *)
(* ===================================================================== *)

(** The [FeeCalculator] protocol. *)
Class FeeCalculator (T : Type) : Type :=
  calculate_fee : T -> Decimal -> result Decimal.

(** [PercentageFeeCalculator]; [fee_percent] is [Decimal(str(p))] of the
    float [p] the constructor receives.  A [Decimal] here is a finite
    number: a setting that is an infinity or a NaN is outside this
    development. *)
Record PercentageFeeCalculator : Type := mkPercentageFeeCalculator {
  fee_percent : Decimal
}.

Definition PercentageFeeCalculator_init (p : Decimal) : result PercentageFeeCalculator :=
  if Dec.ltb p Dec.zero then Raise (ValueError "Fee percentage cannot be negative")
  else Ok (mkPercentageFeeCalculator p).

Definition percentage_calculate_fee (self : PercentageFeeCalculator)
    (a : Decimal) : result Decimal :=
  if Dec.leb a Dec.zero then Raise (ValueError "Amount must be positive")
  else
    match Dec.div (Dec.mul a (fee_percent self)) (mkDecimal 100 0) with
    | Ok q => Dec.quantize q (mkDecimal 1 (-8))
    | Raise e => Raise e
    end.

#[global] Instance PercentageFeeCalculator_FeeCalculator :
  FeeCalculator PercentageFeeCalculator := percentage_calculate_fee.

(* ===================================================================== *)
(** * The tables and the session (infrastructure/) *)
(* ===================================================================== *)

(** The values found in the dictionaries the use cases return.  [VIso t] is
    the string [t.isoformat()]; its text is not rendered. *)
Inductive pyval : Type :=
| VNone
| VInt (n : Z)
| VStr (s : string)
| VBool (b : bool)
| VIso (t : datetime)
| VBalances (l : list (string * string)).

#[global] Instance pyval_eq_dec : EqDecision pyval.
Proof. solve_decision. Defined.

Abbreviation dict := (gmap string pyval).

(** Truth value of a dictionary: false when it is empty. *)
Definition dict_truthy (d : dict) : bool := negb (bool_decide (d = ∅)).

(** A row of [idempotency_keys]. *)
Record IdempotencyKeyModel : Type := mkIdempotencyKeyModel {
  transfer_id : Z;
  response_data : dict
}.

(** The four tables, each under its unique index: [merchants] by name,
    [balances] by (merchant_name, currency), [idempotency_keys] by key.
    [transfers] is kept in insertion order; its unique index on
    [idempotency_key] is checked on insertion.  An amount in a table is
    what the Numeric(20, 8) column made of it ([numeric] below). *)
Record Store : Type := mkStore {
  merchants : gmap string datetime;
  balances : gmap (string * string) Decimal;
  transfers : list Transfer;
  idempotency_keys : gmap string IdempotencyKeyModel
}.

Definition empty_store : Store := mkStore ∅ ∅ [] ∅.

Definition set_merchants (s : Store) (m : gmap string datetime) : Store :=
  mkStore m (balances s) (transfers s) (idempotency_keys s).
Definition set_balances (s : Store) (b : gmap (string * string) Decimal) : Store :=
  mkStore (merchants s) b (transfers s) (idempotency_keys s).
Definition set_transfers (s : Store) (t : list Transfer) : Store :=
  mkStore (merchants s) (balances s) t (idempotency_keys s).
Definition set_idempotency_keys (s : Store) (k : gmap string IdempotencyKeyModel) : Store :=
  mkStore (merchants s) (balances s) (transfers s) k.

(** Code running against an [AsyncSession]: it reads and writes the tables
    and returns or raises.  A raise keeps what was flushed before it; only
    [get_db] below decides whether that is committed.  Requests are run one
    after the other: row locks ([with_for_update]) have no effect here. *)
Definition session (A : Type) : Type := Store -> result A * Store.

Definition ret {A : Type} (a : A) : session A := fun s => (Ok a, s).
Definition raise {A : Type} (e : exn) : session A := fun s => (Raise e, s).
Definition lift {A : Type} (r : result A) : session A := fun s => (r, s).

Definition bind {A B : Type} (m : session A) (k : A -> session B) : session B :=
  fun s =>
    match m s with
    | (Ok a, s') => k a s'
    | (Raise e, s') => (Raise e, s')
    end.

(** [try: m except ... as e: h e]. *)
Definition try_except {A : Type} (m : session A) (h : exn -> session A) : session A :=
  fun s =>
    match m s with
    | (Ok a, s') => (Ok a, s')
    | (Raise e, s') => h e s'
    end.

Declare Scope session_scope.
Delimit Scope session_scope with session.
Notation "'do' x <- m ; k" := (bind m (fun x => k))
  (at level 10, x name, m at level 100, k at level 200) : session_scope.
Notation "'run' m ; k" := (bind m (fun _ => k))
  (at level 10, m at level 100, k at level 200) : session_scope.

(** [get_db] (infrastructure/database.py): the handler's work is committed
    when it returns and rolled back when it raises. *)
Definition get_db {A : Type} (handler : session A) : session A :=
  fun s =>
    match handler s with
    | (Ok a, s') => (Ok a, s')
    | (Raise e, _) => (Raise e, s)
    end.

(* ===================================================================== *)
(** * The database engine *)
(* ===================================================================== *)

(** An amount in units of 1e-8, for an exponent of -8 or more. *)
Definition units (x : Decimal) : Z := coeff x * 10 ^ (exp x + 8).

(** What SQLAlchemy and the engine behind [database_url] make of a row is
    not code of the repository, and it differs between engines (PostgreSQL
    keeps a Numeric(20, 8) as a decimal number, SQLite as a float).  It is
    a parameter:
    - [numeric x] is the [Decimal] a Numeric(20, 8) column gives back for
      [x] after flush and refresh, or the exception of the flush when the
      engine refuses [x];
    - [next_id rows] is the id the autoincrement gives the next row of
      [transfers];
    - [select_balances b] is the rows of [balances] in the order a SELECT
      without ORDER BY returns them;
    - [order_by_desc rows] is [rows] in the order of
      ORDER BY created_at DESC. *)
Class Engine : Type := {
  numeric : Decimal -> result Decimal;
  next_id : list Transfer -> Z;
  select_balances :
    gmap (string * string) Decimal -> list (string * string * Decimal);
  order_by_desc : list Transfer -> list Transfer
}.

(** What is assumed of an engine.  A Numeric(20, 8) column gives back eight
    fractional digits, no negative amount for one that is not negative, and
    the amount itself when it has at most eight fractional digits and is
    below ten million (there a float still holds it exactly); a value it
    refuses fails the flush with a [DBAPIError].  The new id
    is not in use.  A SELECT returns the rows of the table, and an ORDER BY
    returns them newest first; nothing is assumed of the order of rows of
    the same time. *)
Class EngineLaws (E : Engine) : Prop := {
  numeric_scale : forall x v, numeric x = Ok v -> exp v = -8;
  numeric_nonneg : forall x v, numeric x = Ok v -> 0 <= coeff x -> 0 <= coeff v;
  numeric_exact : forall x,
    -8 <= exp x -> Z.abs (units x) < 10 ^ 15 ->
    numeric x = Ok (mkDecimal (units x) (-8));
  numeric_raises : forall x e, numeric x = Raise e -> e = DBAPIError;
  next_id_fresh : forall rows,
    Forall (fun r => id r <> Some (next_id rows)) rows;
  select_balances_perm : forall b, select_balances b ≡ₚ map_to_list b;
  order_by_desc_perm : forall rows, order_by_desc rows ≡ₚ rows;
  order_by_desc_sorted : forall rows,
    StronglySorted (fun x y => created_at y <= created_at x) (order_by_desc rows)
}.

(** An engine to run examples on: decimal columns that round to eight
    places (a tie away from zero) and refuse what needs more than twenty
    digits, ids counted up from the largest one in use, rows of equal time
    in the order opposite to their insertion. *)
Module Reference.

Definition round_half_up (c k : Z) : Z :=
  let p := 10 ^ k in
  if p <=? 2 * (c mod p) then c / p + 1 else c / p.

Definition numeric (x : Decimal) : result Decimal :=
  let y :=
    if -8 <=? exp x then mkDecimal (units x) (-8)
    else mkDecimal
           (Z.sgn (coeff x) * round_half_up (Z.abs (coeff x)) (-8 - exp x)) (-8) in
  if 10 ^ 20 <=? Z.abs (coeff y) then Raise DBAPIError else Ok y.

Definition max_id (rows : list Transfer) : Z :=
  foldr (fun r m => Z.max (default 0 (id r)) m) 0 rows.

Definition next_id (rows : list Transfer) : Z := max_id rows + 1.

Fixpoint insert_desc (r : Transfer) (l : list Transfer) : list Transfer :=
  match l with
  | [] => [r]
  | x :: rest =>
      if created_at x <? created_at r then r :: l else x :: insert_desc r rest
  end.

Definition order_by_desc (l : list Transfer) : list Transfer :=
  foldr insert_desc [] l.

End Reference.

#[global] Instance reference_engine : Engine | 100 := {|
  numeric := Reference.numeric;
  next_id := Reference.next_id;
  select_balances := map_to_list;
  order_by_desc := Reference.order_by_desc
|}.

(* ===================================================================== *)
(** * Repositories (infrastructure/repositories.py) *)
(* ===================================================================== *)

(** A flush that fails (on a unique index, or on a value the engine
    refuses) raises [IntegrityError] or [DBAPIError].  SQLAlchemy rolls the
    transaction back when a flush fails, and every caller lets these two
    exceptions pass to [get_db], which restores the database; the store
    paired with them here is the rows before the failed statement, and no
    property is stated of it. *)

Module MerchantRepository.

Definition create (m : Merchant) : session Merchant := fun s =>
  match merchants s !! name m with
  | Some _ => (Raise IntegrityError, s)
  | None =>
      (Merchant_init (name m) (merchant_created_at m),
       set_merchants s (<[name m := merchant_created_at m]> (merchants s)))
  end.

Definition get_by_name (n : string) : session (option Merchant) := fun s =>
  match merchants s !! n with
  | None => (Ok None, s)
  | Some t =>
      match Merchant_init n t with
      | Ok m => (Ok (Some m), s)
      | Raise e => (Raise e, s)
      end
  end.

End MerchantRepository.

Module BalanceRepository.

Section WithEngine.

Context {E : Engine}.

(** The row holds what the column makes of the amount, and the entity
    handed back is built from the refreshed row. *)
Definition create (b : Balance) : session Balance := fun s =>
  let k := (merchant_name b, balance_currency b) in
  match balances s !! k with
  | Some _ => (Raise IntegrityError, s)
  | None =>
      match numeric (balance_amount b) with
      | Raise e => (Raise e, s)
      | Ok v =>
          (Balance_init (merchant_name b) (balance_currency b) v,
           set_balances s (<[k := v]> (balances s)))
      end
  end.

Definition get (m c : string) : session (option Balance) := fun s =>
  match balances s !! (m, c) with
  | None => (Ok None, s)
  | Some a =>
      match Balance_init m c a with
      | Ok b => (Ok (Some b), s)
      | Raise e => (Raise e, s)
      end
  end.

(** Build the entities of a list of rows; the first failing constructor
    raises. *)
Fixpoint build_balances (rows : list (string * string * Decimal)) : result (list Balance) :=
  match rows with
  | [] => Ok []
  | (m, c, a) :: rest =>
      match Balance_init m c a with
      | Raise e => Raise e
      | Ok b =>
          match build_balances rest with
          | Raise e => Raise e
          | Ok bs => Ok (b :: bs)
          end
      end
  end.

Definition get_all_for_merchant (m : string) : session (list Balance) := fun s =>
  (build_balances
     (filter (fun r => r.1.1 = m) (select_balances (balances s))), s).

(** The new amount is checked before it is written; the row then holds,
    and the entity handed back carries, what the column makes of it. *)
Definition add_amount (m c : string) (a : Decimal) : session Balance := fun s =>
  match balances s !! (m, c) with
  | Some current =>
      let new_amount := Dec.add current a in
      if Dec.ltb new_amount Dec.zero
      then (Raise (ValueError "Balance cannot be negative"), s)
      else
        match numeric new_amount with
        | Raise e => (Raise e, s)
        | Ok v => (Balance_init m c v, set_balances s (<[(m, c) := v]> (balances s)))
        end
  | None =>
      if Dec.ltb a Dec.zero
      then (Raise (ValueError "Balance cannot be negative"), s)
      else
        match numeric a with
        | Raise e => (Raise e, s)
        | Ok v => (Balance_init m c v, set_balances s (<[(m, c) := v]> (balances s)))
        end
  end.

Definition subtract_amount (m c : string) (a : Decimal) : session Balance := fun s =>
  match balances s !! (m, c) with
  | None =>
      (Raise (ValueError
                ("Insufficient funds: no balance found for " +:+ m +:+ " in " +:+ c)), s)
  | Some current =>
      let new_amount := Dec.sub current a in
      if Dec.ltb new_amount Dec.zero
      then (Raise (ValueError
                     ("Insufficient funds: balance would become negative. "
                      +:+ "Current: " +:+ Dec.str current
                      +:+ ", Required: " +:+ Dec.str a)), s)
      else
        match numeric new_amount with
        | Raise e => (Raise e, s)
        | Ok v => (Balance_init m c v, set_balances s (<[(m, c) := v]> (balances s)))
        end
  end.

End WithEngine.

End BalanceRepository.

Module TransferRepository.

(** The entity of a row. *)
Definition entity (r : Transfer) : result Transfer :=
  Transfer_init (id r) (from_merchant r) (to_merchant r) (currency r)
    (amount r) (fee r) (idempotency_key r) (created_at r).

Definition has_key (k : string) (rows : list Transfer) : bool :=
  existsb (fun r => bool_decide (idempotency_key r = k)) rows.

(** The where-clause of one optional filter: added only when the argument
    is truthy (neither [None] nor the empty string). *)
Definition where_ (field : Transfer -> string) (arg : option string)
    (rows : list Transfer) : list Transfer :=
  match arg with
  | Some v =>
      if PyStr.truthy v then filter (fun r => field r = v) rows else rows
  | None => rows
  end.

Fixpoint build_transfers (rows : list Transfer) : result (list Transfer) :=
  match rows with
  | [] => Ok []
  | r :: rest =>
      match entity r with
      | Raise e => Raise e
      | Ok t =>
          match build_transfers rest with
          | Raise e => Raise e
          | Ok ts => Ok (t :: ts)
          end
      end
  end.

Section WithEngine.

Context {E : Engine}.

(** The new row gets its id from the engine and holds what the columns
    make of amount and fee; the entity handed back is built from the
    refreshed row, after the row was written. *)
Definition create (t : Transfer) : session Transfer := fun s =>
  if has_key (idempotency_key t) (transfers s) then (Raise IntegrityError, s)
  else
    match numeric (amount t) with
    | Raise e => (Raise e, s)
    | Ok amount_ =>
        match numeric (fee t) with
        | Raise e => (Raise e, s)
        | Ok fee_ =>
            let row := mkTransfer (Some (next_id (transfers s)))
                         (from_merchant t) (to_merchant t) (currency t) amount_
                         fee_ (idempotency_key t) (created_at t) in
            (entity row, set_transfers s (transfers s ++ [row]))
        end
    end.

(** [ORDER BY created_at DESC]. *)
Definition order_by_created_at_desc (l : list Transfer) : list Transfer :=
  order_by_desc l.

Definition list (from_merchant_ to_merchant_ currency_ : option string)
    (limit offset : nat) : session (list Transfer) := fun s =>
  let q := where_ from_merchant from_merchant_ (transfers s) in
  let q := where_ to_merchant to_merchant_ q in
  let q := where_ currency currency_ q in
  let q := order_by_created_at_desc q in
  let q := take limit (drop offset q) in
  (build_transfers q, s).

End WithEngine.

End TransferRepository.

Module IdempotencyRepository.

(** [transfer_id] is a NOT NULL column. *)
Definition store (k : string) (tid : option Z) (data : dict) : session unit := fun s =>
  match tid, idempotency_keys s !! k with
  | Some i, None =>
      (Ok tt, set_idempotency_keys s
                (<[k := mkIdempotencyKeyModel i data]> (idempotency_keys s)))
  | _, _ => (Raise IntegrityError, s)
  end.

Definition get (k : string) : session (option dict) := fun s =>
  (Ok (response_data <$> idempotency_keys s !! k), s).

End IdempotencyRepository.

(* ===================================================================== *)
(** * Use cases (application/use_cases.py) *)
(* ===================================================================== *)

Local Open Scope session_scope.

(** [datetime.utcnow()] is an input of each use case that reads the clock:
    the argument [now]. *)

Module CreateMerchantUseCase.

Section WithEngine.

Context {E : Engine}.

Definition execute (merchant_name_ currency_ : string) (initial_balance : Decimal)
    (now : datetime) : session Merchant :=
  if Dec.ltb initial_balance Dec.zero
  then raise (ValueError "Initial balance cannot be negative")
  else
    do existing <- MerchantRepository.get_by_name merchant_name_;
    match existing with
    | Some _ =>
        raise (ValueError ("Merchant '" +:+ merchant_name_ +:+ "' already exists"))
    | None =>
        do merchant <- lift (Merchant_init merchant_name_ now);
        do merchant <- MerchantRepository.create merchant;
        if Dec.gtb initial_balance Dec.zero
        then
          do balance <- lift (Balance_init merchant_name_ currency_ initial_balance);
          run BalanceRepository.create balance;
          ret merchant
        else ret merchant
    end.

End WithEngine.

End CreateMerchantUseCase.

Module GetBalanceUseCase.

Definition not_found (merchant_name_ : string) : exn :=
  MerchantNotFoundError ("Merchant '" +:+ merchant_name_ +:+ "' not found").

Section WithEngine.

Context {E : Engine}.

(** The optional [currency] selects a branch by its truth value: [None]
    and the empty string both list every balance. *)
Definition execute (merchant_name_ : string) (currency_ : option string)
    : session dict :=
  do merchant <- MerchantRepository.get_by_name merchant_name_;
  match merchant with
  | None => raise (not_found merchant_name_)
  | Some _ =>
      match currency_ with
      | Some c =>
          if PyStr.truthy c then
            do balance <- BalanceRepository.get merchant_name_ c;
            match balance with
            | None =>
                ret (<["merchant_name" := VStr merchant_name_]>
                     (<["currency" := VStr c]>
                      (<["amount" := VStr "0"]> ∅)))
            | Some b =>
                ret (<["merchant_name" := VStr merchant_name_]>
                     (<["currency" := VStr (balance_currency b)]>
                      (<["amount" := VStr (Dec.str (balance_amount b))]> ∅)))
            end
          else
            do bs <- BalanceRepository.get_all_for_merchant merchant_name_;
            ret (<["merchant_name" := VStr merchant_name_]>
                 (<["balances" :=
                      VBalances (map (fun b => (balance_currency b,
                                                Dec.str (balance_amount b))) bs)]> ∅))
      | None =>
          do bs <- BalanceRepository.get_all_for_merchant merchant_name_;
          ret (<["merchant_name" := VStr merchant_name_]>
               (<["balances" :=
                    VBalances (map (fun b => (balance_currency b,
                                              Dec.str (balance_amount b))) bs)]> ∅))
      end
  end.

End WithEngine.

End GetBalanceUseCase.

Module GetMerchantUseCase.

Section WithEngine.

Context {E : Engine}.

Definition execute (merchant_name_ : string) : session dict :=
  do merchant <- MerchantRepository.get_by_name merchant_name_;
  match merchant with
  | None => raise (GetBalanceUseCase.not_found merchant_name_)
  | Some m =>
      do bs <- BalanceRepository.get_all_for_merchant merchant_name_;
      ret (<["merchant_name" := VStr (name m)]>
           (<["created_at" := VIso (merchant_created_at m)]>
            (<["balances" :=
                 VBalances (map (fun b => (balance_currency b,
                                           Dec.str (balance_amount b))) bs)]> ∅)))
  end.

End WithEngine.

End GetMerchantUseCase.

Module ExecuteTransferUseCase.

Section WithFeeCalculator.

Context {E : Engine} {T : Type} `{FeeCalculator T}.
Variable fee_calculator : T.

Definition insufficient (total fee_ : Decimal) (currency_ : string) : exn :=
  InsufficientFundsError
    ("Insufficient funds. Required: " +:+ Dec.str total +:+ " " +:+ currency_
     +:+ ", " +:+ "including fee: " +:+ Dec.str fee_ +:+ " " +:+ currency_).

(** The [except ValueError as e] clause around the two balance moves: only
    a [ValueError] is caught; one whose text mentions "negative" or
    "insufficient" becomes [InsufficientFundsError], any other is raised
    again. *)
Definition on_value_error (total fee_ : Decimal) (currency_ : string)
    (e : exn) : session Balance :=
  match e with
  | ValueError msg =>
      if PyStr.contains "negative" (PyStr.lower msg)
         || PyStr.contains "insufficient" (PyStr.lower msg)
      then raise (insufficient total fee_ currency_)
      else raise e
  | _ => raise e
  end.

Definition response (t : Transfer) (from_merchant_ to_merchant_ currency_ : string)
    (amount_ fee_ : Decimal) : dict :=
  <["transfer_id" := match id t with Some i => VInt i | None => VNone end]>
  (<["from_merchant" := VStr from_merchant_]>
   (<["to_merchant" := VStr to_merchant_]>
    (<["currency" := VStr currency_]>
     (<["amount" := VStr (Dec.str amount_)]>
      (<["fee" := VStr (Dec.str fee_)]>
       (<["created_at" := VIso (created_at t)]> ∅)))))).

(** The steps after the idempotency probe. *)
Definition perform (from_merchant_ to_merchant_ currency_ : string)
    (amount_ : Decimal) (idempotency_key_ : string) (now : datetime)
    : session dict :=
  do from_merchant_obj <- MerchantRepository.get_by_name from_merchant_;
  match from_merchant_obj with
  | None => raise (GetBalanceUseCase.not_found from_merchant_)
  | Some _ =>
  do to_merchant_obj <- MerchantRepository.get_by_name to_merchant_;
  match to_merchant_obj with
  | None => raise (GetBalanceUseCase.not_found to_merchant_)
  | Some _ =>
  if bool_decide (from_merchant_ = to_merchant_)
  then raise (InvalidTransferError "Cannot transfer to the same merchant")
  else if Dec.leb amount_ Dec.zero
  then raise (InvalidTransferError "Transfer amount must be positive")
  else
    do fee_ <- lift (calculate_fee fee_calculator amount_);
    let total := Dec.add amount_ fee_ in
    run try_except
          (run BalanceRepository.subtract_amount from_merchant_ currency_ total;
           BalanceRepository.add_amount to_merchant_ currency_ amount_)
          (on_value_error total fee_ currency_);
    do transfer <- lift (Transfer_init None from_merchant_ to_merchant_ currency_
                           amount_ fee_ idempotency_key_ now);
    do transfer <- TransferRepository.create transfer;
    let response_data :=
      response transfer from_merchant_ to_merchant_ currency_ amount_ fee_ in
    run IdempotencyRepository.store idempotency_key_ (id transfer) response_data;
    ret response_data
  end
  end.

(** [execute]: the stored response of a known key is returned as it is
    (the probe is written twice in the source); anything else is
    performed. *)
Definition execute (from_merchant_ to_merchant_ currency_ : string)
    (amount_ : Decimal) (idempotency_key_ : string) (now : datetime)
    : session dict :=
  do stored_response <- IdempotencyRepository.get idempotency_key_;
  do stored_response <- IdempotencyRepository.get idempotency_key_;
  match stored_response with
  | Some d =>
      if dict_truthy d then ret d
      else perform from_merchant_ to_merchant_ currency_ amount_ idempotency_key_ now
  | None =>
      perform from_merchant_ to_merchant_ currency_ amount_ idempotency_key_ now
  end.

End WithFeeCalculator.

End ExecuteTransferUseCase.

Module ListTransfersUseCase.

Definition item (t : Transfer) : dict :=
  <["transfer_id" := match id t with Some i => VInt i | None => VNone end]>
  (<["from_merchant" := VStr (from_merchant t)]>
   (<["to_merchant" := VStr (to_merchant t)]>
    (<["currency" := VStr (currency t)]>
     (<["amount" := VStr (Dec.str (amount t))]>
      (<["fee" := VStr (Dec.str (fee t))]>
       (<["created_at" := VIso (created_at t)]> ∅)))))).

Section WithEngine.

Context {E : Engine}.

Definition execute (from_merchant_ to_merchant_ currency_ : option string)
    (limit offset : nat) : session (list dict) :=
  do ts <- TransferRepository.list from_merchant_ to_merchant_ currency_ limit offset;
  ret (map item ts).

End WithEngine.

End ListTransfersUseCase.

(* ===================================================================== *)
(** * The routes (api/routes.py, api/schemas.py) *)
(* ===================================================================== *)

Module Routes.

(** The body of a request, with [amount] already read as a [Decimal]
    ([Decimal(request.amount)]). *)
Record TransferRequest : Type := mkTransferRequest {
  req_from_merchant : string;
  req_to_merchant : string;
  req_currency : string;
  req_amount : Decimal
}.

(** A [Field] with [min_length] and [max_length]. *)
Definition length_between (lo hi : nat) (v : string) : bool :=
  (lo <=? String.length v)%nat && (String.length v <=? hi)%nat.

(** [TransferRequest.validate_amount]: every error inside the [try]
    becomes the one [ValueError]. *)
Definition validate_amount (v : Decimal) : result Decimal :=
  if Dec.leb v Dec.zero then Raise (ValueError "Invalid amount format") else Ok v.

(** The model itself: a body that does not validate never reaches the
    handler (FastAPI answers 422). *)
Definition TransferRequest_init (from_merchant_ to_merchant_ currency_ : string)
    (amount_ : Decimal) : result TransferRequest :=
  if length_between 1 255 from_merchant_ && length_between 1 255 to_merchant_
     && length_between 1 10 currency_
  then
    match validate_amount amount_ with
    | Ok v => Ok (mkTransferRequest from_merchant_ to_merchant_ currency_ v)
    | Raise _ => Raise ValidationError
    end
  else Raise ValidationError.

(** A field that must hold a string. *)
Definition str_field (d : dict) (k : string) : option pyval :=
  match d !! k with
  | Some (VStr v) => Some (VStr v)
  | Some (VIso t) => Some (VIso t)
  | _ => None
  end.

(** The pydantic model built from the keys of [d]: the seven required fields
    must be there with their types; [is_duplicate] defaults to [False] and
    [message] to [None]; keys the model does not declare are dropped. *)
Definition TransferResponse (d : dict) : result dict :=
  match d !! "transfer_id", str_field d "from_merchant", str_field d "to_merchant",
        str_field d "currency", str_field d "amount", str_field d "fee",
        str_field d "created_at",
        default (VBool false) (d !! "is_duplicate"),
        default VNone (d !! "message") with
  | Some (VInt i), Some f, Some t, Some c, Some a, Some fe, Some ts,
    VBool b, (VStr _ | VNone) as m =>
      Ok (<["transfer_id" := VInt i]>
          (<["from_merchant" := f]>
           (<["to_merchant" := t]>
            (<["currency" := c]>
             (<["amount" := a]>
              (<["fee" := fe]>
               (<["created_at" := ts]>
                (<["is_duplicate" := VBool b]>
                 (<["message" := m]> ∅)))))))))
  | _, _, _, _, _, _, _, _, _ => Raise ValidationError
  end.

(** The [except] chain of the route. *)
Definition to_http (e : exn) : exn :=
  match e with
  | MerchantNotFoundError _ => HTTPException 404 (exn_str e)
  | InsufficientFundsError _ => HTTPException 409 (exn_str e)
  | InvalidTransferError _ => HTTPException 400 (exn_str e)
  | ValueError _ | ValidationError => HTTPException 400 (exn_str e)
  | _ => HTTPException 500 "Internal server error"
  end.

Definition duplicate_message (k : string) : string :=
  "This Idempotency-Key '" +:+ k
  +:+ "' was already used. Returning previous transfer result.".

Section TransferRoute.

Context {E : Engine}.

(** The [try] block of the handler: build the use case, execute it, tag the
    result as not a duplicate; any exception becomes an [HTTPException].
    [transfer_fee_percent] is the setting the fee calculator is built
    from. *)
Definition execute_and_tag (transfer_fee_percent : Decimal)
    (request : TransferRequest) (k : string) (now : datetime) : session dict :=
  try_except
    (do fc <- lift (PercentageFeeCalculator_init transfer_fee_percent);
     do r <- ExecuteTransferUseCase.execute fc
               (req_from_merchant request) (req_to_merchant request)
               (req_currency request) (req_amount request) k now;
     lift (TransferResponse
             (<["message" := VStr "Transfer executed successfully"]>
              (<["is_duplicate" := VBool false]> r))))
    (fun e => raise (to_http e)).

(** The handler of POST /transfers: the header check, the probe for a
    stored response, and the [try] block. *)
Definition execute_transfer_handler (transfer_fee_percent : Decimal)
    (request : TransferRequest) (idempotency_key_ : string) (now : datetime)
    : session dict :=
  if negb (PyStr.truthy idempotency_key_)
     || negb (PyStr.truthy (PyStr.strip idempotency_key_))
  then raise (HTTPException 400 "Idempotency-Key header is required")
  else
    let k := PyStr.strip idempotency_key_ in
    do stored_response <- IdempotencyRepository.get k;
    match stored_response with
    | Some d =>
        if dict_truthy d
        then lift (TransferResponse
                     (<["message" := VStr (duplicate_message k)]>
                      (<["is_duplicate" := VBool true]> d)))
        else execute_and_tag transfer_fee_percent request k now
    | None => execute_and_tag transfer_fee_percent request k now
    end.

(** The route as served: the handler inside the [get_db] session. *)
Definition execute_transfer (transfer_fee_percent : Decimal)
    (request : TransferRequest) (idempotency_key_ : string) (now : datetime)
    : session dict :=
  get_db (execute_transfer_handler transfer_fee_percent request idempotency_key_ now).

End TransferRoute.

(** The body of POST /merchants, with [initial_balance] already read as a
    [Decimal]. *)
Record CreateMerchantRequest : Type := mkCreateMerchantRequest {
  cm_merchant_name : string;
  cm_currency : string;
  cm_initial_balance : Decimal
}.

(** [CreateMerchantRequest.validate_balance]. *)
Definition validate_balance (v : Decimal) : result Decimal :=
  if Dec.ltb v Dec.zero then Raise (ValueError "Invalid balance format") else Ok v.

Definition CreateMerchantRequest_init (merchant_name_ currency_ : string)
    (initial_balance_ : Decimal) : result CreateMerchantRequest :=
  if length_between 1 255 merchant_name_ && length_between 1 10 currency_
  then
    match validate_balance initial_balance_ with
    | Ok v => Ok (mkCreateMerchantRequest merchant_name_ currency_ v)
    | Raise _ => Raise ValidationError
    end
  else Raise ValidationError.

(** The [MerchantResponse] model: three required fields. *)
Definition MerchantResponse (d : dict) : result dict :=
  match str_field d "merchant_name", str_field d "created_at", d !! "balances" with
  | Some n, Some t, Some (VBalances l) =>
      Ok (<["merchant_name" := n]>
          (<["created_at" := t]>
           (<["balances" := VBalances l]> ∅)))
  | _, _, _ => Raise ValidationError
  end.

(** The [except] chain of POST /merchants: a [ValueError] is a 400, anything
    else a 500. *)
Definition create_to_http (e : exn) : exn :=
  match e with
  | ValueError _ | ValidationError => HTTPException 400 (exn_str e)
  | _ => HTTPException 500 "Internal server error"
  end.

Section MerchantRoutes.

Context {E : Engine}.

Definition create_merchant_handler (request : CreateMerchantRequest)
    (now : datetime) : session dict :=
  try_except
    (run CreateMerchantUseCase.execute (cm_merchant_name request)
           (cm_currency request) (cm_initial_balance request) now;
     do r <- GetMerchantUseCase.execute (cm_merchant_name request);
     lift (MerchantResponse r))
    (fun e => raise (create_to_http e)).

Definition create_merchant (request : CreateMerchantRequest) (now : datetime)
    : session dict :=
  get_db (create_merchant_handler request now).

(** The [except] chain of the two GET routes of a merchant. *)
Definition read_to_http (e : exn) : exn :=
  match e with
  | MerchantNotFoundError _ => HTTPException 404 (exn_str e)
  | _ => HTTPException 500 "Internal server error"
  end.

Definition get_merchant (merchant_name_ : string) : session dict :=
  get_db
    (try_except
       (do r <- GetMerchantUseCase.execute merchant_name_;
        lift (MerchantResponse r))
       (fun e => raise (read_to_http e))).

End MerchantRoutes.

(** A field that holds a string or [None], [None] when it is missing. *)
Definition opt_str_field (d : dict) (k : string) : option pyval :=
  match d !! k with
  | None | Some VNone => Some VNone
  | Some (VStr v) => Some (VStr v)
  | Some (VIso t) => Some (VIso t)
  | _ => None
  end.

(** The [BalanceResponse] model: the merchant's name and three optional
    fields. *)
Definition BalanceResponse (d : dict) : result dict :=
  match str_field d "merchant_name", opt_str_field d "currency",
        opt_str_field d "amount", default VNone (d !! "balances") with
  | Some n, Some c, Some a, (VBalances _ | VNone) as b =>
      Ok (<["merchant_name" := n]>
          (<["currency" := c]>
           (<["amount" := a]>
            (<["balances" := b]> ∅))))
  | _, _, _, _ => Raise ValidationError
  end.

Section BalanceRoute.

Context {E : Engine}.

Definition get_merchant_balance (merchant_name_ : string)
    (currency_ : option string) : session dict :=
  get_db
    (try_except
       (do r <- GetBalanceUseCase.execute merchant_name_ currency_;
        lift (BalanceResponse r))
       (fun e => raise (read_to_http e))).

End BalanceRoute.

(** The [TransferListItem] model: seven required fields. *)
Definition TransferListItem (d : dict) : result dict :=
  match d !! "transfer_id", str_field d "from_merchant", str_field d "to_merchant",
        str_field d "currency", str_field d "amount", str_field d "fee",
        str_field d "created_at" with
  | Some (VInt i), Some f, Some t, Some c, Some a, Some fe, Some ts =>
      Ok (<["transfer_id" := VInt i]>
          (<["from_merchant" := f]>
           (<["to_merchant" := t]>
            (<["currency" := c]>
             (<["amount" := a]>
              (<["fee" := fe]>
               (<["created_at" := ts]> ∅)))))))
  | _, _, _, _, _, _, _ => Raise ValidationError
  end.

(** The comprehension over the transfers: the first item that does not
    validate raises. *)
Fixpoint TransferListItems (l : list dict) : result (list dict) :=
  match l with
  | [] => Ok []
  | d :: rest =>
      match TransferListItem d with
      | Raise e => Raise e
      | Ok x =>
          match TransferListItems rest with
          | Raise e => Raise e
          | Ok xs => Ok (x :: xs)
          end
      end
  end.

(** GET /transfers: the page of transfers and [total], the length of that
    page.  The query parameters arrive validated ([1 <= limit <= 1000],
    [0 <= offset]); any exception is a 500. *)
Record TransferListResponse : Type := mkTransferListResponse {
  response_transfers : list dict;
  total : nat
}.

Section ListRoute.

Context {E : Engine}.

Definition list_transfers (from_merchant_ to_merchant_ currency_ : option string)
    (limit offset : nat) : session TransferListResponse :=
  get_db
    (try_except
       (do ts <- ListTransfersUseCase.execute from_merchant_ to_merchant_ currency_
                   limit offset;
        do items <- lift (TransferListItems ts);
        ret (mkTransferListResponse items (length ts)))
       (fun _ => raise (HTTPException 500 "Internal server error"))).

End ListRoute.

End Routes.

(* ===================================================================== *)
(** * The specification's wording of the fee *)
(* ===================================================================== *)

Module Spec.

(** The nearest integer of a rational, a tie going to the even one. *)
Definition Qround_half_even (q : Q) : Z :=
  let f := Qfloor q in
  match (q - inject_Z f ?= 1 # 2)%Q with
  | Lt => f
  | Gt => f + 1
  | Eq => if Z.even f then f else f + 1
  end.

(** "amount * percent / 100 rounded to 8 fractional digits", on exact
    rationals: the number of 1e-8 units of the fee. *)
Definition fee_units (amount percent : Decimal) : Z :=
  Qround_half_even (Dec.value amount * Dec.value percent / 100 * 10 ^ 8)%Q.

Definition fee (amount percent : Decimal) : Decimal :=
  mkDecimal (fee_units amount percent) (-8).

End Spec.

(* ===================================================================== *)
(** * Well-formed stores *)
(* ===================================================================== *)

(** What the entity constructors guarantee of every committed row: merchant
    names and currencies are not empty, balances are not negative, and a
    balance belongs to a merchant. *)
Record store_wf (s : Store) : Prop := mk_store_wf {
  wf_merchant_name : forall n t, merchants s !! n = Some t -> n <> ""%string;
  wf_balance : forall m c a,
    balances s !! (m, c) = Some a -> c <> ""%string /\ 0 <= coeff a;
  wf_balance_owner : forall m c a,
    balances s !! (m, c) = Some a -> is_Some (merchants s !! m)
}.

(** The transfer records of a key. *)
Definition transfers_of_key (k : string) (s : Store) : list Transfer :=
  filter (fun r => idempotency_key r = k) (transfers s).

(** The keys of the use case's response and of the route's response. *)
Definition use_case_fields : gset string :=
  list_to_set ["transfer_id"; "from_merchant"; "to_merchant"; "currency";
               "amount"; "fee"; "created_at"]%string.

Definition route_fields : gset string :=
  use_case_fields ∪ list_to_set ["is_duplicate"; "message"]%string.

(** The amount [add_amount] leaves in the row. *)
Definition credited (b : gmap (string * string) Decimal) (m c : string)
    (a : Decimal) : Decimal :=
  match b !! (m, c) with
  | Some cur => Dec.add cur a
  | None => a
  end.

(** The store a performed transfer leaves: the sender's row holds
    [debited] and the receiver's [credited_], the log has one row more,
    with the id [i] and the amounts [amount_] and [fee_] its columns hold,
    and the key has a record with the response, which prints the amount
    and the fee as they were sent. *)
Definition transferred (s : Store) (f t c : string) (a fe : Decimal)
    (k : string) (now : datetime) (i : Z)
    (debited credited_ amount_ fee_ : Decimal) : Store :=
  let row := mkTransfer (Some i) f t c amount_ fee_ k now in
  mkStore (merchants s)
    (<[(t, c) := credited_]> (<[(f, c) := debited]> (balances s)))
    (transfers s ++ [row])
    (<[k := mkIdempotencyKeyModel i
              (ExecuteTransferUseCase.response row f t c a fe)]>
       (idempotency_keys s)).

(** The answers of [get_balance] for one currency. *)
Definition balance_answer (n c a : string) : dict :=
  <["merchant_name"%string := VStr n]>
  (<["currency"%string := VStr c]>
   (<["amount"%string := VStr a]> ∅)).

(** An answer reports the amount [x] when its amount is the text of a
    decimal that compares equal to [x]. *)
Definition reports_amount (d : dict) (n c : string) (x : Decimal) : Prop :=
  exists y, d = balance_answer n c (Dec.str y) /\ Dec.eqb y x = true.

(* ===================================================================== *)
(** * Sample data *)
(* ===================================================================== *)

Module Demo.

(** The calculator of the default setting, [transfer_fee_percent = 0.1]. *)
Definition percent : Decimal := mkDecimal 1 (-1).
Definition fee01 : PercentageFeeCalculator := mkPercentageFeeCalculator percent.

Section WithEngine.

Context {E : Engine}.

(** Two committed requests: merchant bob with nothing, then merchant
    alice with [b] BTC. *)
Definition alice_bob (b : Decimal) : Store :=
  snd (get_db (CreateMerchantUseCase.execute "alice" "BTC" b 1)
         (snd (get_db (CreateMerchantUseCase.execute "bob" "BTC" (mkDecimal 0 0) 2)
                 empty_store))).

End WithEngine.

(** 1.0, 0.00005, 0.00001 and 0.0001 as the tests write them. *)
Definition d1_0 : Decimal := mkDecimal 10 (-1).
Definition d0_00005 : Decimal := mkDecimal 5 (-5).
Definition d0_00005005 : Decimal := mkDecimal 5005 (-8).

(** The same amounts as a Numeric(20, 8) column holds them. *)
Definition n1_0 : Decimal := mkDecimal 100000000 (-8).
Definition n0_00005 : Decimal := mkDecimal 5000 (-8).

End Demo.

(* ===================================================================== *)
(** * Histories of requests *)
(* ===================================================================== *)

(** The two requests that write: POST /merchants and POST /transfers, each
    with the clock reading it is served at. *)
Inductive request : Type :=
| PostMerchant (r : Routes.CreateMerchantRequest) (now : datetime)
| PostTransfer (r : Routes.TransferRequest) (idempotency_key_ : string)
    (now : datetime).

Section Histories.

Context {E : Engine}.

(** The database after a request was served, under the fee setting [p]. *)
Definition serve (p : Decimal) (q : request) (s : Store) : Store :=
  match q with
  | PostMerchant r now => snd (Routes.create_merchant r now s)
  | PostTransfer r k now => snd (Routes.execute_transfer p r k now s)
  end.

(** The databases the service can be in: the empty one and what any
    sequence of requests makes of it. *)
Inductive reachable (p : Decimal) : Store -> Prop :=
| reachable_empty : reachable p empty_store
| reachable_serve s q : reachable p s -> reachable p (serve p q s).

End Histories.

(** The idempotency record of a transfer row whose request sent the amount
    [a] and was charged the fee [fe]. *)
Definition record_of (r : Transfer) (a fe : Decimal) : IdempotencyKeyModel :=
  mkIdempotencyKeyModel (default 0 (id r))
    (ExecuteTransferUseCase.response r (from_merchant r) (to_merchant r)
       (currency r) a fe).

Section Invariant.

Context {E : Engine}.

(** What holds of the tables of every reachable database: the balances
    and the amounts of the log are on eight places, every transfer row has
    an id of its own and a key of its own and is a valid [Transfer] between
    registered merchants, every idempotency record is the response of the
    one row of its key (it prints the amount and the fee as they were sent,
    the row holds what the columns made of them), and every row has its
    record. *)
Record ledger_inv (s : Store) : Prop := mk_ledger_inv {
  inv_wf : store_wf s;
  inv_scale : forall m c a, balances s !! (m, c) = Some a -> exp a = -8;
  inv_ids : Forall (fun r => is_Some (id r)) (transfers s);
  inv_ids_distinct : NoDup (map id (transfers s));
  inv_rows : Forall (fun r => TransferRepository.entity r = Ok r) (transfers s);
  inv_row_scale : Forall (fun r => exp (amount r) = -8 /\ exp (fee r) = -8)
                    (transfers s);
  inv_parties : Forall (fun r => is_Some (merchants s !! from_merchant r) /\
                                 is_Some (merchants s !! to_merchant r))
                  (transfers s);
  inv_keys : NoDup (map idempotency_key (transfers s));
  inv_records : forall k rec,
    idempotency_keys s !! k = Some rec ->
    exists r a fe, r ∈ transfers s /\ idempotency_key r = k /\
      rec = record_of r a fe /\
      numeric a = Ok (amount r) /\ numeric fe = Ok (fee r);
  inv_recorded : forall r,
    r ∈ transfers s -> is_Some (idempotency_keys s !! idempotency_key r)
}.

End Invariant.

(** At most eight fractional digits and below a million in size. *)
Definition small (x : Decimal) : Prop :=
  -8 <= exp x /\ Z.abs (units x) < 10 ^ 14.

(** The units a merchant holds in a currency, none without a row. *)
Definition units_at (s : Store) (m c : string) : Z :=
  from_option units 0 (balances s !! (m, c)).

(** Newest first. *)
Definition sorted_desc (l : list Transfer) : Prop :=
  StronglySorted (fun x y => created_at y <= created_at x) l.

(** A row passes an optional filter: an absent or empty filter lets every
    row through. *)
Definition passes (field : Transfer -> string) (arg : option string)
    (r : Transfer) : Prop :=
  match arg with
  | Some v => v = ""%string \/ field r = v
  | None => True
  end.

(** The balances of a merchant as the answers list them. *)
Definition listed (s : Store) (n : string) (l : list (string * string)) : Prop :=
  NoDup l.*1 /\
  forall c x, (c, x) ∈ l <-> exists a, balances s !! (n, c) = Some a /\ x = Dec.str a.

(** A short history on the reference engine: bob registers with nothing,
    alice with 1.0 BTC, and alice sends bob 0.00005 BTC under the key
    "key-1". *)
Module Sample.

Definition bob_registers : request :=
  PostMerchant (Routes.mkCreateMerchantRequest "bob" "BTC" (mkDecimal 0 0)) 2.
Definition alice_registers : request :=
  PostMerchant (Routes.mkCreateMerchantRequest "alice" "BTC" Demo.d1_0) 1.
Definition alice_pays : request :=
  PostTransfer (Routes.mkTransferRequest "alice" "bob" "BTC" Demo.d0_00005) " key-1 " 3.

Definition ledger : Store :=
  serve Demo.percent alice_pays
    (serve Demo.percent alice_registers
       (serve Demo.percent bob_registers empty_store)).

(** The transfer row of that history. *)
Definition row : Transfer :=
  mkTransfer (Some 1) "alice" "bob" "BTC" Demo.n0_00005 (mkDecimal 5 (-8)) "key-1" 3.

End Sample.

(** What a performed transfer went through: the checks it passed and what
    the columns made of the four amounts it wrote ([debited] and
    [credited_] in the two balance rows, [amount_] and [fee_] in the log). *)
Record performed {E : Engine} {T : Type} {FC : FeeCalculator T} (fc : T)
    (s : Store) (f t c : string) (a : Decimal) (k : string)
    (fe cur debited credited_ amount_ fee_ : Decimal) : Prop := mk_performed {
  pf_sender : is_Some (merchants s !! f);
  pf_receiver : is_Some (merchants s !! t);
  pf_distinct : f <> t;
  pf_amount : 0 < coeff a;
  pf_fee : calculate_fee fc a = Ok fe;
  pf_fee_sign : 0 <= coeff fe;
  pf_row : balances s !! (f, c) = Some cur;
  pf_funds : Dec.ltb (Dec.sub cur (Dec.add a fe)) Dec.zero = false;
  pf_debited : numeric (Dec.sub cur (Dec.add a fe)) = Ok debited;
  pf_debited_sign : 0 <= coeff debited;
  pf_credited :
    numeric (credited (<[(f, c) := debited]> (balances s)) t c a) = Ok credited_;
  pf_credited_sign : 0 <= coeff credited_;
  pf_amount_stored : numeric a = Ok amount_;
  pf_amount_stored_sign : 0 < coeff amount_;
  pf_fee_stored : numeric fe = Ok fee_;
  pf_fee_stored_sign : 0 <= coeff fee_;
  pf_currency : c <> ""%string;
  pf_key : k <> ""%string;
  pf_key_new : TransferRepository.has_key k (transfers s) = false;
  pf_key_unrecorded : idempotency_keys s !! k = None
}.

(* ===================================================================== *)
(** * Facts about the decimal arithmetic *)
(* ===================================================================== *)

Module DecFacts.

Import Dec.

Lemma pow10_pos (k : Z) : 0 <= k -> 0 < 10 ^ k.
Proof. intros Hk. apply Z.pow_pos_nonneg; lia. Qed.

Lemma pow10_succ (k : Z) : 0 <= k -> 10 ^ (k + 1) = 10 * 10 ^ k.
Proof. intros Hk. rewrite Z.pow_add_r by lia. lia. Qed.

Lemma pow10_le (j k : Z) : 0 <= j <= k -> 10 ^ j <= 10 ^ k.
Proof. intros Hk. apply Z.pow_le_mono_r; lia. Qed.

Lemma pow10_lt (j k : Z) : 0 <= j < k -> 10 ^ j < 10 ^ k.
Proof. intros Hk. apply Z.pow_lt_mono_r; lia. Qed.

Lemma digits_fuel_spec (fuel : nat) :
  forall n, 0 < n -> n < 10 ^ (Z.of_nat fuel + 1) ->
    1 <= digits_fuel fuel n /\
    10 ^ (digits_fuel fuel n - 1) <= n < 10 ^ digits_fuel fuel n.
Proof.
  induction fuel as [|f IH]; intros n Hpos Hlt.
  - simpl in *. lia.
  - cbn [digits_fuel]. destruct (Z.ltb_spec n 10) as [Hs|Hs].
    + simpl. lia.
    + assert (Hq : 0 < n / 10) by (apply Z.div_str_pos; lia).
      assert (Hb : n / 10 < 10 ^ (Z.of_nat f + 1)).
      { apply Z.div_lt_upper_bound; [lia|].
        rewrite <- pow10_succ by lia.
        replace (Z.of_nat f + 1 + 1) with (Z.of_nat (S f) + 1) by lia. exact Hlt. }
      destruct (IH _ Hq Hb) as (H1 & H2 & H3).
      set (d := digits_fuel f (n / 10)) in *.
      pose proof (Z.div_mod n 10 ltac:(lia)) as Hdm.
      pose proof (Z.mod_pos_bound n 10 ltac:(lia)) as Hm.
      replace (1 + d - 1) with ((d - 1) + 1) by lia.
      replace (1 + d) with (d + 1) by lia.
      rewrite !pow10_succ by lia. lia.
Qed.

Lemma ndigits_spec (a : Z) :
  0 < a -> 1 <= ndigits a /\ 10 ^ (ndigits a - 1) <= a < 10 ^ ndigits a.
Proof.
  intros Ha. unfold ndigits. rewrite Z.abs_eq by lia.
  apply digits_fuel_spec; [exact Ha|].
  rewrite Z2Nat.id by apply Z.log2_nonneg.
  pose proof (Z.log2_spec a Ha) as [_ Hl].
  eapply Z.lt_le_trans; [exact Hl|].
  replace (Z.succ (Z.log2 a)) with (Z.log2 a + 1) by lia.
  apply Z.pow_le_mono_l. pose proof (Z.log2_nonneg a). lia.
Qed.

Lemma ndigits_abs (n : Z) : ndigits (Z.abs n) = ndigits n.
Proof. unfold ndigits. now rewrite Z.abs_idemp. Qed.

Lemma ndigits_0 : ndigits 0 = 1.
Proof. reflexivity. Qed.

Lemma ndigits_ge_1 (a : Z) : 1 <= ndigits a.
Proof.
  rewrite <- ndigits_abs.
  destruct (Z.eq_dec (Z.abs a) 0) as [->|Hne]; [rewrite ndigits_0; lia|].
  apply ndigits_spec. lia.
Qed.

(** The digit count is the only [d] with [10^(d-1) <= a < 10^d]. *)
Lemma ndigits_unique (a d : Z) :
  0 < a -> 10 ^ (d - 1) <= a < 10 ^ d -> 1 <= d -> ndigits a = d.
Proof.
  intros Ha [Hlo Hhi] Hd.
  destruct (ndigits_spec a Ha) as (H1 & H2 & H3).
  destruct (Z.lt_trichotomy (ndigits a) d) as [Hlt|[Heq|Hgt]]; [|exact Heq|].
  - pose proof (pow10_le (ndigits a) (d - 1) ltac:(lia)). lia.
  - pose proof (pow10_le d (ndigits a - 1) ltac:(lia)). lia.
Qed.

Lemma ndigits_le (a d : Z) : 0 <= a < 10 ^ d -> 1 <= d -> ndigits a <= d.
Proof.
  intros [Ha Hlt] Hd.
  destruct (Z.eq_dec a 0) as [->|Hne]; [rewrite ndigits_0; lia|].
  destruct (ndigits_spec a ltac:(lia)) as (H1 & H2 & H3).
  destruct (Z.le_gt_cases (ndigits a) d) as [|Hgt]; [assumption|].
  pose proof (pow10_le d (ndigits a - 1) ltac:(lia)). lia.
Qed.

Lemma ndigits_gt (a d : Z) : 0 <= d -> 10 ^ d <= a -> d < ndigits a.
Proof.
  intros Hd Hle.
  pose proof (pow10_pos d Hd).
  destruct (ndigits_spec a ltac:(lia)) as (H1 & H2 & H3).
  destruct (Z.lt_ge_cases d (ndigits a)) as [|Hge]; [assumption|].
  pose proof (pow10_le (ndigits a) d ltac:(lia)). lia.
Qed.

Lemma ndigits_mono (a b : Z) : 0 <= a <= b -> ndigits a <= ndigits b.
Proof.
  intros [Ha Hab].
  destruct (Z.eq_dec b 0) as [->|Hb0].
  - replace a with 0 by lia. lia.
  - destruct (ndigits_spec b ltac:(lia)) as (H1 & H2 & H3).
    apply ndigits_le; lia.
Qed.


Lemma round_half_even_bounds (c k : Z) :
  c / 10 ^ k <= round_half_even c k <= c / 10 ^ k + 1.
Proof.
  unfold round_half_even.
  destruct (2 * (c mod 10 ^ k) <? 10 ^ k); [lia|].
  destruct (10 ^ k <? 2 * (c mod 10 ^ k)); [lia|].
  destruct (Z.even (c / 10 ^ k)); lia.
Qed.

(** Dropping [k] digits of a number of [k + j] digits leaves at least
    [10^(j-1)]. *)
Lemma round_half_even_lower (c k j : Z) :
  0 <= k -> 1 <= j -> 10 ^ (k + j - 1) <= c -> 10 ^ (j - 1) <= round_half_even c k.
Proof.
  intros Hk Hj Hc.
  pose proof (round_half_even_bounds c k) as [Hlo _].
  eapply Z.le_trans; [|exact Hlo].
  apply Z.div_le_lower_bound; [apply pow10_pos; lia|].
  rewrite <- Z.pow_add_r by lia.
  replace (k + (j - 1)) with (k + j - 1) by lia. exact Hc.
Qed.

Lemma fix_context_id (d : Decimal) :
  ndigits (coeff d) <= prec -> fix_context d = d.
Proof.
  intros Hn. unfold fix_context. rewrite ndigits_abs.
  destruct (Z.leb_spec (ndigits (coeff d)) prec); [reflexivity|lia].
Qed.

(** Rounding to the context precision never changes the sign. *)
Lemma fix_context_sgn (d : Decimal) :
  Z.sgn (coeff (fix_context d)) = Z.sgn (coeff d).
Proof.
  unfold fix_context. rewrite ndigits_abs.
  destruct (Z.leb_spec (ndigits (coeff d)) prec) as [|Hn]; [reflexivity|].
  set (c := coeff d) in *. set (n := ndigits c) in *.
  assert (Hc0 : c <> 0).
  { intros E. unfold n in Hn. rewrite E, ndigits_0 in Hn. unfold prec in Hn. lia. }
  assert (Ha : 0 < Z.abs c) by lia.
  destruct (ndigits_spec _ Ha) as (_ & Hlo & _). rewrite ndigits_abs in Hlo. fold n in Hlo.
  assert (Hr : 10 ^ (prec - 1) <= round_half_even (Z.abs c) (n - prec)).
  { apply round_half_even_lower; unfold prec in *; try lia.
    replace (n - 28 + 28 - 1) with (n - 1) by lia. exact Hlo. }
  set (r := round_half_even (Z.abs c) (n - prec)) in *.
  assert (Hp : 0 < 10 ^ (prec - 1)) by (apply pow10_pos; unfold prec; lia).
  destruct (Z.ltb_spec prec (ndigits r)) as [Hcarry|_]; cbn [coeff].
  - assert (Hge : 10 ^ prec <= r).
    { destruct (Z.le_gt_cases (10 ^ prec) r) as [|Hlt]; [assumption|].
      pose proof (ndigits_le r prec ltac:(lia) ltac:(unfold prec; lia)). lia. }
    assert (0 < r / 10).
    { apply Z.div_str_pos. pose proof (pow10_le 1 prec ltac:(unfold prec; lia)).
      change (10 ^ 1) with 10 in *. lia. }
    rewrite Z.sgn_mul, Z.sgn_sgn, (Z.sgn_pos (r / 10)) by lia. lia.
  - rewrite Z.sgn_mul, Z.sgn_sgn, (Z.sgn_pos r) by lia. lia.
Qed.

Lemma compare_zero (d : Decimal) : compare d zero = (coeff d ?= 0).
Proof.
  unfold compare, zero; cbn [coeff exp]. rewrite Z.mul_0_l.
  set (p := 10 ^ (exp d - Z.min (exp d) 0)).
  assert (Hp : 0 < p) by (apply pow10_pos; lia).
  rewrite (Zmult_compare_compat_r (coeff d) 0 p) by lia. now rewrite Z.mul_0_l.
Qed.

Lemma ltb_zero (d : Decimal) : ltb d zero = (coeff d <? 0).
Proof. unfold ltb, Z.ltb. now rewrite compare_zero. Qed.

Lemma leb_zero (d : Decimal) : leb d zero = (coeff d <=? 0).
Proof. unfold leb, Z.leb. now rewrite compare_zero. Qed.

Lemma compare_zero_l (d : Decimal) : compare zero d = (0 ?= coeff d).
Proof.
  unfold compare, zero; cbn [coeff exp]. rewrite Z.mul_0_l.
  set (p := 10 ^ (exp d - Z.min 0 (exp d))).
  assert (Hp : 0 < p) by (apply pow10_pos; lia).
  rewrite (Zmult_compare_compat_r 0 (coeff d) p) by lia. now rewrite Z.mul_0_l.
Qed.

Lemma gtb_zero (d : Decimal) : gtb d zero = (0 <? coeff d).
Proof. unfold gtb, ltb, Z.ltb. now rewrite compare_zero_l. Qed.

Lemma ltb_zero_fix (d : Decimal) : ltb (fix_context d) zero = (coeff d <? 0).
Proof.
  rewrite ltb_zero. pose proof (fix_context_sgn d) as Hs.
  destruct (Z.ltb_spec (coeff (fix_context d)) 0), (Z.ltb_spec (coeff d) 0); lia.
Qed.


End DecFacts.

Module QFacts.

Import Dec Spec DecFacts.

Lemma Qround_half_even_comp (q q' : Q) :
  (q == q')%Q -> Qround_half_even q = Qround_half_even q'.
Proof.
  intros E. unfold Qround_half_even.
  rewrite (Qfloor_comp _ _ E).
  assert (E' : (q - inject_Z (Qfloor q') == q' - inject_Z (Qfloor q'))%Q) by (rewrite E; reflexivity).
  now rewrite (Qcompare_comp _ _ E' (1 # 2) (1 # 2) (Qeq_refl _)).
Qed.

Lemma Qround_half_even_Z (z : Z) : Qround_half_even (inject_Z z) = z.
Proof.
  unfold Qround_half_even. rewrite Qfloor_Z.
  assert (E : (inject_Z z - inject_Z z == 0)%Q) by ring.
  now rewrite (Qcompare_comp _ _ E (1 # 2) (1 # 2) (Qeq_refl _)).
Qed.

(** On a fraction with a positive denominator the rational rounding is the
    integer one: quotient, remainder, and the remainder against half. *)
Lemma Qround_half_even_frac (c p : Z) :
  0 < p ->
  Qround_half_even (inject_Z c / inject_Z p) =
    (if 2 * (c mod p) <? p then c / p
     else if p <? 2 * (c mod p) then c / p + 1
     else if Z.even (c / p) then c / p else c / p + 1).
Proof.
  intros Hp. unfold Qround_half_even.
  rewrite <- Zdiv_Qdiv.
  pose proof (Z.div_mod c p ltac:(lia)) as Hdm.
  pose proof (Z.mod_pos_bound c p Hp) as Hm.
  set (q := c / p) in *. set (r := c mod p) in *.
  assert (Hnz : ~ (inject_Z p == 0)%Q).
  { unfold Qeq, inject_Z; cbn. lia. }
  assert (E : (inject_Z c / inject_Z p - inject_Z q == inject_Z r / inject_Z p)%Q).
  { rewrite Hdm at 1. rewrite inject_Z_plus, inject_Z_mult. field. exact Hnz. }
  rewrite (Qcompare_comp _ _ E (1 # 2) (1 # 2) (Qeq_refl _)).
  assert (Hcmp : (inject_Z r / inject_Z p ?= 1 # 2)%Q = (2 * r ?= p)).
  { unfold Qdiv, Qcompare, Qmult, Qinv, inject_Z; cbn.
    destruct p as [|pp|pp]; try lia. cbn.
    f_equal; lia. }
  rewrite Hcmp.
  destruct (Z.compare_spec (2 * r) p) as [He|Hl|Hg].
  - destruct (Z.ltb_spec (2 * r) p); [lia|]. destruct (Z.ltb_spec p (2 * r)); [lia|]. reflexivity.
  - destruct (Z.ltb_spec (2 * r) p); [reflexivity|lia].
  - destruct (Z.ltb_spec (2 * r) p); [lia|]. destruct (Z.ltb_spec p (2 * r)); [reflexivity|lia].
Qed.

Lemma Qround_half_even_pow10 (c k : Z) :
  0 <= k -> Qround_half_even (inject_Z c / inject_Z (10 ^ k)) = round_half_even c k.
Proof.
  intros Hk. rewrite Qround_half_even_frac by (apply pow10_pos; lia). reflexivity.
Qed.


Lemma Qpow10_add (a b : Z) : ((10 # 1) ^ (a + b) == (10 # 1) ^ a * (10 # 1) ^ b)%Q.
Proof. apply Qpower_plus. discriminate. Qed.

Lemma Qpow10_Z (k : Z) : 0 <= k -> (inject_Z (10 ^ k) == (10 # 1) ^ k)%Q.
Proof. intros Hk. now rewrite Zpower_Qpower. Qed.

Lemma Qpow10_pos (e : Z) : (0 < (10 # 1) ^ e)%Q.
Proof. apply Qpower_0_lt. reflexivity. Qed.

(** Rounding [c * 10^e]: an integer already when [e >= 0], the integer
    rounding of the last [-e] digits otherwise. *)
Lemma Qround_half_even_scaled (c e : Z) :
  Qround_half_even (inject_Z c * (10 # 1) ^ e) =
    if 0 <=? e then c * 10 ^ e else round_half_even c (- e).
Proof.
  destruct (Z.leb_spec 0 e) as [He|He].
  - rewrite <- (Qround_half_even_Z (c * 10 ^ e)).
    apply Qround_half_even_comp.
    now rewrite inject_Z_mult, Qpow10_Z.
  - rewrite <- Qround_half_even_pow10 by lia.
    apply Qround_half_even_comp.
    rewrite Qpow10_Z by lia. unfold Qdiv.
    rewrite <- Qpower_opp. now rewrite Z.opp_involutive.
Qed.

Lemma strip_zeros_spec (fuel : nat) :
  forall c e, exists j,
    0 <= j <= Z.of_nat fuel /\
    c = fst (strip_zeros fuel c e) * 10 ^ j /\
    snd (strip_zeros fuel c e) = e + j /\
    (j = Z.of_nat fuel \/ fst (strip_zeros fuel c e) mod 10 <> 0).
Proof.
  induction fuel as [|f IH]; intros c e.
  - exists 0. cbn. repeat split; lia.
  - cbn [strip_zeros]. destruct (Z.eqb_spec (c mod 10) 0) as [Hz|Hnz].
    + destruct (IH (c / 10) (e + 1)) as (j & Hj & Hc & He & Hstop).
      exists (j + 1). split; [lia|]. split; [|split; [lia|]].
      * rewrite pow10_succ by lia.
        pose proof (Z.div_mod c 10 ltac:(lia)). lia.
      * destruct Hstop as [->|Hs]; [left; lia|now right].
    + exists 0. cbn [fst snd]. split; [lia|]. split; [|split; [lia|now right]].
      change (10 ^ 0) with 1. lia.
Qed.

(** Dividing a product of at most 28 digits by 100 is exact. *)
Lemma div_100_exact (P E : Z) :
  0 < P -> ndigits P <= prec ->
  exists c t, 0 <= t <= 2 /\ 0 < c /\ P = c * 10 ^ t /\
    div (mkDecimal P E) (mkDecimal 100 0) = Ok (mkDecimal c (E - 2 + t)).
Proof.
  intros HP Hn. unfold div; cbn [coeff exp].
  destruct (Z.eqb_spec 100 0) as [|_]; [lia|].
  destruct (Z.eqb_spec P 0) as [|_]; [lia|].
  rewrite (Z.abs_eq P) by lia. change (Z.abs 100) with 100.
  change (ndigits 100) with 3.
  rewrite (Z.sgn_pos P) by lia. change (Z.sgn 100) with 1.
  pose proof (ndigits_ge_1 P) as Hn1.
  set (shift := 3 - ndigits P + prec + 1) in *.
  assert (Hs : 4 <= shift) by (unfold shift, prec in *; lia).
  destruct (Z.leb_spec 0 shift) as [_|]; [|lia].
  assert (Hsplit : P * 10 ^ shift = P * 10 ^ (shift - 2) * 100).
  { replace shift with ((shift - 2) + 2) at 1 by lia.
    rewrite Z.pow_add_r by lia. change (10 ^ 2) with 100. lia. }
  destruct (Z.div_eucl (P * 10 ^ shift) 100) as [q r] eqn:Hdiv.
  assert (Hq : q = P * 10 ^ (shift - 2)).
  { change q with (fst (q, r)). rewrite <- Hdiv. fold (Z.div (P * 10 ^ shift) 100).
    rewrite Hsplit. apply Z.div_mul. lia. }
  assert (Hr : r = 0).
  { change r with (snd (q, r)). rewrite <- Hdiv. fold (Z.modulo (P * 10 ^ shift) 100).
    rewrite Hsplit. apply Z.mod_mul. lia. }
  subst r. cbn [Z.eqb].
  replace (E - 0 - (E - 0 - shift)) with shift by lia.
  destruct (strip_zeros_spec (Z.to_nat shift) q (E - 0 - shift))
    as (j & Hj & Hc & He & Hstop).
  destruct (strip_zeros (Z.to_nat shift) q (E - 0 - shift)) as [c e'].
  cbn [fst snd] in *. rewrite Z2Nat.id in * by lia.
  assert (Hcpos : 0 < c).
  { assert (0 < q) by (rewrite Hq; apply Z.mul_pos_pos; [lia|apply pow10_pos; lia]).
    pose proof (pow10_pos j ltac:(lia)). nia. }
  assert (Hjge : shift - 2 <= j).
  { destruct (Z.le_gt_cases (shift - 2) j) as [|Hlt]; [assumption|exfalso].
    destruct Hstop as [->|Hnd]; [lia|]. apply Hnd.
    assert (Hc' : c = P * 10 ^ (shift - 2 - j - 1) * 10).
    { apply (Z.mul_reg_r _ _ (10 ^ j)); [pose proof (pow10_pos j ltac:(lia)); lia|].
      rewrite <- Hc, Hq.
      replace (shift - 2) with ((shift - 2 - j - 1) + 1 + j) at 1 by lia.
      rewrite !Z.pow_add_r by lia. change (10 ^ 1) with 10. lia. }
    rewrite Hc'. apply Z.mod_mul. lia. }
  exists c, (j - (shift - 2)). 
  assert (HPc : P = c * 10 ^ (j - (shift - 2))).
  { apply (Z.mul_reg_r _ _ (10 ^ (shift - 2))); [pose proof (pow10_pos (shift - 2) ltac:(lia)); lia|].
    rewrite <- Z.mul_assoc, <- Z.pow_add_r by lia.
    replace (j - (shift - 2) + (shift - 2)) with j by lia. now rewrite <- Hq. }
  repeat split; try lia.
  rewrite Z.mul_1_l. rewrite fix_context_id.
  - f_equal. f_equal. lia.
  - cbn [coeff]. etransitivity; [|exact Hn]. apply ndigits_mono.
    pose proof (pow10_pos (j - (shift - 2)) ltac:(lia)). nia.
Qed.

(** [quantize] to eight places is the exact half-even rounding whenever
    the rounded coefficient fits the context precision. *)
Lemma quantize_exact (c e : Z) :
  0 < c -> ndigits c <= prec ->
  Qround_half_even (inject_Z c * (10 # 1) ^ (e + 8)) < 10 ^ prec ->
  quantize (mkDecimal c e) (mkDecimal 1 (-8)) =
    Ok (mkDecimal (Qround_half_even (inject_Z c * (10 # 1) ^ (e + 8))) (-8)).
Proof.
  intros Hc Hn. rewrite Qround_half_even_scaled. intros HR.
  unfold quantize, adjusted, rescale; cbn [coeff exp].
  destruct (Z.eqb_spec c 0) as [|_]; [lia|].
  destruct (ndigits_spec c Hc) as (Hn1 & Hlo & Hhi).
  rewrite (Z.abs_eq c), (Z.sgn_pos c), Z.mul_1_l by lia.
  assert (Hp28 : 0 < 10 ^ prec) by (apply pow10_pos; unfold prec; lia).
  destruct (Z.leb_spec 0 (e + 8)) as [He|He].
  - (* padding with zeros *)
    destruct (Z.leb_spec (-8) e) as [_|]; [|lia].
    replace (e - -8) with (e + 8) in * by lia.
    assert (Hdig : e + ndigits c - 1 - -8 + 1 <= prec).
    { destruct (Z.le_gt_cases (e + ndigits c - 1 - -8 + 1) prec) as [|Hgt]; [assumption|exfalso].
      assert (10 ^ prec <= c * 10 ^ (e + 8)); [|lia].
      destruct (Z.le_gt_cases 0 (prec - (e + 8))) as [Hpe|Hpe].
      - replace prec with ((prec - (e + 8)) + (e + 8)) at 1 by lia.
        rewrite Z.pow_add_r by lia.
        apply Z.mul_le_mono_nonneg_r; [pose proof (pow10_pos (e + 8) He); lia|].
        etransitivity; [|exact Hlo]. apply pow10_le. lia.
      - etransitivity; [apply (pow10_le _ (e + 8)); unfold prec in *; lia|].
        pose proof (pow10_pos (e + 8) He). nia. }
    destruct (Z.ltb_spec prec (e + ndigits c - 1 - -8 + 1)) as [|_]; [lia|].
    cbn [coeff].
    assert (Hnd : ndigits (c * 10 ^ (e + 8)) <= prec).
    { apply ndigits_le; [|unfold prec; lia].
      pose proof (pow10_pos (e + 8) He). split; [nia|lia]. }
    destruct (Z.ltb_spec prec (ndigits (c * 10 ^ (e + 8)))) as [|_]; [lia|].
    now rewrite fix_context_id.
  - (* rounding digits away *)
    destruct (Z.leb_spec (-8) e) as [|_]; [lia|].
    replace (-8 - e) with (- (e + 8)) in * by lia.
    set (k := - (e + 8)) in *.
    pose proof (round_half_even_bounds c k) as [Hrlo Hrhi].
    assert (Hr0 : 0 <= round_half_even c k).
    { etransitivity; [|exact Hrlo]. apply Z.div_pos; [lia|apply pow10_pos; lia]. }
    assert (Hdig : e + ndigits c - 1 - -8 + 1 <= prec).
    { destruct (Z.le_gt_cases (e + ndigits c - 1 - -8 + 1) prec) as [|Hgt]; [assumption|exfalso].
      assert (10 ^ prec <= c / 10 ^ k); [|lia].
      apply Z.div_le_lower_bound; [apply pow10_pos; lia|].
      rewrite <- Z.pow_add_r by (unfold prec; lia).
      etransitivity; [|exact Hlo]. apply pow10_le. unfold prec in *. lia. }
    destruct (Z.ltb_spec prec (e + ndigits c - 1 - -8 + 1)) as [|_]; [lia|].
    cbn [coeff].
    assert (Hnd : ndigits (round_half_even c k) <= prec).
    { apply ndigits_le; [lia|unfold prec; lia]. }
    destruct (Z.ltb_spec prec (ndigits (round_half_even c k))) as [|_]; [lia|].
    now rewrite fix_context_id.
Qed.


(** The exact fee in 1e-8 units, from a product written [c * 10^t]. *)
Lemma fee_value (a p : Decimal) (c t : Z) :
  0 <= t -> coeff a * coeff p = c * 10 ^ t ->
  (value a * value p / 100 * 10 ^ 8 ==
   inject_Z c * (10 # 1) ^ (exp a + exp p - 2 + t + 8))%Q.
Proof.
  intros Ht HP. unfold value.
  replace (exp a + exp p - 2 + t + 8) with (exp a + (exp p + (t + 6))) by lia.
  rewrite !Qpow10_add, <- (Qpow10_Z t) by lia.
  change ((10 # 1) ^ 6)%Q with (1000000 # 1)%Q.
  change (10 ^ 8)%Q with (100000000 # 1)%Q.
  set (A := ((10 # 1) ^ exp a)%Q). set (B := ((10 # 1) ^ exp p)%Q).
  assert (E : (inject_Z c * inject_Z (10 ^ t) == inject_Z (coeff a) * inject_Z (coeff p))%Q).
  { now rewrite <- !inject_Z_mult, HP. }
  transitivity (inject_Z c * inject_Z (10 ^ t) * (A * B * (1000000 # 1)))%Q; [|ring].
  rewrite E. field.
Qed.

(** The three decimal operations of [calculate_fee] compute the fee of the
    specification, as long as the product [amount * percent] and the
    rounded fee both fit the 28 digits of the context. *)
Lemma percentage_calculate_fee_exact (self : PercentageFeeCalculator) (a : Decimal) :
  0 <= coeff (fee_percent self) ->
  0 < coeff a ->
  ndigits (coeff a * coeff (fee_percent self)) <= prec ->
  fee_units a (fee_percent self) < 10 ^ prec ->
  percentage_calculate_fee self a = Ok (Spec.fee a (fee_percent self)).
Proof.
  intros Hp Ha Hn HR. unfold percentage_calculate_fee.
  rewrite leb_zero. destruct (Z.leb_spec (coeff a) 0) as [|_]; [lia|].
  unfold mul. rewrite fix_context_id by exact Hn.
  set (p := fee_percent self) in *.
  destruct (Z.eq_dec (coeff p) 0) as [Hp0|Hp0].
  - (* a zero percentage *)
    rewrite Hp0, Z.mul_0_r. unfold div; cbn [coeff exp Z.eqb].
    rewrite fix_context_id by (cbn [coeff]; rewrite ndigits_0; unfold prec; lia).
    unfold quantize; cbn [coeff exp Z.eqb].
    rewrite fix_context_id by (cbn [coeff]; rewrite ndigits_0; unfold prec; lia).
    unfold Spec.fee, fee_units. do 2 f_equal.
    rewrite <- (Qround_half_even_Z 0). symmetry. apply Qround_half_even_comp.
    unfold value. rewrite Hp0. change (inject_Z 0) with 0%Q. field.
  - assert (HP : 0 < coeff a * coeff p) by nia.
    destruct (div_100_exact _ (exp a + exp p) HP Hn) as (c & t & Ht & Hc & HPc & Hdiv).
    rewrite Hdiv.
    pose proof (fee_value a p c t ltac:(lia) HPc) as Hv.
    assert (HRu : fee_units a p =
                  Qround_half_even (inject_Z c * (10 # 1) ^ (exp a + exp p - 2 + t + 8))).
    { unfold fee_units. now apply Qround_half_even_comp. }
    rewrite quantize_exact.
    + unfold Spec.fee. now rewrite HRu.
    + exact Hc.
    + etransitivity; [|exact Hn]. apply ndigits_mono.
      pose proof (pow10_pos t ltac:(lia)). nia.
    + now rewrite <- HRu.
Qed.


(** A value on a lower exponent. *)
Lemma value_shift (x : Decimal) (e : Z) :
  e <= exp x ->
  (value x == inject_Z (coeff x * 10 ^ (exp x - e)) * (10 # 1) ^ e)%Q.
Proof.
  intros He. unfold value.
  replace (exp x) with ((exp x - e) + e) at 1 by lia.
  rewrite Qpow10_add, inject_Z_mult, Qpow10_Z by lia. ring.
Qed.

Lemma Qcompare_scaled (a b : Z) (q : Q) :
  (0 < q)%Q -> (inject_Z a * q ?= inject_Z b * q)%Q = (a ?= b).
Proof.
  intros Hq. destruct (Z.compare_spec a b) as [->|Hlt|Hgt].
  - apply Qeq_alt. reflexivity.
  - apply Qlt_alt. apply Qmult_lt_compat_r; [exact Hq|]. now rewrite <- Zlt_Qlt.
  - apply Qgt_alt. apply Qmult_lt_compat_r; [exact Hq|]. now rewrite <- Zlt_Qlt.
Qed.

(** The comparison of two decimals is the comparison of their values. *)
Lemma compare_value (x y : Decimal) : compare x y = (value x ?= value y)%Q.
Proof.
  unfold compare. set (e := Z.min (exp x) (exp y)).
  rewrite (Qcompare_comp _ _ (value_shift x e ltac:(lia)) _ _ (value_shift y e ltac:(lia))).
  symmetry. apply Qcompare_scaled, Qpow10_pos.
Qed.


Lemma ltb_value_false (x y : Decimal) : ltb x y = false <-> (value y <= value x)%Q.
Proof.
  unfold ltb. rewrite compare_value, Qle_alt, <- (Qcompare_antisym (value x) (value y)).
  generalize (Qcompare (value x) (value y)). intros []; cbn; split; intros HH; congruence.
Qed.

Lemma value_zero : (value zero == 0)%Q.
Proof. reflexivity. Qed.





End QFacts.

(* ===================================================================== *)
(** * Facts about the repositories and the use cases *)
(* ===================================================================== *)

Module StoreFacts.

Import DecFacts QFacts.

Lemma truthy_ne (s : string) : PyStr.truthy s = true <-> s <> ""%string.
Proof. destruct s; cbn; split; congruence. Qed.

Lemma truthy_false (s : string) : PyStr.truthy s = false <-> s = ""%string.
Proof. destruct s; cbn; split; congruence. Qed.

Lemma Merchant_init_ok (n : string) (t : datetime) :
  n <> ""%string -> Merchant_init n t = Ok (mkMerchant n t).
Proof. intros Hn. unfold Merchant_init. apply truthy_ne in Hn. now rewrite Hn. Qed.

Lemma Balance_init_ok (m c : string) (a : Decimal) :
  c <> ""%string -> 0 <= coeff a -> Balance_init m c a = Ok (mkBalance m c a).
Proof.
  intros Hc Ha. unfold Balance_init. rewrite ltb_zero.
  destruct (Z.ltb_spec (coeff a) 0); [lia|].
  apply truthy_ne in Hc. now rewrite Hc.
Qed.

Lemma Balance_init_inv (m c : string) (a : Decimal) (b : Balance) :
  Balance_init m c a = Ok b -> c <> ""%string /\ 0 <= coeff a /\ b = mkBalance m c a.
Proof.
  unfold Balance_init. rewrite ltb_zero.
  destruct (Z.ltb_spec (coeff a) 0); [discriminate|].
  destruct (PyStr.truthy c) eqn:Hc; cbn; [|discriminate].
  intros [= <-]. apply truthy_ne in Hc. auto.
Qed.

Lemma Merchant_init_inv (n : string) (t : datetime) (m : Merchant) :
  Merchant_init n t = Ok m -> n <> ""%string /\ m = mkMerchant n t.
Proof.
  unfold Merchant_init. destruct (PyStr.truthy n) eqn:Hn; cbn; [|discriminate].
  intros [= <-]. apply truthy_ne in Hn. auto.
Qed.

Lemma Transfer_init_inv i f t c a fe k ts (tr : Transfer) :
  Transfer_init i f t c a fe k ts = Ok tr ->
  0 < coeff a /\ 0 <= coeff fe /\ k <> ""%string /\ f <> t /\
  tr = mkTransfer i f t c a fe k ts.
Proof.
  unfold Transfer_init. rewrite leb_zero, ltb_zero.
  destruct (Z.leb_spec (coeff a) 0); [discriminate|].
  destruct (Z.ltb_spec (coeff fe) 0); [discriminate|].
  destruct (PyStr.truthy k) eqn:Hk; cbn; [|discriminate].
  destruct (bool_decide_reflect (f = t)); [discriminate|].
  intros [= <-]. apply truthy_ne in Hk. auto.
Qed.

Lemma Transfer_init_ok i f t c a fe k ts :
  0 < coeff a -> 0 <= coeff fe -> k <> ""%string -> f <> t ->
  Transfer_init i f t c a fe k ts = Ok (mkTransfer i f t c a fe k ts).
Proof.
  intros Ha Hf Hk Hft. unfold Transfer_init. rewrite leb_zero, ltb_zero.
  destruct (Z.leb_spec (coeff a) 0); [lia|].
  destruct (Z.ltb_spec (coeff fe) 0); [lia|].
  apply truthy_ne in Hk. rewrite Hk. cbn.
  destruct (bool_decide_reflect (f = t)); [contradiction|reflexivity].
Qed.

(** On a well-formed store the reading repositories never raise. *)
Lemma get_by_name_wf (s : Store) (n : string) :
  store_wf s ->
  MerchantRepository.get_by_name n s = (Ok (mkMerchant n <$> merchants s !! n), s).
Proof.
  intros Hwf. unfold MerchantRepository.get_by_name.
  destruct (merchants s !! n) as [t|] eqn:Hm; [|reflexivity].
  rewrite Merchant_init_ok; [reflexivity|]. eapply wf_merchant_name; eauto.
Qed.

Lemma balance_get_wf {E : Engine} (s : Store) (m c : string) :
  store_wf s ->
  BalanceRepository.get m c s = (Ok (mkBalance m c <$> balances s !! (m, c)), s).
Proof.
  intros Hwf. unfold BalanceRepository.get.
  destruct (balances s !! (m, c)) as [a|] eqn:Hb; [|reflexivity].
  destruct (wf_balance _ Hwf _ _ _ Hb) as [Hc Ha].
  now rewrite Balance_init_ok.
Qed.

Lemma has_key_false (k : string) (rows : list Transfer) :
  TransferRepository.has_key k rows = false ->
  filter (fun r => idempotency_key r = k) rows = [].
Proof.
  unfold TransferRepository.has_key. induction rows as [|r rows IH]; [reflexivity|].
  cbn [existsb]. intros H. apply orb_false_elim in H as [Hr Hrest].
  apply bool_decide_eq_false in Hr.
  rewrite filter_cons_False by exact Hr. auto.
Qed.




(** ** Inversion of the session combinators *)

Lemma bind_ok {A B : Type} (m : session A) (k : A -> session B) s r s' :
  bind m k s = (Ok r, s') ->
  exists a s1, m s = (Ok a, s1) /\ k a s1 = (Ok r, s').
Proof.
  unfold bind. destruct (m s) as [[a|e] s1]; [eauto|discriminate].
Qed.

Lemma bind_eq {A B : Type} (m : session A) (k : A -> session B) s a s1 :
  m s = (Ok a, s1) -> bind m k s = k a s1.
Proof. unfold bind. now intros ->. Qed.

Lemma bind_raise {A B : Type} (m : session A) (k : A -> session B) s e s1 :
  m s = (Raise e, s1) -> bind m k s = (Raise e, s1).
Proof. unfold bind. now intros ->. Qed.

Lemma lift_ok {A : Type} (r : result A) s a s' :
  lift r s = (Ok a, s') -> r = Ok a /\ s' = s.
Proof. unfold lift. now intros [= -> ->]. Qed.

(** ** What a successful repository call tells *)

Lemma get_by_name_ok n s o s1 :
  MerchantRepository.get_by_name n s = (Ok o, s1) ->
  s1 = s /\ o = mkMerchant n <$> merchants s !! n.
Proof.
  unfold MerchantRepository.get_by_name.
  destruct (merchants s !! n) as [t|]; [|now intros [= <- <-]].
  destruct (Merchant_init n t) as [m|e] eqn:Hm; [|discriminate].
  apply Merchant_init_inv in Hm as [_ ->]. now intros [= <- <-].
Qed.

Section Repositories.

Context {E : Engine}.

Lemma subtract_amount_ok m c a s b s1 :
  BalanceRepository.subtract_amount m c a s = (Ok b, s1) ->
  exists cur v,
    balances s !! (m, c) = Some cur /\
    Dec.ltb (Dec.sub cur a) Dec.zero = false /\
    numeric (Dec.sub cur a) = Ok v /\ 0 <= coeff v /\
    c <> ""%string /\ b = mkBalance m c v /\
    s1 = set_balances s (<[(m, c) := v]> (balances s)).
Proof.
  unfold BalanceRepository.subtract_amount.
  destruct (balances s !! (m, c)) as [cur|]; [|discriminate].
  destruct (Dec.ltb (Dec.sub cur a) Dec.zero) eqn:Hneg; [discriminate|].
  destruct (numeric (Dec.sub cur a)) as [v|] eqn:Hv; [|discriminate].
  destruct (Balance_init m c v) as [b'|e] eqn:Hb; [|discriminate].
  apply Balance_init_inv in Hb as (Hc & Hnn & ->).
  intros [= <- <-]. exists cur, v. auto 10.
Qed.

Lemma add_amount_ok m c a s b s1 :
  BalanceRepository.add_amount m c a s = (Ok b, s1) ->
  exists v,
    Dec.ltb (credited (balances s) m c a) Dec.zero = false /\
    numeric (credited (balances s) m c a) = Ok v /\ 0 <= coeff v /\
    c <> ""%string /\ b = mkBalance m c v /\
    s1 = set_balances s (<[(m, c) := v]> (balances s)).
Proof.
  unfold BalanceRepository.add_amount, credited.
  destruct (balances s !! (m, c)) as [cur|].
  - destruct (Dec.ltb (Dec.add cur a) Dec.zero) eqn:Hneg; [discriminate|].
    destruct (numeric (Dec.add cur a)) as [v|] eqn:Hv; [|discriminate].
    destruct (Balance_init m c v) as [b'|e] eqn:Hb; [|discriminate].
    apply Balance_init_inv in Hb as (Hc & Hnn & ->). intros [= <- <-].
    exists v. auto 10.
  - destruct (Dec.ltb a Dec.zero) eqn:Hneg; [discriminate|].
    destruct (numeric a) as [v|] eqn:Hv; [|discriminate].
    destruct (Balance_init m c v) as [b'|e] eqn:Hb; [|discriminate].
    apply Balance_init_inv in Hb as (Hc & Hnn & ->). intros [= <- <-].
    exists v. auto 10.
Qed.

Lemma transfer_create_ok t s t' s1 :
  TransferRepository.create t s = (Ok t', s1) ->
  exists amount_ fee_,
    numeric (amount t) = Ok amount_ /\ 0 < coeff amount_ /\
    numeric (fee t) = Ok fee_ /\ 0 <= coeff fee_ /\
    TransferRepository.has_key (idempotency_key t) (transfers s) = false /\
    t' = mkTransfer (Some (next_id (transfers s)))
           (from_merchant t) (to_merchant t) (currency t) amount_
           fee_ (idempotency_key t) (created_at t) /\
    s1 = set_transfers s (transfers s ++ [t']).
Proof.
  unfold TransferRepository.create, TransferRepository.entity.
  destruct (TransferRepository.has_key _ _); [discriminate|].
  destruct (numeric (amount t)) as [amount_|]; [|discriminate].
  destruct (numeric (fee t)) as [fee_|]; [|discriminate].
  cbn [id from_merchant to_merchant currency amount fee idempotency_key created_at].
  destruct (Transfer_init _ _ _ _ _ _ _ _) as [x|] eqn:Hx; [|discriminate].
  apply Transfer_init_inv in Hx as (Ha & Hfe & _ & _ & ->).
  intros [= <- <-]. exists amount_, fee_. auto 10.
Qed.

End Repositories.

Lemma idempotency_store_ok k tid d s u s1 :
  IdempotencyRepository.store k tid d s = (Ok u, s1) ->
  exists i, tid = Some i /\ idempotency_keys s !! k = None /\
    s1 = set_idempotency_keys s (<[k := mkIdempotencyKeyModel i d]> (idempotency_keys s)).
Proof.
  unfold IdempotencyRepository.store.
  destruct tid as [i|]; [|discriminate].
  destruct (idempotency_keys s !! k); [discriminate|].
  intros [= <-]. eauto.
Qed.


(** ** The transfer use case *)

Section Transfer.

Context {E : Engine} {T : Type} {FC : FeeCalculator T}.
Variable fc : T.

Lemma on_value_error_raises total fe c e s :
  exists e', ExecuteTransferUseCase.on_value_error total fe c e s = (Raise e', s).
Proof.
  unfold ExecuteTransferUseCase.on_value_error, raise.
  destruct e; eauto. destruct (_ || _); eauto.
Qed.

(** A transfer that is performed passed every check, and leaves
    [transferred]. *)
Lemma perform_ok f t c a k now s r s' :
  ExecuteTransferUseCase.perform fc f t c a k now s = (Ok r, s') ->
  exists fe cur debited credited_ amount_ fee_,
    performed fc s f t c a k fe cur debited credited_ amount_ fee_ /\
    r = ExecuteTransferUseCase.response
          (mkTransfer (Some (next_id (transfers s))) f t c amount_ fee_ k now)
          f t c a fe /\
    s' = transferred s f t c a fe k now (next_id (transfers s))
           debited credited_ amount_ fee_.
Proof.
  unfold ExecuteTransferUseCase.perform. intros Hrun.
  apply bind_ok in Hrun as (fo & s1 & Hf & Hrun).
  apply get_by_name_ok in Hf as [-> ->].
  destruct (merchants s !! f) as [tf|] eqn:Hmf; cbn [fmap option_fmap option_map] in Hrun;
    [|discriminate].
  apply bind_ok in Hrun as (to & s1 & Ht & Hrun).
  apply get_by_name_ok in Ht as [-> ->].
  destruct (merchants s !! t) as [tt|] eqn:Hmt; cbn [fmap option_fmap option_map] in Hrun;
    [|discriminate].
  destruct (bool_decide_reflect (f = t)) as [|Hft]; [discriminate|].
  rewrite leb_zero in Hrun.
  destruct (Z.leb_spec (coeff a) 0) as [|Ha]; [discriminate|].
  apply bind_ok in Hrun as (fe & s1 & Hfee & Hrun).
  apply lift_ok in Hfee as [Hfee ->].
  apply bind_ok in Hrun as (b & s1 & Hmove & Hrun).
  assert (Hmove' :
    bind (BalanceRepository.subtract_amount f c (Dec.add a fe))
      (fun _ => BalanceRepository.add_amount t c a) s = (Ok b, s1)).
  { unfold try_except in Hmove.
    destruct (bind _ _ s) as [[b0|e] s0]; [exact Hmove|].
    destruct (on_value_error_raises (Dec.add a fe) fe c e s0) as [e' He'].
    rewrite He' in Hmove. discriminate. }
  clear Hmove. apply bind_ok in Hmove' as (b1 & s2 & Hsub & Hadd).
  apply subtract_amount_ok in Hsub as (cur & v1 & Hcur & Hnn & Hv1 & Hv1s & Hc & _ & ->).
  apply add_amount_ok in Hadd as (v2 & _ & Hv2 & Hv2s & _ & _ & ->).
  cbn [balances set_balances] in Hv2.
  apply bind_ok in Hrun as (tr & s1 & Htr & Hrun).
  apply lift_ok in Htr as [Htr ->].
  apply Transfer_init_inv in Htr as (_ & Hfe & Hk & _ & ->).
  apply bind_ok in Hrun as (tr' & s1 & Hcreate & Hrun).
  apply transfer_create_ok in Hcreate
    as (amount_ & fee_ & Ham & Hams & Hfm & Hfms & Hkey & -> & ->).
  cbn [id from_merchant to_merchant currency amount fee idempotency_key created_at
       transfers set_transfers set_balances] in *.
  apply bind_ok in Hrun as (u & s1 & Hstore & Hrun).
  apply idempotency_store_ok in Hstore as (i & Hi & Hidem & ->).
  injection Hi as <-.
  unfold ret in Hrun. injection Hrun as <- <-.
  exists fe, cur, v1, v2, amount_, fee_.
  split; [|split; reflexivity].
  constructor; eauto.
Qed.

Lemma response_truthy tr f t c a fe :
  dict_truthy (ExecuteTransferUseCase.response tr f t c a fe) = true.
Proof.
  unfold dict_truthy, ExecuteTransferUseCase.response.
  rewrite bool_decide_eq_false_2; [reflexivity|]. apply insert_non_empty.
Qed.

Lemma response_fields tr f t c a fe :
  dom (ExecuteTransferUseCase.response tr f t c a fe) = use_case_fields.
Proof.
  unfold ExecuteTransferUseCase.response, use_case_fields.
  rewrite !dom_insert_L, dom_empty_L. cbn [list_to_set foldr]. set_solver.
Qed.

(** A key without a record: the transfer is performed. *)
Lemma execute_fresh f t c a k now s :
  idempotency_keys s !! k = None ->
  ExecuteTransferUseCase.execute fc f t c a k now s =
  ExecuteTransferUseCase.perform fc f t c a k now s.
Proof.
  intros Hk. unfold ExecuteTransferUseCase.execute, bind, IdempotencyRepository.get.
  now rewrite Hk.
Qed.

(** A key with a record: its response is handed back and nothing else
    happens. *)
Lemma execute_replay f t c a k now s rec :
  idempotency_keys s !! k = Some rec ->
  dict_truthy (response_data rec) = true ->
  ExecuteTransferUseCase.execute fc f t c a k now s = (Ok (response_data rec), s).
Proof.
  intros Hk Ht. unfold ExecuteTransferUseCase.execute, bind, IdempotencyRepository.get.
  rewrite Hk. cbn. now rewrite Ht.
Qed.


(** The two balance moves of a transfer that passes its checks. *)
Lemma balance_moves_run f t c a fe s cur debited credited_ :
  store_wf s -> f <> t -> 0 < coeff a ->
  balances s !! (f, c) = Some cur ->
  Dec.ltb (Dec.sub cur (Dec.add a fe)) Dec.zero = false ->
  numeric (Dec.sub cur (Dec.add a fe)) = Ok debited -> 0 <= coeff debited ->
  numeric (credited (<[(f, c) := debited]> (balances s)) t c a) = Ok credited_ ->
  0 <= coeff credited_ ->
  try_except
    (run BalanceRepository.subtract_amount f c (Dec.add a fe);
     BalanceRepository.add_amount t c a)
    (ExecuteTransferUseCase.on_value_error (Dec.add a fe) fe c) s =
  (Ok (mkBalance t c credited_),
   set_balances s (<[(t, c) := credited_]> (<[(f, c) := debited]> (balances s)))).
Proof.
  intros Hwf Hft Ha Hcur Hnn Hv1 Hv1s Hv2 Hv2s.
  destruct (wf_balance _ Hwf _ _ _ Hcur) as [Hc Hcur0].
  set (total := Dec.add a fe) in *.
  set (b1 := <[(f, c) := debited]> (balances s)) in *.
  assert (Hsub : BalanceRepository.subtract_amount f c total s =
                 (Ok (mkBalance f c debited), set_balances s b1)).
  { unfold BalanceRepository.subtract_amount. rewrite Hcur, Hnn, Hv1.
    rewrite Balance_init_ok; [reflexivity|exact Hc|exact Hv1s]. }
  assert (Hcred : Dec.ltb (credited b1 t c a) Dec.zero = false).
  { unfold credited. destruct (b1 !! (t, c)) as [cur2|] eqn:Hb1.
    - assert (Hcur2 : 0 <= coeff cur2).
      { unfold b1 in Hb1. rewrite lookup_insert_ne in Hb1 by congruence.
        now destruct (wf_balance _ Hwf _ _ _ Hb1). }
      unfold Dec.add. rewrite ltb_zero_fix. cbn [coeff].
      pose proof (pow10_pos (Dec.exp cur2 - Z.min (Dec.exp cur2) (Dec.exp a)) ltac:(lia)).
      pose proof (pow10_pos (Dec.exp a - Z.min (Dec.exp cur2) (Dec.exp a)) ltac:(lia)).
      destruct (Z.ltb_spec (coeff cur2 * 10 ^ (Dec.exp cur2 - Z.min (Dec.exp cur2) (Dec.exp a))
                            + coeff a * 10 ^ (Dec.exp a - Z.min (Dec.exp cur2) (Dec.exp a))) 0);
        [nia|reflexivity].
    - rewrite ltb_zero. destruct (Z.ltb_spec (coeff a) 0); [lia|reflexivity]. }
  assert (Hadd : BalanceRepository.add_amount t c a (set_balances s b1) =
                 (Ok (mkBalance t c credited_),
                  set_balances s (<[(t, c) := credited_]> b1))).
  { unfold BalanceRepository.add_amount, credited in *. cbn [balances set_balances].
    destruct (b1 !! (t, c)) as [cur2|]; rewrite Hcred, Hv2;
      (rewrite Balance_init_ok; [reflexivity|exact Hc|exact Hv2s]). }
  unfold try_except. rewrite (bind_eq _ _ _ _ _ Hsub), Hadd. reflexivity.
Qed.

(** Enough to perform a transfer: every check passes. *)
Lemma perform_run f t c a k now s fe cur debited credited_ amount_ fee_ :
  store_wf s ->
  performed fc s f t c a k fe cur debited credited_ amount_ fee_ ->
  ExecuteTransferUseCase.perform fc f t c a k now s =
  (Ok (ExecuteTransferUseCase.response
         (mkTransfer (Some (next_id (transfers s))) f t c amount_ fee_ k now)
         f t c a fe),
   transferred s f t c a fe k now (next_id (transfers s))
     debited credited_ amount_ fee_).
Proof.
  intros Hwf [[tf Hf] [tt Ht] Hft Ha Hfee Hfe Hcur Hnn Hv1 Hv1s Hv2 Hv2s Ham Hams Hfm Hfms
                Hc Hk Hkey Hidem].
  unfold ExecuteTransferUseCase.perform.
  rewrite (bind_eq _ _ _ _ _ (get_by_name_wf s f Hwf)), Hf. cbn [fmap option_fmap option_map].
  rewrite (bind_eq _ _ _ _ _ (get_by_name_wf s t Hwf)), Ht. cbn [fmap option_fmap option_map].
  rewrite bool_decide_eq_false_2 by exact Hft.
  rewrite leb_zero. destruct (Z.leb_spec (coeff a) 0); [lia|].
  rewrite Hfee. unfold lift at 1. unfold bind at 1.
  rewrite (bind_eq (try_except _ _) _ s _ _
             (balance_moves_run f t c a fe s cur debited credited_
                Hwf Hft Ha Hcur Hnn Hv1 Hv1s Hv2 Hv2s)).
  rewrite Transfer_init_ok by assumption. unfold lift at 1. unfold bind at 1.
  unfold bind at 1, TransferRepository.create, TransferRepository.entity.
  cbn [id from_merchant to_merchant currency amount fee idempotency_key created_at
       transfers set_transfers set_balances].
  rewrite Hkey, Ham, Hfm.
  cbn [id from_merchant to_merchant currency amount fee idempotency_key created_at].
  rewrite Transfer_init_ok by assumption.
  unfold bind at 1, IdempotencyRepository.store.
  cbn [id idempotency_keys set_transfers set_balances]. rewrite Hidem.
  reflexivity.
Qed.


(** A call that returns either replayed a record or performed the
    transfer. *)
Lemma execute_ok f t c a k now s r s' :
  ExecuteTransferUseCase.execute fc f t c a k now s = (Ok r, s') ->
  (s' = s /\ exists rec, idempotency_keys s !! k = Some rec /\
                         r = response_data rec /\ dict_truthy r = true) \/
  ExecuteTransferUseCase.perform fc f t c a k now s = (Ok r, s').
Proof.
  unfold ExecuteTransferUseCase.execute, bind, IdempotencyRepository.get.
  destruct (idempotency_keys s !! k) as [rec|] eqn:Hk; cbn; [|now right].
  destruct (dict_truthy (response_data rec)) eqn:Ht; [|now right].
  unfold ret. intros [= <- <-]. left. eauto.
Qed.

Lemma transferred_wf s f t c a fe k now i debited credited_ amount_ fee_ :
  store_wf s -> is_Some (merchants s !! f) -> is_Some (merchants s !! t) ->
  c <> ""%string -> 0 <= coeff debited -> 0 <= coeff credited_ ->
  store_wf (transferred s f t c a fe k now i debited credited_ amount_ fee_).
Proof.
  intros Hwf Hf Ht Hc Hv1 Hv2.
  assert (Hrow : forall m c' x,
    (<[(t, c) := credited_]> (<[(f, c) := debited]> (balances s))) !! (m, c') = Some x ->
    (c' <> ""%string /\ 0 <= coeff x) /\ is_Some (merchants s !! m)).
  { intros m c' x Hx.
    destruct (decide ((t, c) = (m, c'))) as [[= <- <-]|Hne1].
    - rewrite lookup_insert_eq in Hx. injection Hx as <-. auto.
    - rewrite lookup_insert_ne in Hx by exact Hne1.
      destruct (decide ((f, c) = (m, c'))) as [[= <- <-]|Hne2].
      + rewrite lookup_insert_eq in Hx. injection Hx as <-. auto.
      + rewrite lookup_insert_ne in Hx by exact Hne2.
        split; [eapply wf_balance|eapply wf_balance_owner]; eauto. }
  constructor; cbn [transferred merchants balances].
  - apply Hwf.
  - intros m c' x Hx. now destruct (Hrow _ _ _ Hx).
  - intros m c' x Hx. now destruct (Hrow _ _ _ Hx).
Qed.

(** Whatever a transfer request does, the committed store stays
    well-formed. *)
Lemma execute_transfer_wf f t c a k now s :
  store_wf s ->
  store_wf (snd (get_db (ExecuteTransferUseCase.execute fc f t c a k now) s)).
Proof.
  intros Hwf. unfold get_db.
  destruct (ExecuteTransferUseCase.execute fc f t c a k now s) as [[r|e] s'] eqn:Hrun;
    cbn [snd]; [|exact Hwf].
  apply execute_ok in Hrun as [[-> _]|Hrun]; [exact Hwf|].
  apply perform_ok in Hrun as (fe & cur & v1 & v2 & a' & fe' & Hp & _ & ->).
  apply transferred_wf; try exact Hwf; apply Hp.
Qed.

End Transfer.

(** ** Creating a merchant *)

Lemma empty_store_wf : store_wf empty_store.
Proof.
  constructor; cbn; intros *; rewrite lookup_empty; discriminate.
Qed.

Section CreateMerchant.

Context {E : Engine}.

(** The store a created merchant leaves. *)
Lemma create_merchant_ok n c ib now s m s' :
  CreateMerchantUseCase.execute n c ib now s = (Ok m, s') ->
  n <> ""%string /\ merchants s !! n = None /\ 0 <= coeff ib /\
  m = mkMerchant n now /\
  merchants s' = <[n := now]> (merchants s) /\
  transfers s' = transfers s /\ idempotency_keys s' = idempotency_keys s /\
  ((coeff ib = 0 /\ balances s' = balances s) \/
   (0 < coeff ib /\ c <> ""%string /\ balances s !! (n, c) = None /\
    exists v, numeric ib = Ok v /\ 0 <= coeff v /\
              balances s' = <[(n, c) := v]> (balances s))).
Proof.
  unfold CreateMerchantUseCase.execute. rewrite ltb_zero, gtb_zero.
  destruct (Z.ltb_spec (coeff ib) 0) as [|Hib]; [discriminate|].
  intros Hrun.
  apply bind_ok in Hrun as (o & s1 & Hget & Hrun).
  apply get_by_name_ok in Hget as [-> ->].
  destruct (merchants s !! n) as [x|] eqn:Hmn; cbn [fmap option_fmap option_map] in Hrun;
    [discriminate|].
  apply bind_ok in Hrun as (m0 & s1 & Hinit & Hrun).
  apply lift_ok in Hinit as [Hinit ->].
  apply Merchant_init_inv in Hinit as [Hn ->].
  apply bind_ok in Hrun as (m1 & s1 & Hcreate & Hrun).
  unfold MerchantRepository.create in Hcreate. cbn [name merchant_created_at] in Hcreate.
  rewrite Hmn, (Merchant_init_ok n now Hn) in Hcreate. injection Hcreate as <- <-.
  destruct (Z.ltb_spec 0 (coeff ib)) as [Hpos|Hzero].
  - apply bind_ok in Hrun as (b & s1 & Hb & Hrun).
    apply lift_ok in Hb as [Hb ->].
    apply Balance_init_inv in Hb as (Hc & _ & ->).
    apply bind_ok in Hrun as (b' & s1 & Hbc & Hrun).
    unfold BalanceRepository.create in Hbc.
    cbn [merchant_name balance_currency balance_amount balances set_merchants] in Hbc.
    destruct (balances s !! (n, c)) eqn:Hrow; [discriminate|].
    destruct (numeric ib) as [v|] eqn:Hv; [|discriminate].
    destruct (Balance_init n c v) as [b0|] eqn:Hb0; [|discriminate].
    apply Balance_init_inv in Hb0 as (_ & Hv0 & _).
    injection Hbc as _ <-. unfold ret in Hrun. injection Hrun as <- <-.
    repeat split; auto. right. repeat split; auto. exists v. auto.
  - unfold ret in Hrun. injection Hrun as <- <-.
    repeat split; auto. left; split; [lia|reflexivity].
Qed.

Lemma create_merchant_run n c ib now s v :
  store_wf s -> n <> ""%string -> merchants s !! n = None -> 0 <= coeff ib ->
  (0 < coeff ib -> c <> ""%string /\ numeric ib = Ok v /\ 0 <= coeff v) ->
  CreateMerchantUseCase.execute n c ib now s =
  (Ok (mkMerchant n now),
   mkStore (<[n := now]> (merchants s))
     (if 0 <? coeff ib then <[(n, c) := v]> (balances s) else balances s)
     (transfers s) (idempotency_keys s)).
Proof.
  intros Hwf Hn Hfree Hib Hc.
  unfold CreateMerchantUseCase.execute. rewrite ltb_zero, gtb_zero.
  destruct (Z.ltb_spec (coeff ib) 0); [lia|].
  rewrite (bind_eq _ _ _ _ _ (get_by_name_wf s n Hwf)), Hfree. cbn [fmap option_fmap option_map].
  rewrite (Merchant_init_ok n now Hn). unfold lift at 1. unfold bind at 1.
  unfold bind at 1, MerchantRepository.create. cbn [name merchant_created_at].
  rewrite Hfree, (Merchant_init_ok n now Hn).
  destruct (Z.ltb_spec 0 (coeff ib)) as [Hpos|Hzero]; [|reflexivity].
  destruct (Hc Hpos) as (Hc' & Hv & Hv0).
  rewrite (Balance_init_ok n c ib Hc' Hib). unfold lift at 1. unfold bind at 1.
  unfold bind at 1, BalanceRepository.create.
  cbn [merchant_name balance_currency balance_amount balances set_merchants].
  assert (Hrow : balances s !! (n, c) = None).
  { destruct (balances s !! (n, c)) as [x|] eqn:Hx; [|reflexivity].
    destruct (wf_balance_owner _ Hwf _ _ _ Hx) as [y Hy]. congruence. }
  rewrite Hrow, Hv, (Balance_init_ok n c v Hc' Hv0). reflexivity.
Qed.

Lemma create_merchant_wf n c ib now s :
  store_wf s ->
  store_wf (snd (get_db (CreateMerchantUseCase.execute n c ib now) s)).
Proof.
  intros Hwf. unfold get_db.
  destruct (CreateMerchantUseCase.execute n c ib now s) as [[m|e] s'] eqn:Hrun;
    cbn [snd]; [|exact Hwf].
  apply create_merchant_ok in Hrun
    as (Hn & Hfree & Hib & _ & Hm & _ & _ & Hbal).
  assert (Hold : forall m0, is_Some (merchants s !! m0) -> is_Some (merchants s' !! m0)).
  { intros m0 [x Hx]. rewrite Hm. destruct (decide (n = m0)) as [<-|Hne].
    - rewrite lookup_insert_eq. eauto.
    - rewrite lookup_insert_ne by exact Hne. eauto. }
  constructor.
  - intros n0 t0. rewrite Hm. destruct (decide (n = n0)) as [<-|Hne]; [auto|].
    rewrite lookup_insert_ne by exact Hne. apply Hwf.
  - intros m0 c0 x. destruct Hbal as [[_ ->]|(Hpos & Hc & _ & v & _ & Hv & ->)];
      [apply Hwf|].
    destruct (decide ((n, c) = (m0, c0))) as [[= <- <-]|Hne].
    + rewrite lookup_insert_eq. intros [= <-]. auto.
    + rewrite lookup_insert_ne by exact Hne. apply Hwf.
  - intros m0 c0 x. destruct Hbal as [[_ ->]|(Hpos & Hc & _ & v & _ & Hv & ->)].
    + intros Hx. eapply Hold, wf_balance_owner; eauto.
    + destruct (decide ((n, c) = (m0, c0))) as [[= <- <-]|Hne].
      * intros _. rewrite Hm, lookup_insert_eq. eauto.
      * rewrite lookup_insert_ne by exact Hne. intros Hx.
        eapply Hold, wf_balance_owner; eauto.
Qed.

End CreateMerchant.


(** ** The transfer route *)

Lemma route_fields_eq :
  route_fields =
  list_to_set ["transfer_id"; "from_merchant"; "to_merchant"; "currency"; "amount";
               "fee"; "created_at"; "is_duplicate"; "message"]%string.
Proof. unfold route_fields, use_case_fields. cbn [list_to_set foldr]. set_solver. Qed.

(** A response model that validates has the nine fields of the model, the
    transfer id of its source, and a boolean [is_duplicate]. *)
Lemma TransferResponse_ok (d r : dict) :
  Routes.TransferResponse d = Ok r ->
  dom r = route_fields /\
  r !! "transfer_id"%string = d !! "transfer_id"%string /\
  (exists i, r !! "transfer_id"%string = Some (VInt i)) /\
  (exists b, r !! "is_duplicate"%string = Some (VBool b) /\
             default (VBool false) (d !! "is_duplicate"%string) = VBool b) /\
  is_Some (r !! "message"%string).
Proof.
  unfold Routes.TransferResponse. intros Hr.
  repeat case_match; try discriminate; injection Hr as <-.
  all: rewrite route_fields_eq, !dom_insert_L, dom_empty_L.
  all: repeat split; [cbn [list_to_set foldr]; set_solver|eauto..].
Qed.

(** The response of the use case, tagged by the route, validates. *)
Lemma TransferResponse_response i f t c a fe k now (m : string) (b : bool) :
  exists r,
    Routes.TransferResponse
      (<["message"%string := VStr m]>
         (<["is_duplicate"%string := VBool b]>
            (ExecuteTransferUseCase.response (mkTransfer (Some i) f t c a fe k now)
               f t c a fe))) = Ok r /\
    r !! "transfer_id"%string = Some (VInt i) /\
    r !! "is_duplicate"%string = Some (VBool b).
Proof. eexists. split; [reflexivity|]. split; reflexivity. Qed.

(** Validation looks at the seven required fields and at the kinds of the
    two tags only: a source that validates under one pair of tags validates
    under any other. *)
Lemma str_field_tagged (d : dict) (m b : pyval) (k : string) :
  k <> "message"%string -> k <> "is_duplicate"%string ->
  Routes.str_field (<["message"%string := m]> (<["is_duplicate"%string := b]> d)) k =
  Routes.str_field d k.
Proof.
  intros H1 H2. unfold Routes.str_field.
  now rewrite !lookup_insert_ne by congruence.
Qed.

Lemma TransferResponse_retag (d r : dict) (m m' : string) (b b' : bool) :
  Routes.TransferResponse
    (<["message"%string := VStr m]> (<["is_duplicate"%string := VBool b]> d)) = Ok r ->
  exists r',
    Routes.TransferResponse
      (<["message"%string := VStr m']> (<["is_duplicate"%string := VBool b']> d)) = Ok r'.
Proof.
  unfold Routes.TransferResponse.
  rewrite !str_field_tagged by discriminate.
  rewrite !(lookup_insert_ne _ "message"%string "transfer_id"%string) by discriminate.
  rewrite !(lookup_insert_ne _ "is_duplicate"%string "transfer_id"%string) by discriminate.
  rewrite !(lookup_insert_ne _ "message"%string "is_duplicate"%string) by discriminate.
  rewrite !lookup_insert_eq. cbn [default].
  destruct (d !! "transfer_id"%string) as [[| i | | | |]|]; try discriminate.
  destruct (Routes.str_field d "from_merchant"); try discriminate.
  destruct (Routes.str_field d "to_merchant"); try discriminate.
  destruct (Routes.str_field d "currency"); try discriminate.
  destruct (Routes.str_field d "amount"); try discriminate.
  destruct (Routes.str_field d "fee"); try discriminate.
  destruct (Routes.str_field d "created_at"); try discriminate.
  intros _. eauto.
Qed.

Lemma strip_empty : PyStr.strip "" = ""%string.
Proof. reflexivity. Qed.


Lemma strip_truthy (key : string) :
  PyStr.truthy (PyStr.strip key) = true -> PyStr.truthy key = true.
Proof. destruct key; [rewrite strip_empty; discriminate|reflexivity]. Qed.

Section Route.

Context {E : Engine}.

Lemma execute_and_tag_ok p request k now s r s' :
  Routes.execute_and_tag p request k now s = (Ok r, s') ->
  exists fc r0,
    PercentageFeeCalculator_init p = Ok fc /\
    ExecuteTransferUseCase.execute fc
      (Routes.req_from_merchant request) (Routes.req_to_merchant request)
      (Routes.req_currency request) (Routes.req_amount request) k now s = (Ok r0, s') /\
    Routes.TransferResponse
      (<["message"%string := VStr "Transfer executed successfully"]>
       (<["is_duplicate"%string := VBool false]> r0)) = Ok r.
Proof.
  unfold Routes.execute_and_tag, try_except.
  destruct (bind _ _ s) as [[x|e] s1] eqn:Hrun; [|discriminate].
  intros [= <- <-].
  apply bind_ok in Hrun as (fc & s2 & Hfc & Hrun). apply lift_ok in Hfc as [Hfc ->].
  apply bind_ok in Hrun as (r0 & s2 & Hexec & Hrun). apply lift_ok in Hrun as [Hresp ->].
  eauto.
Qed.

Lemma handler_unfold p request key now s :
  PyStr.truthy (PyStr.strip key) = true ->
  Routes.execute_transfer_handler p request key now s =
  match idempotency_keys s !! PyStr.strip key with
  | Some rec =>
      if dict_truthy (response_data rec)
      then (Routes.TransferResponse
              (<["message"%string := VStr (Routes.duplicate_message (PyStr.strip key))]>
               (<["is_duplicate"%string := VBool true]> (response_data rec))), s)
      else Routes.execute_and_tag p request (PyStr.strip key) now s
  | None => Routes.execute_and_tag p request (PyStr.strip key) now s
  end.
Proof.
  intros Hk. unfold Routes.execute_transfer_handler.
  rewrite Hk, (strip_truthy _ Hk). cbn [negb orb].
  unfold bind at 1, IdempotencyRepository.get.
  destruct (idempotency_keys s !! PyStr.strip key) as [rec|]; cbn [fmap option_fmap option_map];
    [|reflexivity].
  destruct (dict_truthy (response_data rec)); reflexivity.
Qed.

Lemma handler_header p request key now s r s' :
  Routes.execute_transfer_handler p request key now s = (Ok r, s') ->
  PyStr.truthy (PyStr.strip key) = true.
Proof.
  unfold Routes.execute_transfer_handler.
  destruct (PyStr.truthy key); cbn [negb orb]; [|discriminate].
  destruct (PyStr.truthy (PyStr.strip key)); cbn [negb]; [reflexivity|discriminate].
Qed.

End Route.

Lemma get_db_ok {A : Type} (h : session A) s r s' :
  get_db h s = (Ok r, s') <-> h s = (Ok r, s').
Proof.
  unfold get_db. destruct (h s) as [[x|e] s1]; split; intros Heq; try discriminate; exact Heq.
Qed.


(** ** Reading a balance *)

Section Reading.

Context {E : Engine}.

(** On a well-formed store, [get_balance] for a named currency. *)
Lemma get_balance_named s n c :
  store_wf s -> c <> ""%string ->
  GetBalanceUseCase.execute n (Some c) s =
  match merchants s !! n with
  | None => (Raise (GetBalanceUseCase.not_found n), s)
  | Some _ =>
      (Ok (balance_answer n c
             (match balances s !! (n, c) with
              | None => "0"%string
              | Some a => Dec.str a
              end)), s)
  end.
Proof.
  intros Hwf Hc. unfold GetBalanceUseCase.execute.
  rewrite (bind_eq _ _ _ _ _ (get_by_name_wf s n Hwf)).
  destruct (merchants s !! n) as [t|]; cbn [fmap option_fmap option_map]; [|reflexivity].
  apply truthy_ne in Hc. rewrite Hc.
  rewrite (bind_eq _ _ _ _ _ (balance_get_wf s n c Hwf)).
  destruct (balances s !! (n, c)) as [a|]; reflexivity.
Qed.

Lemma get_balance_not_found s n co :
  store_wf s -> merchants s !! n = None ->
  GetBalanceUseCase.execute n co s = (Raise (GetBalanceUseCase.not_found n), s).
Proof.
  intros Hwf Hn. unfold GetBalanceUseCase.execute.
  rewrite (bind_eq _ _ _ _ _ (get_by_name_wf s n Hwf)), Hn. reflexivity.
Qed.

End Reading.

Lemma eqb_zero (d : Decimal) : Dec.eqb d Dec.zero = true <-> coeff d = 0.
Proof.
  unfold Dec.eqb. rewrite compare_zero.
  destruct (Z.compare_spec (coeff d) 0); split; (lia || discriminate || reflexivity).
Qed.

Lemma get_db_snd {A : Type} (h : session A) s r s' :
  h s = (Ok r, s') -> snd (get_db h s) = s'.
Proof. unfold get_db. now intros ->. Qed.


(** ** Amounts in units of 1e-8 *)

Lemma units_add (x y : Decimal) :
  -8 <= exp x -> -8 <= exp y ->
  Z.abs (units x) + Z.abs (units y) < 10 ^ 28 ->
  units (Dec.add x y) = units x + units y /\ -8 <= exp (Dec.add x y).
Proof.
  intros Hx Hy Hb. unfold Dec.add.
  set (e := Z.min (exp x) (exp y)).
  set (sum := coeff x * 10 ^ (exp x - e) + coeff y * 10 ^ (exp y - e)).
  assert (He : -8 <= e) by (unfold e; lia).
  assert (Hsum : sum * 10 ^ (e + 8) = units x + units y).
  { unfold sum, units. rewrite Z.mul_add_distr_r.
    rewrite <- !Z.mul_assoc, <- !Z.pow_add_r by (unfold e; lia).
    f_equal; do 2 f_equal; lia. }
  pose proof (pow10_pos (e + 8) ltac:(lia)) as Hp.
  assert (Habs : Z.abs sum < 10 ^ 28).
  { assert (Z.abs sum * 10 ^ (e + 8) = Z.abs (units x + units y)).
    { rewrite <- Hsum, Z.abs_mul. f_equal. lia. }
    nia. }
  rewrite fix_context_id.
  - cbn [coeff exp]. unfold units at 1. cbn [coeff exp]. auto.
  - cbn [coeff]. rewrite <- ndigits_abs. unfold Dec.prec.
    apply ndigits_le; lia.
Qed.

Lemma units_sub (x y : Decimal) :
  -8 <= exp x -> -8 <= exp y ->
  Z.abs (units x) + Z.abs (units y) < 10 ^ 28 ->
  units (Dec.sub x y) = units x - units y /\ -8 <= exp (Dec.sub x y).
Proof.
  intros Hx Hy Hb. unfold Dec.sub.
  assert (Hn : units (Dec.neg y) = - units y).
  { unfold units, Dec.neg. cbn [coeff exp]. lia. }
  destruct (units_add x (Dec.neg y)) as [Hu He]; [exact Hx|exact Hy| |].
  - rewrite Hn, Z.abs_opp. exact Hb.
  - rewrite Hu, Hn. split; [lia|exact He].
Qed.

(** The sign of an amount is the sign of its units. *)
Lemma units_nonneg (x : Decimal) :
  -8 <= exp x -> (0 <= units x <-> 0 <= coeff x).
Proof.
  intros Hx. unfold units.
  pose proof (pow10_pos (exp x + 8) ltac:(lia)) as Hp. split; nia.
Qed.

Lemma units_pos (x : Decimal) :
  -8 <= exp x -> (0 < units x <-> 0 < coeff x).
Proof.
  intros Hx. unfold units.
  pose proof (pow10_pos (exp x + 8) ltac:(lia)) as Hp. split; nia.
Qed.

Section Columns.

Context {E : Engine} {L : EngineLaws E}.

(** A Numeric(20, 8) column holds a small amount as it is. *)
Lemma numeric_small (x : Decimal) :
  small x -> numeric x = Ok (mkDecimal (units x) (-8)).
Proof.
  intros [He Hu]. apply numeric_exact; [exact He|].
  assert (10 ^ 14 < 10 ^ 15) by reflexivity. lia.
Qed.


Lemma numeric_sub_small (x y : Decimal) :
  small x -> small y ->
  numeric (Dec.sub x y) = Ok (mkDecimal (units x - units y) (-8)).
Proof.
  intros [Hx Hxu] [Hy Hyu].
  assert (H14 : 10 ^ 15 = 10 * 10 ^ 14) by reflexivity.
  assert (H28 : 10 ^ 28 = 100000000000000 * 10 ^ 14) by reflexivity.
  destruct (units_sub x y) as [Hu He]; [lia|lia|lia|].
  rewrite <- Hu. apply numeric_exact; [exact He|]. rewrite Hu. lia.
Qed.

End Columns.

(** ** The reference engine is an engine *)

Lemma reference_insert_perm (r : Transfer) (l : list Transfer) :
  Reference.insert_desc r l ≡ₚ r :: l.
Proof.
  induction l as [|x l IH]; cbn; [reflexivity|].
  destruct (created_at x <? created_at r); [reflexivity|].
  rewrite IH. apply Permutation_swap.
Qed.

Lemma reference_insert_sorted (r : Transfer) (l : list Transfer) :
  sorted_desc l -> sorted_desc (Reference.insert_desc r l).
Proof.
  unfold sorted_desc. induction 1 as [|x l Hs IH Hx]; cbn.
  - constructor; constructor.
  - destruct (Z.ltb_spec (created_at x) (created_at r)) as [Hlt|Hge].
    + constructor; [now constructor|].
      constructor; [lia|].
      eapply Forall_impl; [exact Hx|]. cbn. intros y Hy. lia.
    + constructor; [exact IH|].
      rewrite (reference_insert_perm r l). constructor; [lia|exact Hx].
Qed.

Lemma reference_max_id (rows : list Transfer) :
  Forall (fun r => default 0 (id r) <= Reference.max_id rows) rows.
Proof.
  induction rows as [|r rows IH]; [constructor|].
  change (Reference.max_id (r :: rows))
    with (Z.max (default 0 (id r)) (Reference.max_id rows)).
  constructor; [lia|].
  eapply Forall_impl; [exact IH|]. cbn beta. intros x Hx. lia.
Qed.

Lemma reference_numeric_coeff (x v : Decimal) :
  Reference.numeric x = Ok v ->
  exp v = -8 /\ (0 <= coeff x -> 0 <= coeff v) /\
  (-8 <= exp x -> v = mkDecimal (units x) (-8)).
Proof.
  unfold Reference.numeric.
  destruct (Z.leb_spec (-8) (exp x)) as [He|He]; cbn [coeff];
    (destruct (10 ^ 20 <=? _); [discriminate|]); intros [= <-]; cbn [exp coeff].
  - split; [reflexivity|]. split; [|reflexivity].
    intros Hx. unfold units. apply Z.mul_nonneg_nonneg; [lia|].
    apply Z.pow_nonneg. lia.
  - split; [reflexivity|]. split; [|lia].
    intros Hx. apply Z.mul_nonneg_nonneg; [now apply Z.sgn_nonneg|].
    unfold Reference.round_half_up.
    pose proof (pow10_pos (-8 - exp x) ltac:(lia)) as Hp.
    assert (0 <= Z.abs (coeff x) / 10 ^ (-8 - exp x)) by (apply Z.div_pos; lia).
    destruct (_ <=? _); lia.
Qed.

#[global] Instance reference_laws : EngineLaws reference_engine.
Proof.
  constructor.
  - intros x v Hv. now apply reference_numeric_coeff in Hv.
  - intros x v Hv. now apply reference_numeric_coeff in Hv.
  - intros x He Hb. cbn. unfold Reference.numeric.
    destruct (Z.leb_spec (-8) (exp x)); [|lia]. cbn [coeff].
    destruct (Z.leb_spec (10 ^ 20) (Z.abs (units x))) as [Hbig|]; [|reflexivity].
    assert (10 ^ 15 < 10 ^ 20) by reflexivity. lia.
  - intros x e. cbn. unfold Reference.numeric.
    destruct (10 ^ 20 <=? _); [now intros [= <-]|discriminate].
  - intros rows. cbn. unfold Reference.next_id.
    eapply Forall_impl; [apply reference_max_id|]. cbn.
    intros r Hr Hid. rewrite Hid in Hr. cbn in Hr. lia.
  - intros b. reflexivity.
  - intros rows. cbn. unfold Reference.order_by_desc.
    induction rows as [|x l IH]; cbn; [reflexivity|].
    now rewrite reference_insert_perm, IH.
  - intros rows. cbn. unfold Reference.order_by_desc.
    induction rows as [|x l IH]; cbn; [constructor|].
    now apply reference_insert_sorted.
Qed.

End StoreFacts.

(* ===================================================================== *)
(** * The properties of the specification *)
(* ===================================================================== *)

Import DecFacts QFacts StoreFacts.

(** ** The sample store *)

Section Samples.

Context {E : Engine} {L : EngineLaws E}.

Lemma alice_bob_wf (b : Decimal) : store_wf (Demo.alice_bob b).
Proof.
  unfold Demo.alice_bob. apply create_merchant_wf, create_merchant_wf, empty_store_wf.
Qed.

Lemma units_stored (u : Z) : units (mkDecimal u (-8)) = u.
Proof. unfold units. cbn. lia. Qed.

Lemma small_stored (x : Decimal) : small x -> small (mkDecimal (units x) (-8)).
Proof. intros [_ Hu]. split; [cbn; lia|now rewrite units_stored]. Qed.

(** The sample store, written out: the row of alice holds her balance on
    eight places. *)
Lemma alice_bob_eq (b : Decimal) :
  0 < coeff b -> small b ->
  Demo.alice_bob b =
  mkStore (<["alice"%string := 1]> (<["bob"%string := 2]> ∅))
          (<[("alice", "BTC")%string := mkDecimal (units b) (-8)]> ∅) [] ∅.
Proof.
  intros Hb Hs.
  pose proof (create_merchant_wf "bob" "BTC" (mkDecimal 0 0) 2 empty_store empty_store_wf)
    as Hwf.
  assert (Hbob : snd (get_db (CreateMerchantUseCase.execute "bob" "BTC" (mkDecimal 0 0) 2)
                        empty_store) = mkStore (<["bob"%string := 2]> ∅) ∅ [] ∅).
  { unfold get_db.
    rewrite (create_merchant_run "bob" "BTC" (mkDecimal 0 0) 2 empty_store (mkDecimal 0 0));
      [reflexivity|apply empty_store_wf|discriminate|reflexivity|cbn; lia|cbn; lia]. }
  unfold Demo.alice_bob. rewrite Hbob in *. unfold get_db.
  rewrite (create_merchant_run "alice" "BTC" b 1 _ (mkDecimal (units b) (-8)));
    [|exact Hwf|discriminate|reflexivity|lia|].
  - cbn [snd merchants balances transfers idempotency_keys].
    destruct (Z.ltb_spec 0 (coeff b)); [reflexivity|lia].
  - intros _. split; [discriminate|]. split; [now apply numeric_small|].
    cbn [coeff]. apply units_nonneg; [apply Hs|lia].
Qed.

(** A transfer of 0.00005 BTC from alice to bob on the sample store, at the
    default fee of 0.1 percent: 0.00005005 BTC leave her row. *)
Lemma alice_pays_bob (b : Decimal) (k : string) (now : datetime) :
  0 < coeff b -> small b -> 5005 <= units b -> k <> ""%string ->
  ExecuteTransferUseCase.execute Demo.fee01 "alice" "bob" "BTC" Demo.d0_00005 k now
    (Demo.alice_bob b) =
  (Ok (ExecuteTransferUseCase.response
         (mkTransfer (Some (next_id [])) "alice" "bob" "BTC" Demo.n0_00005
            (mkDecimal 5 (-8)) k now)
         "alice" "bob" "BTC" Demo.d0_00005 (mkDecimal 5 (-8))),
   transferred (Demo.alice_bob b) "alice" "bob" "BTC" Demo.d0_00005 (mkDecimal 5 (-8))
     k now (next_id []) (mkDecimal (units b - 5005) (-8))
     Demo.n0_00005 Demo.n0_00005 (mkDecimal 5 (-8))).
Proof.
  intros Hb Hs Hfunds Hk.
  pose proof (alice_bob_wf b) as Hwf.
  pose proof (alice_bob_eq b Hb Hs) as Heq.
  pose proof (small_stored b Hs) as Hcur.
  assert (Htotal : Dec.add Demo.d0_00005 (mkDecimal 5 (-8)) = mkDecimal 5005 (-8))
    by (vm_compute; reflexivity).
  assert (Hst : small (mkDecimal 5005 (-8))) by (split; vm_compute; [discriminate|reflexivity]).
  assert (Hrows : transfers (Demo.alice_bob b) = []) by now rewrite Heq.
  rewrite execute_fresh by (rewrite Heq; reflexivity).
  rewrite (perform_run Demo.fee01 "alice" "bob" "BTC" Demo.d0_00005 k now (Demo.alice_bob b)
             (mkDecimal 5 (-8)) (mkDecimal (units b) (-8))
             (mkDecimal (units b - 5005) (-8)) Demo.n0_00005 Demo.n0_00005
             (mkDecimal 5 (-8)) Hwf).
  - now rewrite Hrows.
  - split.
    + rewrite Heq. cbn [merchants]. rewrite lookup_insert_eq. eauto.
    + rewrite Heq. cbn [merchants]. rewrite lookup_insert_ne by discriminate.
      rewrite lookup_insert_eq. eauto.
    + discriminate.
    + cbn. lia.
    + vm_compute. reflexivity.
    + cbn. lia.
    + rewrite Heq. cbn [balances]. apply lookup_insert_eq.
    + rewrite Htotal, ltb_zero.
      destruct (units_sub (mkDecimal (units b) (-8)) (mkDecimal 5005 (-8)))
        as [Hu He]; [cbn; lia|cbn; lia| |].
      { rewrite !units_stored. destruct Hs as [_ Hs].
        assert (10 ^ 28 = 100000000000000 * 10 ^ 14) by reflexivity.
        change (Z.abs 5005) with 5005. lia. }
      rewrite !units_stored in Hu.
      destruct (Z.ltb_spec (coeff (Dec.sub (mkDecimal (units b) (-8)) (mkDecimal 5005 (-8)))) 0)
        as [Hneg|]; [|reflexivity].
      exfalso. apply (Z.lt_irrefl 0).
      assert (0 <= coeff (Dec.sub (mkDecimal (units b) (-8)) (mkDecimal 5005 (-8))))
        by (apply units_nonneg; [exact He|lia]).
      lia.
    + rewrite Htotal, (numeric_sub_small _ _ Hcur Hst), !units_stored. reflexivity.
    + cbn [coeff]. lia.
    + unfold credited. rewrite lookup_insert_ne by discriminate.
      rewrite Heq. cbn [balances]. rewrite lookup_insert_ne by discriminate.
      rewrite lookup_empty. apply numeric_exact; vm_compute; [discriminate|reflexivity].
    + cbn. lia.
    + apply numeric_exact; vm_compute; [discriminate|reflexivity].
    + cbn. lia.
    + apply numeric_exact; vm_compute; [discriminate|reflexivity].
    + cbn. lia.
    + discriminate.
    + exact Hk.
    + now rewrite Hrows.
    + rewrite Heq. reflexivity.
Qed.

End Samples.

(** On the reference engine the first row gets the id 1. *)
Lemma alice_pays_bob_reference (b : Decimal) (k : string) (now : datetime) :
  0 < coeff b -> small b -> 5005 <= units b -> k <> ""%string ->
  ExecuteTransferUseCase.execute Demo.fee01 "alice" "bob" "BTC" Demo.d0_00005 k now
    (Demo.alice_bob b) =
  (Ok (ExecuteTransferUseCase.response
         (mkTransfer (Some 1) "alice" "bob" "BTC" Demo.n0_00005 (mkDecimal 5 (-8)) k now)
         "alice" "bob" "BTC" Demo.d0_00005 (mkDecimal 5 (-8))),
   transferred (Demo.alice_bob b) "alice" "bob" "BTC" Demo.d0_00005 (mkDecimal 5 (-8))
     k now 1 (mkDecimal (units b - 5005) (-8))
     Demo.n0_00005 Demo.n0_00005 (mkDecimal 5 (-8))).
Proof. exact (alice_pays_bob b k now). Qed.

Lemma small_d1_0 : small Demo.d1_0.
Proof. split; vm_compute; [discriminate|reflexivity]. Qed.

(** ** Listing transfers *)

Section Listing.

Context {E : Engine}.

(** C10. A filter of [list_transfers] given as the empty string is treated
    like a filter that is absent: its where-clause is skipped, so the call
    returns what the call without that filter returns.  This holds for each
    of [from_merchant], [to_merchant] and [currency], in the repository and
    in the use case. *)
Theorem list_transfers_empty_filter_is_absent
    (f t c : option string) (limit offset : nat) (s : Store) :
  (ListTransfersUseCase.execute (Some ""%string) t c limit offset s =
   ListTransfersUseCase.execute None t c limit offset s) /\
  (ListTransfersUseCase.execute f (Some ""%string) c limit offset s =
   ListTransfersUseCase.execute f None c limit offset s) /\
  (ListTransfersUseCase.execute f t (Some ""%string) limit offset s =
   ListTransfersUseCase.execute f t None limit offset s) /\
  (TransferRepository.list (Some ""%string) (Some ""%string) (Some ""%string) limit offset s =
   (TransferRepository.build_transfers
      (take limit (drop offset
         (TransferRepository.order_by_created_at_desc (transfers s)))), s)).
Proof. repeat split; reflexivity. Qed.

End Listing.

(** ** The balance mutator *)

Section Mutator.

Context {E : Engine} {L : EngineLaws E}.



End Mutator.




(** ** The transfer executor *)

Section Executor.

Context {E : Engine}.


(** C1. A first call of [execute_transfer] that finds the key unused and
    succeeds has stored its response under the key.  Every later call with
    that key, whatever its payload, its clock and its fee calculator (so
    even a payload no validation would accept), returns exactly that stored
    response and leaves every table as it was, and the key has exactly one
    transfer record. *)
Theorem replay_returns_stored_response
    {T1 : Type} {FC1 : FeeCalculator T1} (fc1 : T1)
    {T2 : Type} {FC2 : FeeCalculator T2} (fc2 : T2)
    (s s1 : Store) (f1 t1 c1 : string) (a1 : Decimal) (k : string)
    (now1 : datetime) (r1 : dict) :
  idempotency_keys s !! k = None ->
  ExecuteTransferUseCase.execute fc1 f1 t1 c1 a1 k now1 s = (Ok r1, s1) ->
  response_data <$> idempotency_keys s1 !! k = Some r1 /\
  (forall f2 t2 c2 a2 now2,
     ExecuteTransferUseCase.execute fc2 f2 t2 c2 a2 k now2 s1 = (Ok r1, s1)) /\
  length (transfers_of_key k s1) = 1%nat.
Proof.
  intros Hfresh Hrun. rewrite execute_fresh in Hrun by exact Hfresh.
  apply perform_ok in Hrun as (fe & cur & db & cr & am & fs & Hp & -> & ->).
  set (row := mkTransfer _ f1 t1 c1 am fs k now1).
  assert (Hrec : idempotency_keys
                   (transferred s f1 t1 c1 a1 fe k now1 (next_id (transfers s)) db cr am fs)
                   !! k =
                 Some (mkIdempotencyKeyModel (next_id (transfers s))
                         (ExecuteTransferUseCase.response row f1 t1 c1 a1 fe))).
  { cbn [transferred idempotency_keys]. apply lookup_insert_eq. }
  split; [now rewrite Hrec|]. split.
  - intros f2 t2 c2 a2 now2.
    rewrite (execute_replay fc2 f2 t2 c2 a2 k now2 _ _ Hrec); [reflexivity|].
    apply response_truthy.
  - unfold transfers_of_key. cbn [transferred transfers].
    rewrite filter_app, (has_key_false _ _ (pf_key_new _ _ _ _ _ _ _ _ _ _ _ _ _ Hp)).
    rewrite filter_cons_True by reflexivity. reflexivity.
Qed.


End Executor.

Lemma replay_returns_stored_response_witness :
  let s0 := Demo.alice_bob Demo.d1_0 in
  let fe := mkDecimal 5 (-8) in
  let r1 := ExecuteTransferUseCase.response
              (mkTransfer (Some 1) "alice" "bob" "BTC" Demo.n0_00005 fe "key-1" 3)
              "alice" "bob" "BTC" Demo.d0_00005 fe in
  let s1 := transferred s0 "alice" "bob" "BTC" Demo.d0_00005 fe "key-1" 3 1
              (mkDecimal 99994995 (-8)) Demo.n0_00005 Demo.n0_00005 fe in
  response_data <$> idempotency_keys s1 !! "key-1"%string = Some r1 /\
  (forall f2 t2 c2 a2 now2,
     ExecuteTransferUseCase.execute Demo.fee01 f2 t2 c2 a2 "key-1" now2 s1 = (Ok r1, s1)) /\
  length (transfers_of_key "key-1" s1) = 1%nat.
Proof.
  intros s0 fe r1 s1.
  apply (replay_returns_stored_response Demo.fee01 Demo.fee01 s0 s1
           "alice" "bob" "BTC" Demo.d0_00005 "key-1" 3 r1).
  - unfold s0. rewrite alice_bob_eq by (cbn; lia || exact small_d1_0). reflexivity.
  - apply (alice_pays_bob_reference Demo.d1_0);
      [cbn; lia|exact small_d1_0|vm_compute; discriminate|discriminate].
Defined.



Section Scenario.

Context {E : Engine} {L : EngineLaws E}.

(** C3. The run of the specification: alice is created with 1.0 BTC and
    bob with 0 (which creates no row for bob), the fee percent is 0.1, and
    0.00005 BTC go from alice to bob.  The transfer succeeds, the fee is
    0.00000005 (printed 5E-8), alice is left with 0.99994995 BTC and bob
    holds 0.00005 BTC (his row, on eight places, prints 0.00005000). *)
Theorem scenario_alice_pays_bob (now : datetime) :
  let s0 := Demo.alice_bob Demo.d1_0 in
  let fe := mkDecimal 5 (-8) in
  let i := next_id [] in
  let r := ExecuteTransferUseCase.response
             (mkTransfer (Some i) "alice" "bob" "BTC" Demo.n0_00005 fe "key-1" now)
             "alice" "bob" "BTC" Demo.d0_00005 fe in
  let s1 := transferred s0 "alice" "bob" "BTC" Demo.d0_00005 fe "key-1" now i
              (mkDecimal 99994995 (-8)) Demo.n0_00005 Demo.n0_00005 fe in
  PercentageFeeCalculator_init Demo.percent = Ok Demo.fee01 /\
  balances s0 !! ("alice", "BTC")%string = Some Demo.n1_0 /\
  (Dec.value Demo.n1_0 == 1)%Q /\
  balances s0 !! ("bob", "BTC")%string = None /\
  ExecuteTransferUseCase.execute Demo.fee01 "alice" "bob" "BTC" Demo.d0_00005 "key-1" now s0 =
    (Ok r, s1) /\
  calculate_fee Demo.fee01 Demo.d0_00005 = Ok fe /\
  (Dec.value fe == 5 / 100000000)%Q /\
  r !! "fee"%string = Some (VStr "5E-8") /\
  fee <$> transfers s1 = [fe] /\
  balances s1 !! ("alice", "BTC")%string = Some (mkDecimal 99994995 (-8)) /\
  Dec.str (mkDecimal 99994995 (-8)) = "0.99994995"%string /\
  balances s1 !! ("bob", "BTC")%string = Some Demo.n0_00005 /\
  Dec.str Demo.n0_00005 = "0.00005000"%string /\
  (Dec.value Demo.n0_00005 == 5 / 100000)%Q.
Proof.
  intros s0 fe i r s1.
  assert (Hs0 : s0 = mkStore (<["alice"%string := 1]> (<["bob"%string := 2]> ∅))
                       (<[("alice", "BTC")%string := Demo.n1_0]> ∅) [] ∅)
    by (apply (alice_bob_eq Demo.d1_0); [cbn; lia|exact small_d1_0]).
  split; [reflexivity|].
  split; [rewrite Hs0; apply lookup_insert_eq|].
  split; [reflexivity|].
  split; [rewrite Hs0; reflexivity|].
  split.
  { apply (alice_pays_bob Demo.d1_0);
      [cbn; lia|exact small_d1_0|vm_compute; discriminate|discriminate]. }
  split; [vm_compute; reflexivity|].
  split; [reflexivity|].
  split; [reflexivity|].
  split; [unfold s1; rewrite Hs0; reflexivity|].
  split.
  { unfold s1. cbn [transferred balances].
    rewrite lookup_insert_ne by discriminate. apply lookup_insert_eq. }
  split; [vm_compute; reflexivity|].
  split; [unfold s1; cbn [transferred balances]; apply lookup_insert_eq|].
  split; [vm_compute; reflexivity|reflexivity].
Qed.

End Scenario.

Lemma scenario_alice_pays_bob_witness :
  let s0 := Demo.alice_bob Demo.d1_0 in
  let fe := mkDecimal 5 (-8) in
  let r := ExecuteTransferUseCase.response
             (mkTransfer (Some 1) "alice" "bob" "BTC" Demo.n0_00005 fe "key-1" 3)
             "alice" "bob" "BTC" Demo.d0_00005 fe in
  let s1 := transferred s0 "alice" "bob" "BTC" Demo.d0_00005 fe "key-1" 3 1
              (mkDecimal 99994995 (-8)) Demo.n0_00005 Demo.n0_00005 fe in
  PercentageFeeCalculator_init Demo.percent = Ok Demo.fee01 /\
  balances s0 !! ("alice", "BTC")%string = Some Demo.n1_0 /\
  (Dec.value Demo.n1_0 == 1)%Q /\
  balances s0 !! ("bob", "BTC")%string = None /\
  ExecuteTransferUseCase.execute Demo.fee01 "alice" "bob" "BTC" Demo.d0_00005 "key-1" 3 s0 =
    (Ok r, s1) /\
  calculate_fee Demo.fee01 Demo.d0_00005 = Ok fe /\
  (Dec.value fe == 5 / 100000000)%Q /\
  r !! "fee"%string = Some (VStr "5E-8") /\
  fee <$> transfers s1 = [fe] /\
  balances s1 !! ("alice", "BTC")%string = Some (mkDecimal 99994995 (-8)) /\
  Dec.str (mkDecimal 99994995 (-8)) = "0.99994995"%string /\
  balances s1 !! ("bob", "BTC")%string = Some Demo.n0_00005 /\
  Dec.str Demo.n0_00005 = "0.00005000"%string /\
  (Dec.value Demo.n0_00005 == 5 / 100000)%Q.
Proof. exact (scenario_alice_pays_bob (L := reference_laws) 3). Defined.

(** ** The fee policy *)

(** C4, as the code has it.  For a calculator built from a percentage
    [p >= 0]: an amount [<= 0] raises [ValueError "Amount must be positive"]
    (the specification's InvalidAmount); an amount [> 0] whose product with
    the percentage has at most 28 significant digits and whose rounded fee
    has at most 28 digits in units of 1e-8 yields exactly
    [amount * percent / 100] rounded half-even to 8 fractional digits.  The
    result depends on the amount and the percentage alone. *)
Theorem calculate_fee_rounds_half_even
    (p : Decimal) (self : PercentageFeeCalculator) (a : Decimal) :
  PercentageFeeCalculator_init p = Ok self ->
  (coeff a <= 0 ->
   calculate_fee self a = Raise (ValueError "Amount must be positive")) /\
  (0 < coeff a ->
   Dec.ndigits (coeff a * coeff p) <= Dec.prec ->
   Spec.fee_units a p < 10 ^ Dec.prec ->
   calculate_fee self a = Ok (Spec.fee a p)) /\
  (forall other : PercentageFeeCalculator,
     fee_percent other = p -> calculate_fee other a = calculate_fee self a).
Proof.
  unfold PercentageFeeCalculator_init. rewrite ltb_zero.
  destruct (Z.ltb_spec (coeff p) 0) as [|Hp]; [discriminate|]. intros [= <-].
  unfold calculate_fee, PercentageFeeCalculator_FeeCalculator. repeat split.
  - intros Ha. unfold percentage_calculate_fee. rewrite leb_zero.
    destruct (Z.leb_spec (coeff a) 0); [reflexivity|lia].
  - intros Ha Hn HR. now apply percentage_calculate_fee_exact.
  - intros [q] Hq. cbn in Hq. now subst q.
Qed.

Lemma calculate_fee_rounds_half_even_witness :
  (* 0.00005 at 0.1 percent *)
  calculate_fee Demo.fee01 Demo.d0_00005 = Ok (mkDecimal 5 (-8)) /\
  (* two ties: 0.000125 gives 1.25e-7, rounded to the even 12e-8;
     0.000135 gives 1.35e-7, rounded to the even 14e-8 *)
  calculate_fee Demo.fee01 (mkDecimal 125 (-6)) = Ok (mkDecimal 12 (-8)) /\
  calculate_fee Demo.fee01 (mkDecimal 135 (-6)) = Ok (mkDecimal 14 (-8)) /\
  calculate_fee Demo.fee01 (mkDecimal 0 0) = Raise (ValueError "Amount must be positive") /\
  calculate_fee Demo.fee01 (mkDecimal (-10) (-1)) = Raise (ValueError "Amount must be positive").
Proof.
  pose proof (fun a => calculate_fee_rounds_half_even Demo.percent Demo.fee01 a eq_refl) as H.
  split; [|split; [|split; [|split]]].
  - change (mkDecimal 5 (-8)) with (Spec.fee Demo.d0_00005 Demo.percent).
    apply (proj1 (proj2 (H Demo.d0_00005))); now vm_compute.
  - change (mkDecimal 12 (-8)) with (Spec.fee (mkDecimal 125 (-6)) Demo.percent).
    apply (proj1 (proj2 (H (mkDecimal 125 (-6))))); now vm_compute.
  - change (mkDecimal 14 (-8)) with (Spec.fee (mkDecimal 135 (-6)) Demo.percent).
    apply (proj1 (proj2 (H (mkDecimal 135 (-6))))); now vm_compute.
  - apply (proj1 (H (mkDecimal 0 0))). now vm_compute.
  - apply (proj1 (H (mkDecimal (-10) (-1)))). now vm_compute.
Defined.

(** C4 as stated fails for large amounts: the amount 1E+23 is positive, its
    fee at 0.1 percent is exactly 1E+20, which needs 29 digits on eight
    places, and [calculate_fee] raises [decimal.InvalidOperation] instead
    of returning it. *)
Lemma calculate_fee_large_amount :
  0 < coeff (mkDecimal 1 23) /\
  Spec.fee (mkDecimal 1 23) Demo.percent = mkDecimal (10 ^ 28) (-8) /\
  calculate_fee Demo.fee01 (mkDecimal 1 23) = Raise InvalidOperation.
Proof. repeat split; vm_compute; reflexivity. Qed.

(** ** The result of a transfer *)

Section Result.

Context {E : Engine}.

(** What a returned route call tells: either a stored record was replayed,
    or the transfer was performed. *)
Lemma route_ok p request key now s r s' :
  Routes.execute_transfer p request key now s = (Ok r, s') ->
  PyStr.truthy (PyStr.strip key) = true /\
  ((exists rec,
      idempotency_keys s !! PyStr.strip key = Some rec /\
      dict_truthy (response_data rec) = true /\ s' = s /\
      Routes.TransferResponse
        (<["message"%string := VStr (Routes.duplicate_message (PyStr.strip key))]>
         (<["is_duplicate"%string := VBool true]> (response_data rec))) = Ok r) \/
   (exists (fc : PercentageFeeCalculator) f t c a fe cur db cr am fs,
      performed fc s f t c a (PyStr.strip key) fe cur db cr am fs /\
      s' = transferred s f t c a fe (PyStr.strip key) now (next_id (transfers s))
             db cr am fs /\
      Routes.TransferResponse
        (<["message"%string := VStr "Transfer executed successfully"]>
         (<["is_duplicate"%string := VBool false]>
            (ExecuteTransferUseCase.response
               (mkTransfer (Some (next_id (transfers s))) f t c am fs
                  (PyStr.strip key) now) f t c a fe))) = Ok r)).
Proof.
  unfold Routes.execute_transfer. rewrite get_db_ok. intros Hrun.
  pose proof (handler_header _ _ _ _ _ _ _ Hrun) as Hk. split; [exact Hk|].
  rewrite (handler_unfold _ _ _ _ _ Hk) in Hrun.
  assert (Hfresh : forall (Hnone : forall rec, idempotency_keys s !! PyStr.strip key = Some rec ->
                                     dict_truthy (response_data rec) = false),
            Routes.execute_and_tag p request (PyStr.strip key) now s = (Ok r, s') ->
            exists (fc : PercentageFeeCalculator) f t c a fe cur db cr am fs,
              performed fc s f t c a (PyStr.strip key) fe cur db cr am fs /\
              s' = transferred s f t c a fe (PyStr.strip key) now (next_id (transfers s))
                     db cr am fs /\
              Routes.TransferResponse
                (<["message"%string := VStr "Transfer executed successfully"]>
                 (<["is_duplicate"%string := VBool false]>
                    (ExecuteTransferUseCase.response
                       (mkTransfer (Some (next_id (transfers s))) f t c am fs
                          (PyStr.strip key) now) f t c a fe))) = Ok r).
  { intros Hnone Hbody.
    apply execute_and_tag_ok in Hbody as (fc & r0 & _ & Hexec & Hresp).
    apply execute_ok in Hexec as [(_ & rec & Hrec & -> & Htr)|Hperf].
    - rewrite (Hnone _ Hrec) in Htr. discriminate.
    - apply perform_ok in Hperf as (fe & cur & db & cr & am & fs & Hp & -> & ->).
      exists fc. eauto 15. }
  destruct (idempotency_keys s !! PyStr.strip key) as [rec|] eqn:Hrec.
  - destruct (dict_truthy (response_data rec)) eqn:Htr.
    + left. exists rec. injection Hrun as Hresp <-. auto.
    + right. apply Hfresh; [|exact Hrun]. now intros rec' [= <-].
  - right. apply Hfresh; [|exact Hrun]. discriminate.
Qed.

(** C6, as the code has it.  A successful call of the transfer route
    returns a result with exactly nine fields: [transfer_id],
    [from_merchant], [to_merchant], [currency], [amount], [fee],
    [created_at], [is_duplicate] and also [message].  (The use case's own
    result, for a key it has not seen, has the first seven and no
    [is_duplicate].)  Once a call has returned, every call that reuses its
    idempotency key returns the identical [transfer_id] with
    [is_duplicate = true] and changes nothing. *)
Theorem transfer_result_fields
    (p : Decimal) (request : Routes.TransferRequest) (key : string)
    (now : datetime) (s s' : Store) (r : dict) :
  Routes.execute_transfer p request key now s = (Ok r, s') ->
  dom r = route_fields /\
  (exists i, r !! "transfer_id"%string = Some (VInt i)) /\
  (forall p2 request2 key2 now2,
     PyStr.strip key2 = PyStr.strip key ->
     exists r2,
       Routes.execute_transfer p2 request2 key2 now2 s' = (Ok r2, s') /\
       r2 !! "transfer_id"%string = r !! "transfer_id"%string /\
       r2 !! "is_duplicate"%string = Some (VBool true)) /\
  (forall (T : Type) (FC : FeeCalculator T) (fc : T) f t c a k now0 s0 r0 s1,
     idempotency_keys s0 !! k = None ->
     ExecuteTransferUseCase.execute fc f t c a k now0 s0 = (Ok r0, s1) ->
     dom r0 = use_case_fields /\ r0 !! "is_duplicate"%string = None).
Proof.
  intros Hrun. apply route_ok in Hrun as [Hk Hcases].
  assert (Hreplay : forall rec r1 m b p2 request2 key2 now2,
            idempotency_keys s' !! PyStr.strip key = Some rec ->
            dict_truthy (response_data rec) = true ->
            Routes.TransferResponse
              (<["message"%string := VStr m]>
               (<["is_duplicate"%string := VBool b]> (response_data rec))) = Ok r1 ->
            PyStr.strip key2 = PyStr.strip key ->
            exists r2,
              Routes.execute_transfer p2 request2 key2 now2 s' = (Ok r2, s') /\
              r2 !! "transfer_id"%string = r1 !! "transfer_id"%string /\
              r2 !! "is_duplicate"%string = Some (VBool true)).
  { intros rec r1 m b p2 request2 key2 now2 Hrec Htr Hr1 Hkey.
    unfold Routes.execute_transfer.
    assert (Hk2 : PyStr.truthy (PyStr.strip key2) = true) by now rewrite Hkey.
    destruct (Routes.TransferResponse
                (<["message"%string := VStr (Routes.duplicate_message (PyStr.strip key2))]>
                 (<["is_duplicate"%string := VBool true]> (response_data rec))))
      as [r2|e] eqn:Hr2.
    - exists r2. split.
      + apply get_db_ok. rewrite (handler_unfold _ _ _ _ _ Hk2), Hkey, Hrec, Htr.
        now rewrite <- Hkey, Hr2.
      + apply TransferResponse_ok in Hr1 as (_ & Hid1 & _).
        apply TransferResponse_ok in Hr2 as (_ & Hid2 & _ & (b2 & Hb2 & Hdef) & _).
        split.
        * rewrite Hid1, Hid2. now rewrite !lookup_insert_ne by discriminate.
        * rewrite Hb2. rewrite lookup_insert_ne in Hdef by discriminate.
          rewrite lookup_insert_eq in Hdef. cbn in Hdef. now rewrite <- Hdef.
    - exfalso. destruct (TransferResponse_retag _ _ _
                           (Routes.duplicate_message (PyStr.strip key2)) _ true Hr1)
        as [r' Hr']. congruence. }
  assert (Huc : forall (T : Type) (FC : FeeCalculator T) (fc : T) f t c a k now0 s0 r0 s1,
            idempotency_keys s0 !! k = None ->
            ExecuteTransferUseCase.execute fc f t c a k now0 s0 = (Ok r0, s1) ->
            dom r0 = use_case_fields /\ r0 !! "is_duplicate"%string = None).
  { intros T FC fc f t c a k now0 s0 r0 s1 Hnone Hexec.
    rewrite execute_fresh in Hexec by exact Hnone.
    apply perform_ok in Hexec as (fe & cur & db & cr & am & fs & _ & -> & _).
    split; [apply response_fields|reflexivity]. }
  destruct Hcases as [(rec & Hrec & Htr & -> & Hresp)
                     |(fc & f & t & c & a & fe & cur & db & cr & am & fs & _ & -> & Hresp)].
  - pose proof (TransferResponse_ok _ _ Hresp) as (Hdom & _ & Hid & _).
    split; [exact Hdom|]. split; [exact Hid|]. split; [|exact Huc].
    intros p2 request2 key2 now2 Hkey. eapply Hreplay; eauto.
  - pose proof (TransferResponse_ok _ _ Hresp) as (Hdom & _ & Hid & _).
    split; [exact Hdom|]. split; [exact Hid|]. split; [|exact Huc].
    intros p2 request2 key2 now2 Hkey.
    eapply (Hreplay (mkIdempotencyKeyModel _ _)); [| |exact Hresp|exact Hkey].
    + cbn [transferred idempotency_keys]. apply lookup_insert_eq.
    + apply response_truthy.
Qed.

(** A first call of the route. *)
Lemma route_fresh_run p (fc : PercentageFeeCalculator) request key now s r0 s1 r :
  PyStr.truthy (PyStr.strip key) = true ->
  idempotency_keys s !! PyStr.strip key = None ->
  PercentageFeeCalculator_init p = Ok fc ->
  ExecuteTransferUseCase.execute fc
    (Routes.req_from_merchant request) (Routes.req_to_merchant request)
    (Routes.req_currency request) (Routes.req_amount request) (PyStr.strip key) now s =
    (Ok r0, s1) ->
  Routes.TransferResponse
    (<["message"%string := VStr "Transfer executed successfully"]>
     (<["is_duplicate"%string := VBool false]> r0)) = Ok r ->
  Routes.execute_transfer p request key now s = (Ok r, s1).
Proof.
  intros Hk Hnone Hfc Hexec Hresp.
  unfold Routes.execute_transfer. apply get_db_ok.
  rewrite (handler_unfold _ _ _ _ _ Hk), Hnone.
  unfold Routes.execute_and_tag, try_except.
  rewrite Hfc. unfold lift at 1. unfold bind at 1.
  rewrite (bind_eq _ _ _ _ _ Hexec). unfold lift. now rewrite Hresp.
Qed.

End Result.

Lemma alice_pays_bob_route :
  let s0 := Demo.alice_bob Demo.d1_0 in
  let fe := mkDecimal 5 (-8) in
  let r : dict :=
    <["transfer_id"%string := VInt 1]>
    (<["from_merchant"%string := VStr "alice"]>
     (<["to_merchant"%string := VStr "bob"]>
      (<["currency"%string := VStr "BTC"]>
       (<["amount"%string := VStr "0.00005"]>
        (<["fee"%string := VStr "5E-8"]>
         (<["created_at"%string := VIso 3]>
          (<["is_duplicate"%string := VBool false]>
           (<["message"%string := VStr "Transfer executed successfully"]> ∅)))))))) in
  Routes.execute_transfer Demo.percent
    (Routes.mkTransferRequest "alice" "bob" "BTC" Demo.d0_00005) " key-1 " 3 s0 =
  (Ok r, transferred s0 "alice" "bob" "BTC" Demo.d0_00005 fe "key-1" 3 1
           (mkDecimal 99994995 (-8)) Demo.n0_00005 Demo.n0_00005 fe).
Proof.
  intros s0 fe r.
  eapply (route_fresh_run Demo.percent Demo.fee01).
  - reflexivity.
  - unfold s0. rewrite alice_bob_eq by (cbn; lia || exact small_d1_0). reflexivity.
  - reflexivity.
  - change (PyStr.strip " key-1 ") with "key-1"%string.
    apply (alice_pays_bob_reference Demo.d1_0);
      [cbn; lia|exact small_d1_0|vm_compute; discriminate|discriminate].
  - reflexivity.
Qed.

Lemma transfer_result_fields_witness :
  let s0 := Demo.alice_bob Demo.d1_0 in
  let fe := mkDecimal 5 (-8) in
  let s1 := transferred s0 "alice" "bob" "BTC" Demo.d0_00005 fe "key-1" 3 1
              (mkDecimal 99994995 (-8)) Demo.n0_00005 Demo.n0_00005 fe in
  let r : dict :=
    <["transfer_id"%string := VInt 1]>
    (<["from_merchant"%string := VStr "alice"]>
     (<["to_merchant"%string := VStr "bob"]>
      (<["currency"%string := VStr "BTC"]>
       (<["amount"%string := VStr "0.00005"]>
        (<["fee"%string := VStr "5E-8"]>
         (<["created_at"%string := VIso 3]>
          (<["is_duplicate"%string := VBool false]>
           (<["message"%string := VStr "Transfer executed successfully"]> ∅)))))))) in
  dom r = route_fields /\
  (exists i, r !! "transfer_id"%string = Some (VInt i)) /\
  (forall p2 request2 key2 now2,
     PyStr.strip key2 = PyStr.strip " key-1 " ->
     exists r2,
       Routes.execute_transfer p2 request2 key2 now2 s1 = (Ok r2, s1) /\
       r2 !! "transfer_id"%string = r !! "transfer_id"%string /\
       r2 !! "is_duplicate"%string = Some (VBool true)) /\
  (forall (T : Type) (FC : FeeCalculator T) (fc : T) f t c a k now0 s0 r0 s1,
     idempotency_keys s0 !! k = None ->
     ExecuteTransferUseCase.execute fc f t c a k now0 s0 = (Ok r0, s1) ->
     dom r0 = use_case_fields /\ r0 !! "is_duplicate"%string = None).
Proof.
  intros s0 fe s1 r.
  apply (transfer_result_fields Demo.percent
           (Routes.mkTransferRequest "alice" "bob" "BTC" Demo.d0_00005) " key-1 " 3 s0 s1 r).
  apply alice_pays_bob_route.
Defined.

(** C6 as stated fails on the field list: the result of the route carries a
    ninth field, [message], and the result of the use case carries no
    [is_duplicate] at all. *)
Lemma transfer_result_has_message :
  let s0 := Demo.alice_bob Demo.d1_0 in
  let fe := mkDecimal 5 (-8) in
  exists r r0 s1,
    Routes.execute_transfer Demo.percent
      (Routes.mkTransferRequest "alice" "bob" "BTC" Demo.d0_00005) " key-1 " 3 s0 = (Ok r, s1) /\
    r !! "message"%string = Some (VStr "Transfer executed successfully") /\
    dom r <> use_case_fields ∪ {["is_duplicate"%string]} /\
    ExecuteTransferUseCase.execute Demo.fee01 "alice" "bob" "BTC" Demo.d0_00005 "key-1" 3 s0 =
      (Ok r0, s1) /\
    r0 !! "is_duplicate"%string = None /\
    dom r0 <> use_case_fields ∪ {["is_duplicate"%string]}.
Proof.
  intros s0 fe.
  eexists _, _, _. split; [apply alice_pays_bob_route|].
  split; [reflexivity|]. split.
  { intros Hdom.
    assert (Hin : "message"%string ∈ dom
              (<["transfer_id"%string := VInt 1]>
               (<["from_merchant"%string := VStr "alice"]>
                (<["to_merchant"%string := VStr "bob"]>
                 (<["currency"%string := VStr "BTC"]>
                  (<["amount"%string := VStr "0.00005"]>
                   (<["fee"%string := VStr "5E-8"]>
                    (<["created_at"%string := VIso 3]>
                     (<["is_duplicate"%string := VBool false]>
                      (<["message"%string := VStr "Transfer executed successfully"]> ∅))))))))))
      by (apply elem_of_dom; eexists; reflexivity).
    rewrite Hdom in Hin. unfold use_case_fields in Hin. cbn [list_to_set foldr] in Hin.
    set_solver. }
  split; [apply (alice_pays_bob_reference Demo.d1_0);
            [cbn; lia|exact small_d1_0|vm_compute; discriminate|discriminate]|].
  split; [reflexivity|].
  rewrite response_fields. intros Hdom.
  assert (Hin : "is_duplicate"%string ∈ use_case_fields) by (rewrite Hdom; set_solver).
  unfold use_case_fields in Hin. cbn [list_to_set foldr] in Hin. set_solver.
Qed.

(** ** Queries *)

Section Queries.

Context {E : Engine}.


(** C8, as the code has it.  A call of [create_merchant] with a zero
    initial balance that succeeds creates the merchant and no balance row.
    For a currency that is not the empty string, a later
    [get_balance (name, currency)] answers with the amount "0"; a merchant
    with a stored balance that is zero gets an answer with the same
    merchant, the same currency and an amount that is the text of a zero
    decimal, so the two answers report the same number (the texts can
    differ: a stored [0E-8] is printed as it is). *)
Theorem zero_initial_balance_reads_zero
    (s s' : Store) (n c : string) (ib : Decimal) (now : datetime) (m : Merchant) :
  store_wf s ->
  Dec.eqb ib Dec.zero = true ->
  CreateMerchantUseCase.execute n c ib now s = (Ok m, s') ->
  merchants s' !! n = Some now /\
  balances s' = balances s /\
  (forall c', balances s' !! (n, c') = None) /\
  (c <> ""%string ->
   GetBalanceUseCase.execute n (Some c) s' = (Ok (balance_answer n c "0"), s') /\
   reports_amount (balance_answer n c "0") n c Dec.zero /\
   forall s2 z,
     store_wf s2 -> is_Some (merchants s2 !! n) ->
     balances s2 !! (n, c) = Some z -> Dec.eqb z Dec.zero = true ->
     exists d2,
       GetBalanceUseCase.execute n (Some c) s2 = (Ok d2, s2) /\
       reports_amount d2 n c Dec.zero).
Proof.
  intros Hwf Hib Hrun. apply eqb_zero in Hib.
  pose proof (create_merchant_wf n c ib now s Hwf) as Hwf'.
  rewrite (get_db_snd _ _ _ _ Hrun) in Hwf'.
  apply create_merchant_ok in Hrun as (Hn & Hfree & _ & _ & Hm & _ & _ & Hbal).
  destruct Hbal as [[_ Hb]|[Hpos _]]; [|lia].
  assert (Hnone : forall c', balances s' !! (n, c') = None).
  { intros c'. rewrite Hb. destruct (balances s !! (n, c')) as [x|] eqn:Hx; [|reflexivity].
    destruct (wf_balance_owner _ Hwf _ _ _ Hx) as [y Hy]. congruence. }
  split; [rewrite Hm; apply lookup_insert_eq|]. split; [exact Hb|]. split; [exact Hnone|].
  intros Hc. split; [|split].
  - rewrite get_balance_named by assumption.
    rewrite Hm, lookup_insert_eq, Hnone. reflexivity.
  - exists Dec.zero. split; reflexivity.
  - intros s2 z Hwf2 [t Ht] Hz Hzero.
    exists (balance_answer n c (Dec.str z)). split.
    + rewrite get_balance_named by assumption. now rewrite Ht, Hz.
    + exists z. split; [reflexivity|exact Hzero].
Qed.

End Queries.



Lemma zero_initial_balance_reads_zero_witness :
  let s0 := snd (get_db (CreateMerchantUseCase.execute "bob" "BTC" (mkDecimal 0 0) 2)
                   empty_store) in
  merchants s0 !! "bob"%string = Some 2 /\
  balances s0 = balances empty_store /\
  (forall c', balances s0 !! ("bob"%string, c') = None) /\
  ("BTC"%string <> ""%string ->
   GetBalanceUseCase.execute "bob" (Some "BTC"%string) s0 =
     (Ok (balance_answer "bob" "BTC" "0"), s0) /\
   reports_amount (balance_answer "bob" "BTC" "0") "bob" "BTC" Dec.zero /\
   forall s2 z,
     store_wf s2 -> is_Some (merchants s2 !! "bob"%string) ->
     balances s2 !! ("bob", "BTC")%string = Some z -> Dec.eqb z Dec.zero = true ->
     exists d2,
       GetBalanceUseCase.execute "bob" (Some "BTC"%string) s2 = (Ok d2, s2) /\
       reports_amount d2 "bob" "BTC" Dec.zero).
Proof.
  intros s0.
  apply (zero_initial_balance_reads_zero empty_store s0 "bob" "BTC" (mkDecimal 0 0) 2
           (mkMerchant "bob" 2)).
  - apply empty_store_wf.
  - reflexivity.
  - unfold s0. vm_compute. reflexivity.
Defined.

(** C8 as stated fails in two places.  A stored zero is told apart by its
    text: after alice, created with 0.00005005 BTC, has sent 0.00005 BTC
    (fee 0.00000005), her row holds [0E-8] and [get_balance] answers "0E-8",
    not the "0" a merchant without a row gets.  And for the empty currency
    the answer after [create_merchant "carol" "" 0] has no amount at
    all. *)
Lemma zero_balance_told_apart :
  (let s0 := Demo.alice_bob Demo.d0_00005005 in
   let fe := mkDecimal 5 (-8) in
   let s1 := transferred s0 "alice" "bob" "BTC" Demo.d0_00005 fe "key-1" 3 1
               (mkDecimal 0 (-8)) Demo.n0_00005 Demo.n0_00005 fe in
   snd (get_db (ExecuteTransferUseCase.execute Demo.fee01 "alice" "bob" "BTC"
                  Demo.d0_00005 "key-1" 3) s0) = s1 /\
   balances s1 !! ("alice", "BTC")%string = Some (mkDecimal 0 (-8)) /\
   GetBalanceUseCase.execute "alice" (Some "BTC"%string) s1 =
     (Ok (balance_answer "alice" "BTC" "0E-8"), s1) /\
   balance_answer "alice" "BTC" "0E-8" <> balance_answer "alice" "BTC" "0") /\
  (let s0 := snd (get_db (CreateMerchantUseCase.execute "carol" "" (mkDecimal 0 0) 3)
                    empty_store) in
   merchants s0 !! "carol"%string = Some 3 /\
   exists d, GetBalanceUseCase.execute "carol" (Some ""%string) s0 = (Ok d, s0) /\
             d !! "amount"%string = None).
Proof.
  split.
  - intros s0 fe s1.
    assert (Hs : small Demo.d0_00005005) by (split; vm_compute; [discriminate|reflexivity]).
    assert (Hrun : ExecuteTransferUseCase.execute Demo.fee01 "alice" "bob" "BTC"
                     Demo.d0_00005 "key-1" 3 s0 =
                   (Ok (ExecuteTransferUseCase.response
                          (mkTransfer (Some 1) "alice" "bob" "BTC" Demo.n0_00005 fe "key-1" 3)
                          "alice" "bob" "BTC" Demo.d0_00005 fe), s1)).
    { apply (alice_pays_bob_reference Demo.d0_00005005);
        [cbn; lia|exact Hs|vm_compute; discriminate|discriminate]. }
    pose proof (execute_transfer_wf Demo.fee01 "alice" "bob" "BTC" Demo.d0_00005 "key-1" 3
                  s0 (alice_bob_wf _)) as Hwf.
    rewrite (get_db_snd _ _ _ _ Hrun) in Hwf |- *.
    assert (Hrow : balances s1 !! ("alice", "BTC")%string = Some (mkDecimal 0 (-8))).
    { unfold s1. cbn [transferred balances].
      rewrite lookup_insert_ne by discriminate. apply lookup_insert_eq. }
    split; [reflexivity|]. split; [exact Hrow|]. split.
    + rewrite get_balance_named by (exact Hwf || discriminate). rewrite Hrow.
      unfold s1, s0. cbn [transferred merchants].
      rewrite alice_bob_eq by (cbn; lia || exact Hs). cbn [merchants].
      rewrite lookup_insert_eq. reflexivity.
    + intros Heq.
      assert (Ha : balance_answer "alice" "BTC" "0E-8" !! "amount"%string =
                   balance_answer "alice" "BTC" "0" !! "amount"%string) by now rewrite Heq.
      vm_compute in Ha. discriminate.
  - intros s0. split; [vm_compute; reflexivity|].
    exists (<["merchant_name"%string := VStr "carol"]>
            (<["balances"%string := VBalances []]> ∅)).
    split; [vm_compute; reflexivity|reflexivity].
Qed.

(* ===================================================================== *)
(** * Further properties: the databases the service can reach *)
(* ===================================================================== *)

Section Reachable.

Context {E : Engine}.

Lemma get_merchant_reads (n : string) (s : Store) :
  snd (GetMerchantUseCase.execute n s) = s.
Proof.
  unfold GetMerchantUseCase.execute, bind, MerchantRepository.get_by_name.
  destruct (merchants s !! n) as [t|]; [|reflexivity].
  destruct (Merchant_init n t); [|reflexivity].
  unfold BalanceRepository.get_all_for_merchant.
  destruct (BalanceRepository.build_balances _); reflexivity.
Qed.

Lemma create_merchant_route_ok request now s r s' :
  Routes.create_merchant request now s = (Ok r, s') ->
  exists m r0,
    CreateMerchantUseCase.execute (Routes.cm_merchant_name request)
      (Routes.cm_currency request) (Routes.cm_initial_balance request) now s = (Ok m, s') /\
    GetMerchantUseCase.execute (Routes.cm_merchant_name request) s' = (Ok r0, s') /\
    Routes.MerchantResponse r0 = Ok r.
Proof.
  unfold Routes.create_merchant. rewrite get_db_ok.
  unfold Routes.create_merchant_handler, try_except.
  destruct (bind _ _ s) as [[x|e] s1] eqn:Hb; [|discriminate].
  intros Hx. injection Hx as -> ->.
  apply bind_ok in Hb as (m & s1 & Hm & Hb).
  apply bind_ok in Hb as (r0 & s2 & Hg & Hl).
  apply lift_ok in Hl as [Hr ->].
  pose proof (get_merchant_reads (Routes.cm_merchant_name request) s1) as Hs.
  rewrite Hg in Hs. cbn in Hs. subst s2.
  exists m, r0. auto.
Qed.

Lemma execute_transfer_route_ok p request key now s r s' :
  Routes.execute_transfer p request key now s = (Ok r, s') ->
  PyStr.truthy (PyStr.strip key) = true /\
  (s' = s \/
   exists (fc : PercentageFeeCalculator) r0,
     PercentageFeeCalculator_init p = Ok fc /\
     idempotency_keys s !! PyStr.strip key = None /\
     ExecuteTransferUseCase.perform fc
       (Routes.req_from_merchant request) (Routes.req_to_merchant request)
       (Routes.req_currency request) (Routes.req_amount request)
       (PyStr.strip key) now s = (Ok r0, s')).
Proof.
  unfold Routes.execute_transfer. rewrite get_db_ok. intros Hh.
  pose proof (handler_header _ _ _ _ _ _ _ Hh) as Hkey.
  split; [exact Hkey|].
  rewrite (handler_unfold _ _ _ _ _ Hkey) in Hh.
  assert (Htag : Routes.execute_and_tag p request (PyStr.strip key) now s = (Ok r, s') ->
                 s' = s \/
                 exists (fc : PercentageFeeCalculator) r0,
                   PercentageFeeCalculator_init p = Ok fc /\
                   idempotency_keys s !! PyStr.strip key = None /\
                   ExecuteTransferUseCase.perform fc
                     (Routes.req_from_merchant request) (Routes.req_to_merchant request)
                     (Routes.req_currency request) (Routes.req_amount request)
                     (PyStr.strip key) now s = (Ok r0, s')).
  { intros Ht. apply execute_and_tag_ok in Ht as (fc & r0 & Hfc & He & _).
    destruct (idempotency_keys s !! PyStr.strip key) as [rec|] eqn:Hrec.
    - apply execute_ok in He as [[-> _]|He]; [now left|].
      apply perform_ok in He as (? & ? & ? & ? & ? & ? & Hp & _).
      rewrite (pf_key_unrecorded _ _ _ _ _ _ _ _ _ _ _ _ _ Hp) in Hrec. discriminate.
    - right. exists fc, r0. split; [exact Hfc|]. split; [reflexivity|].
      rewrite <- (execute_fresh fc _ _ _ _ _ _ _ Hrec). exact He. }
  destruct (idempotency_keys s !! PyStr.strip key) as [rec|] eqn:Hrec;
    [|exact (Htag Hh)].
  destruct (dict_truthy (response_data rec)); [|exact (Htag Hh)].
  injection Hh as _ ->. now left.
Qed.

(** A request that fails leaves the database as it was. *)
Lemma serve_cases p q s :
  serve p q s = s \/
  (exists request now m,
     q = PostMerchant request now /\
     CreateMerchantUseCase.execute (Routes.cm_merchant_name request)
       (Routes.cm_currency request) (Routes.cm_initial_balance request) now s =
     (Ok m, serve p q s)) \/
  (exists request key now (fc : PercentageFeeCalculator) r0,
     q = PostTransfer request key now /\
     ExecuteTransferUseCase.perform fc
       (Routes.req_from_merchant request) (Routes.req_to_merchant request)
       (Routes.req_currency request) (Routes.req_amount request)
       (PyStr.strip key) now s = (Ok r0, serve p q s)).
Proof.
  destruct q as [request now|request key now]; cbn.
  - destruct (Routes.create_merchant request now s) as [[r|e] s'] eqn:Hr; cbn.
    + apply create_merchant_route_ok in Hr as (m & _ & Hc & _).
      right. left. eauto.
    + left. unfold Routes.create_merchant, get_db in Hr.
      destruct (Routes.create_merchant_handler request now s) as [[?|?] ?];
        [discriminate|].
      now injection Hr as _ <-.
  - destruct (Routes.execute_transfer p request key now s) as [[r|e] s'] eqn:Hr; cbn.
    + apply execute_transfer_route_ok in Hr as [_ [->|(fc & r0 & _ & _ & Hp)]];
        [now left|].
      right. right. eauto 10.
    + left. unfold Routes.execute_transfer, get_db in Hr.
      destruct (Routes.execute_transfer_handler p request key now s) as [[?|?] ?];
        [discriminate|].
      now injection Hr as _ <-.
Qed.

Lemma serve_wf p q s : store_wf s -> store_wf (serve p q s).
Proof.
  intros Hwf.
  destruct (serve_cases p q s)
    as [->|[(request & now & m & _ & Hc)|(request & key & now & fc & r0 & _ & Hp)]].
  - exact Hwf.
  - rewrite <- (get_db_snd _ _ _ _ Hc). now apply create_merchant_wf.
  - apply perform_ok in Hp as (fe & cur & db & cr & am & fs & Hp & _ & ->).
    destruct Hp. now apply transferred_wf.
Qed.

Lemma reachable_wf p s : reachable p s -> store_wf s.
Proof.
  induction 1 as [|s q _ IH]; [apply empty_store_wf | now apply serve_wf].
Qed.

Lemma has_key_false_notin (k : string) (rows : list Transfer) :
  TransferRepository.has_key k rows = false -> k ∉ map idempotency_key rows.
Proof.
  unfold TransferRepository.has_key. induction rows as [|r rows IH]; cbn.
  - intros _ Hin. inversion Hin.
  - intros Hf. apply orb_false_iff in Hf as [Hr Hrest].
    apply bool_decide_eq_false in Hr.
    intros Hin. apply elem_of_cons in Hin as [->|Hin]; [congruence|].
    exact (IH Hrest Hin).
Qed.

Lemma empty_ledger_inv : ledger_inv empty_store.
Proof.
  split; cbn.
  - apply empty_store_wf.
  - intros m c a Ha. rewrite lookup_empty in Ha. discriminate.
  - constructor.
  - constructor.
  - constructor.
  - constructor.
  - constructor.
  - constructor.
  - intros k rec Hk. rewrite lookup_empty in Hk. discriminate.
  - intros r Hr. inversion Hr.
Qed.

Context {L : EngineLaws E}.

Lemma transferred_ledger_inv {T : Type} {FC : FeeCalculator T} (fc : T)
    s f t c a k now fe cur db cr am fs :
  ledger_inv s ->
  performed fc s f t c a k fe cur db cr am fs ->
  ledger_inv (transferred s f t c a fe k now (next_id (transfers s)) db cr am fs).
Proof.
  intros [Hwf Hscale Hids Hdist Hrows Hrscale Hparties Hkeys Hrecs Hrecd] Hp.
  pose proof Hp as [Hf Ht Hft Ha Hfee Hfe Hcur Hlt Hdb Hdb0 Hcr Hcr0 Ham Ham0 Hfs Hfs0
                      Hc Hk Hhk Hnone].
  pose proof (has_key_false_notin _ _ Hhk) as Hnotin.
  set (i := next_id (transfers s)).
  set (row := mkTransfer (Some i) f t c am fs k now).
  assert (Hrec : record_of row a fe =
                 mkIdempotencyKeyModel i (ExecuteTransferUseCase.response row f t c a fe))
    by reflexivity.
  split.
  - now apply transferred_wf.
  - cbn. intros m c' x Hx.
    apply lookup_insert_Some in Hx as [[_ <-]|[_ Hx]];
      [exact (numeric_scale _ _ Hcr)|].
    apply lookup_insert_Some in Hx as [[_ <-]|[_ Hx]];
      [exact (numeric_scale _ _ Hdb)|].
    exact (Hscale _ _ _ Hx).
  - cbn. apply Forall_app. split; [exact Hids|].
    constructor; [|constructor]. cbn. eauto.
  - cbn. rewrite map_app. apply NoDup_app. split; [exact Hdist|]. split.
    + intros x Hx Hx'. cbn in Hx'. apply list_elem_of_singleton in Hx'. subst x.
      apply list_elem_of_fmap in Hx as (r & Hid & Hr).
      pose proof (next_id_fresh (transfers s)) as Hfresh.
      rewrite Forall_forall in Hfresh. exact (Hfresh r Hr (eq_sym Hid)).
    + cbn. apply NoDup_singleton.
  - cbn. apply Forall_app. split; [exact Hrows|].
    constructor; [|constructor].
    unfold TransferRepository.entity. cbn. now apply Transfer_init_ok.
  - cbn. apply Forall_app. split; [exact Hrscale|].
    constructor; [|constructor]. cbn.
    split; [exact (numeric_scale _ _ Ham)|exact (numeric_scale _ _ Hfs)].
  - cbn. apply Forall_app. split; [exact Hparties|].
    constructor; [|constructor]. cbn. auto.
  - cbn. rewrite map_app. apply NoDup_app. split; [exact Hkeys|]. split.
    + intros x Hx Hx'. cbn in Hx'. apply list_elem_of_singleton in Hx'. now subst x.
    + cbn. apply NoDup_singleton.
  - intros k' rec. cbn. fold i. fold row. rewrite <- Hrec.
    destruct (decide (k' = k)) as [->|Hne].
    + rewrite lookup_insert_eq. intros [= <-]. exists row, a, fe.
      split; [apply elem_of_app; right; now apply list_elem_of_singleton|].
      auto.
    + rewrite lookup_insert_ne by congruence. intros Hk'.
      apply Hrecs in Hk' as (r & a' & fe' & Hr & Hkr & Hrec' & Hn).
      exists r, a', fe'. split; [apply elem_of_app; now left|]. auto.
  - intros r Hr. cbn in Hr |- *. apply elem_of_app in Hr as [Hr|Hr].
    + destruct (decide (idempotency_key r = k)) as [->|Hne].
      * rewrite lookup_insert_eq. eauto.
      * rewrite lookup_insert_ne by congruence. now apply Hrecd.
    + apply list_elem_of_singleton in Hr. subst r. cbn.
      rewrite lookup_insert_eq. eauto.
Qed.

Lemma created_ledger_inv n c ib now s m s' :
  ledger_inv s ->
  CreateMerchantUseCase.execute n c ib now s = (Ok m, s') ->
  ledger_inv s'.
Proof.
  intros [Hwf Hscale Hids Hdist Hrows Hrscale Hparties Hkeys Hrecs Hrecd] Hc.
  pose proof (create_merchant_wf n c ib now s Hwf) as Hwf'.
  rewrite (get_db_snd _ _ _ _ Hc) in Hwf'.
  apply create_merchant_ok in Hc as (_ & Hnew & _ & _ & Hm & Htr & Hik & Hbal).
  split.
  - exact Hwf'.
  - intros m' c' x Hx.
    destruct Hbal as [[_ Hb]|(_ & _ & _ & v & Hv & _ & Hb)]; rewrite Hb in Hx.
    + exact (Hscale _ _ _ Hx).
    + apply lookup_insert_Some in Hx as [[_ <-]|[_ Hx]];
        [exact (numeric_scale _ _ Hv)|exact (Hscale _ _ _ Hx)].
  - rewrite Htr. exact Hids.
  - rewrite Htr. exact Hdist.
  - rewrite Htr. exact Hrows.
  - rewrite Htr. exact Hrscale.
  - rewrite Htr, Hm. eapply Forall_impl; [exact Hparties|].
    intros r [[x Hx] [y Hy]]. split.
    + destruct (decide (from_merchant r = n)) as [->|Hne].
      * rewrite lookup_insert_eq. eauto.
      * rewrite lookup_insert_ne by congruence. eauto.
    + destruct (decide (to_merchant r = n)) as [->|Hne].
      * rewrite lookup_insert_eq. eauto.
      * rewrite lookup_insert_ne by congruence. eauto.
  - rewrite Htr. exact Hkeys.
  - rewrite Htr, Hik. exact Hrecs.
  - rewrite Htr, Hik. exact Hrecd.
Qed.

Lemma serve_ledger_inv p q s : ledger_inv s -> ledger_inv (serve p q s).
Proof.
  intros Hinv.
  destruct (serve_cases p q s)
    as [->|[(request & now & m & _ & Hc)|(request & key & now & fc & r0 & _ & Hp)]].
  - exact Hinv.
  - exact (created_ledger_inv _ _ _ _ _ _ _ Hinv Hc).
  - apply perform_ok in Hp as (fe & cur & db & cr & am & fs & Hp & _ & ->).
    now apply (transferred_ledger_inv fc _ _ _ _ _ _ _ _ cur).
Qed.

Lemma reachable_ledger_inv p s : reachable p s -> ledger_inv s.
Proof.
  induction 1 as [|s q _ IH]; [apply empty_ledger_inv | now apply serve_ledger_inv].
Qed.

Lemma filter_key_nil (k : string) (l : list Transfer) :
  k ∉ map idempotency_key l -> filter (fun x => idempotency_key x = k) l = [].
Proof.
  induction l as [|x l IH]; cbn [map]; intros Hk; [reflexivity|].
  rewrite filter_cons_False.
  - apply IH. intros Hin. apply Hk. now apply elem_of_cons; right.
  - intros Hx. apply Hk. apply elem_of_cons. left. congruence.
Qed.

Lemma filter_key_singleton (r : Transfer) (l : list Transfer) :
  NoDup (map idempotency_key l) -> r ∈ l ->
  filter (fun x => idempotency_key x = idempotency_key r) l = [r].
Proof.
  induction l as [|x l IH]; cbn [map]; intros Hnd Hin; [inversion Hin|].
  apply NoDup_cons in Hnd as [Hx Hnd].
  apply elem_of_cons in Hin as [->|Hin].
  - rewrite filter_cons_True by reflexivity. f_equal. now apply filter_key_nil.
  - rewrite filter_cons_False; [now apply IH|].
    intros Heq. apply Hx. rewrite Heq. apply list_elem_of_fmap. now exists r.
Qed.

End Reachable.

Lemma sample_reachable : reachable Demo.percent Sample.ledger.
Proof. unfold Sample.ledger. repeat apply reachable_serve. apply reachable_empty. Qed.

Lemma sample_wf : store_wf Sample.ledger.
Proof. exact (reachable_wf _ _ sample_reachable). Qed.

Lemma sample_ledger_eq :
  Sample.ledger =
  transferred (Demo.alice_bob Demo.d1_0) "alice" "bob" "BTC" Demo.d0_00005
    (mkDecimal 5 (-8)) "key-1" 3 1 (mkDecimal 99994995 (-8))
    Demo.n0_00005 Demo.n0_00005 (mkDecimal 5 (-8)).
Proof. vm_compute. reflexivity. Qed.

Section ReachableProperties.

Context {E : Engine}.

(** X5. Whatever requests were served, the database is well formed: no
    merchant has an empty name, no balance is negative or has an empty
    currency, and every balance row belongs to a registered merchant. *)
Theorem reachable_store_wf (p : Decimal) (s : Store) :
  reachable p s -> store_wf s.
Proof. exact (reachable_wf p s). Qed.

(** X8. Serving a request never removes or alters what is recorded: the
    merchants and the idempotency records of before are still there, the
    transfer log of before is a prefix of the new one, and at most one
    transfer is added. *)
Theorem serve_append_only (p : Decimal) (q : request) (s : Store) :
  merchants s ⊆ merchants (serve p q s) /\
  idempotency_keys s ⊆ idempotency_keys (serve p q s) /\
  transfers s `prefix_of` transfers (serve p q s) /\
  (length (transfers (serve p q s)) <= S (length (transfers s)))%nat.
Proof.
  destruct (serve_cases p q s)
    as [->|[(request & now & m & _ & Hc)|(request & key & now & fc & r0 & _ & Hp)]].
  - split; [reflexivity|]. split; [reflexivity|]. split; [reflexivity|lia].
  - apply create_merchant_ok in Hc as (_ & Hnew & _ & _ & -> & -> & -> & _).
    split; [now apply insert_subseteq|]. split; [reflexivity|].
    split; [reflexivity|lia].
  - apply perform_ok in Hp as (fe & cur & db & cr & am & fs & Hp & _ & ->).
    pose proof (pf_key_unrecorded _ _ _ _ _ _ _ _ _ _ _ _ _ Hp) as Hnone.
    cbn. split; [reflexivity|]. split; [now apply insert_subseteq|].
    split; [now apply prefix_app_r|]. rewrite length_app. cbn. lia.
Qed.

Context {L : EngineLaws E}.

(** X6. In every reachable database every row of the transfer log has an
    id, no two rows share one, and each row is a valid [Transfer]: a
    positive amount and a fee that is not negative, both on eight places,
    a key that is not empty, two different merchants, both of them
    registered. *)
Theorem reachable_transfer_log (p : Decimal) (s : Store) :
  reachable p s ->
  NoDup (map id (transfers s)) /\
  forall r, r ∈ transfers s ->
    is_Some (id r) /\
    TransferRepository.entity r = Ok r /\
    0 < coeff (amount r) /\ 0 <= coeff (fee r) /\
    exp (amount r) = -8 /\ exp (fee r) = -8 /\
    idempotency_key r <> ""%string /\ from_merchant r <> to_merchant r /\
    is_Some (merchants s !! from_merchant r) /\
    is_Some (merchants s !! to_merchant r).
Proof.
  intros Hr.
  apply reachable_ledger_inv in Hr as [_ _ Hids Hdist Hrows Hrscale Hparties _ _ _].
  split; [exact Hdist|]. intros r Hin.
  rewrite Forall_forall in Hids, Hrows, Hrscale, Hparties.
  pose proof (Hrows r Hin) as He. cbn in He.
  destruct (Hrscale r Hin) as [Hsa Hsf]. destruct (Hparties r Hin) as [Hf Ht].
  split; [exact (Hids r Hin)|]. split; [exact He|].
  unfold TransferRepository.entity in He.
  apply Transfer_init_inv in He as (Ha & Hfe & Hk & Hft & _).
  auto 12.
Qed.

(** X7. In every reachable database the idempotency records and the
    transfer log agree: a key without a record has no transfer, and a key
    with a record has exactly one transfer, whose id is the record's
    [transfer_id]; the record's [response_data] is the response of that
    row, and it prints an amount and a fee of which the row holds what the
    Numeric(20, 8) columns made. *)
Theorem reachable_key_one_transfer (p : Decimal) (s : Store) (k : string) :
  reachable p s ->
  match idempotency_keys s !! k with
  | None => transfers_of_key k s = []
  | Some rec =>
      exists r a fe, transfers_of_key k s = [r] /\
        id r = Some (transfer_id rec) /\
        numeric a = Ok (amount r) /\ numeric fe = Ok (fee r) /\
        response_data rec =
          ExecuteTransferUseCase.response r (from_merchant r) (to_merchant r)
            (currency r) a fe
  end.
Proof.
  intros Hr.
  pose proof (reachable_ledger_inv _ _ Hr) as [_ _ Hids _ _ _ _ Hkeys Hrecs Hrecd].
  unfold transfers_of_key.
  destruct (idempotency_keys s !! k) as [rec|] eqn:Hk.
  - apply Hrecs in Hk as (r & a & fe & Hin & <- & -> & Ha & Hfe). exists r, a, fe.
    split; [now apply filter_key_singleton|].
    rewrite Forall_forall in Hids. destruct (Hids r Hin) as [i Hi].
    split; [cbn; now rewrite Hi|]. auto.
  - apply filter_key_nil. intros Hin.
    apply list_elem_of_fmap in Hin as (r & -> & Hin).
    destruct (Hrecd r Hin) as [rec Hrec]. rewrite Hk in Hrec. discriminate.
Qed.

End ReachableProperties.

Lemma reachable_store_wf_witness : store_wf Sample.ledger.
Proof. exact (reachable_store_wf Demo.percent Sample.ledger sample_reachable). Defined.

Lemma reachable_transfer_log_witness :
  NoDup (map id (transfers Sample.ledger)) /\
  forall r, r ∈ transfers Sample.ledger ->
    is_Some (id r) /\
    TransferRepository.entity r = Ok r /\
    0 < coeff (amount r) /\ 0 <= coeff (fee r) /\
    exp (amount r) = -8 /\ exp (fee r) = -8 /\
    idempotency_key r <> ""%string /\ from_merchant r <> to_merchant r /\
    is_Some (merchants Sample.ledger !! from_merchant r) /\
    is_Some (merchants Sample.ledger !! to_merchant r).
Proof.
  exact (reachable_transfer_log (L := reference_laws) Demo.percent Sample.ledger
           sample_reachable).
Defined.

Lemma reachable_key_one_transfer_witness :
  (exists r a fe, transfers_of_key "key-1" Sample.ledger = [r] /\
     id r = Some 1 /\
     numeric a = Ok (amount r) /\ numeric fe = Ok (fee r) /\
     response_data (record_of Sample.row Demo.d0_00005 (mkDecimal 5 (-8))) =
       ExecuteTransferUseCase.response r (from_merchant r) (to_merchant r)
         (currency r) a fe) /\
  transfers_of_key "key-2" Sample.ledger = [].
Proof.
  split.
  - pose proof (reachable_key_one_transfer (L := reference_laws) Demo.percent
                  Sample.ledger "key-1" sample_reachable) as H.
    replace (idempotency_keys Sample.ledger !! "key-1"%string)
      with (Some (record_of Sample.row Demo.d0_00005 (mkDecimal 5 (-8)))) in H
      by (vm_compute; reflexivity).
    exact H.
  - pose proof (reachable_key_one_transfer (L := reference_laws) Demo.percent
                  Sample.ledger "key-2" sample_reachable) as H.
    replace (idempotency_keys Sample.ledger !! "key-2"%string)
      with (@None IdempotencyKeyModel) in H by (vm_compute; reflexivity).
    exact H.
Defined.

(* ===================================================================== *)
(** * Further properties: what a transfer moves *)
(* ===================================================================== *)

Section Moves.

Context {E : Engine} {L : EngineLaws E}.

(** What a column that took a sum or a difference of small amounts
    holds. *)
Lemma numeric_units (x v : Decimal) :
  -8 <= exp x -> Z.abs (units x) < 10 ^ 15 ->
  numeric x = Ok v -> units v = units x.
Proof.
  intros He Hu Hv. rewrite (numeric_exact x He Hu) in Hv.
  injection Hv as <-. apply units_stored.
Qed.

(** The receiver's new amount is not negative. *)
Lemma credited_nonneg (s : Store) (f t c : string) (a db : Decimal) :
  store_wf s -> f <> t -> 0 < coeff a ->
  0 <= coeff (credited (<[(f, c) := db]> (balances s)) t c a).
Proof.
  intros Hwf Hft Ha. unfold credited.
  rewrite lookup_insert_ne by congruence.
  destruct (balances s !! (t, c)) as [cur2|] eqn:Hb; [|lia].
  destruct (wf_balance _ Hwf _ _ _ Hb) as [_ Hcur2].
  assert (Hlt : Dec.ltb (Dec.add cur2 a) Dec.zero = false).
  { unfold Dec.add. rewrite ltb_zero_fix. cbn [coeff].
    pose proof (pow10_pos (exp cur2 - Z.min (exp cur2) (exp a)) ltac:(lia)).
    pose proof (pow10_pos (exp a - Z.min (exp cur2) (exp a)) ltac:(lia)).
    destruct (Z.ltb_spec (coeff cur2 * 10 ^ (exp cur2 - Z.min (exp cur2) (exp a))
                          + coeff a * 10 ^ (exp a - Z.min (exp cur2) (exp a))) 0);
      [nia|reflexivity]. }
  rewrite ltb_zero in Hlt.
  destruct (Z.ltb_spec (coeff (Dec.add cur2 a)) 0); [discriminate|lia].
Qed.

(** X9. A transfer moves exact amounts.  When the amount, the fee and the
    balances of the currency have at most eight fractional digits and are
    below a million, a performed transfer takes exactly amount + fee from
    the sender's row and adds exactly the amount to the receiver's row
    (counted in units of 1e-8), and it leaves every other balance row as it
    was: the two rows together lose the fee and nothing else. *)
Theorem transfer_moves_exact_units
    {T : Type} {FC : FeeCalculator T} (fc : T)
    (f t c : string) (a : Decimal) (k : string) (now : datetime)
    (s s' : Store) (r : dict) :
  idempotency_keys s !! k = None ->
  ExecuteTransferUseCase.execute fc f t c a k now s = (Ok r, s') ->
  small a ->
  (forall fe, calculate_fee fc a = Ok fe -> small fe) ->
  (forall m x, balances s !! (m, c) = Some x -> small x) ->
  exists fe,
    calculate_fee fc a = Ok fe /\
    units_at s' f c = units_at s f c - (units a + units fe) /\
    units_at s' t c = units_at s t c + units a /\
    (forall m c', (m, c') <> (f, c) -> (m, c') <> (t, c) ->
       balances s' !! (m, c') = balances s !! (m, c')).
Proof.
  intros Hnone He [Hae Hau] Hfee Hbal.
  rewrite (execute_fresh fc _ _ _ _ _ _ _ Hnone) in He.
  apply perform_ok in He as (fe & cur & db & cr & am & fs & Hp & _ & ->).
  destruct Hp as [_ _ Hft _ Hfe _ Hcur _ Hdb _ Hcr _ _ _ _ _ _ _ _ _].
  destruct (Hfee _ Hfe) as [Hfee' Hfeu].
  destruct (Hbal _ _ Hcur) as [Hce Hcu].
  assert (H28 : 10 ^ 28 = 100000000000000 * 10 ^ 14) by reflexivity.
  assert (H15 : 10 ^ 15 = 10 * 10 ^ 14) by reflexivity.
  destruct (units_add a fe) as [Htot Htote]; [lia|lia|lia|].
  destruct (units_sub cur (Dec.add a fe)) as [Hsub Hsube]; [lia|lia|lia|].
  exists fe. split; [exact Hfe|].
  unfold units_at, transferred. cbn [balances].
  split; [|split].
  - rewrite lookup_insert_ne by congruence.
    rewrite lookup_insert_eq, Hcur. cbn.
    rewrite (numeric_units _ _ Hsube ltac:(lia) Hdb). lia.
  - rewrite lookup_insert_eq. unfold credited in Hcr.
    rewrite lookup_insert_ne in Hcr by congruence.
    destruct (balances s !! (t, c)) as [old|] eqn:Hold; cbn.
    + destruct (Hbal _ _ Hold) as [Hoe Hou].
      destruct (units_add old a) as [Hadd Hadde]; [lia|lia|lia|].
      rewrite (numeric_units _ _ Hadde ltac:(lia) Hcr). exact Hadd.
    + rewrite (numeric_units _ _ Hae ltac:(lia) Hcr). lia.
  - intros m c' H1 H2. now rewrite !lookup_insert_ne by congruence.
Qed.

(** X11. The use case checks the idempotency key last.  Called with an
    empty key (the route never does that) on a transfer that is otherwise
    in order, [execute] first debits the sender and credits the receiver in
    the session and only then fails, with [ValueError] "Idempotency key is
    required", when it builds the [Transfer]; the session it leaves holds
    the two moved balances as the columns took them, and it is the rollback
    of [get_db] that restores the database. *)
Theorem empty_key_moves_then_fails
    {T : Type} {FC : FeeCalculator T} (fc : T)
    (f t c : string) (a fe cur db cr : Decimal) (now : datetime) (s : Store) :
  store_wf s ->
  idempotency_keys s !! ""%string = None ->
  is_Some (merchants s !! f) -> is_Some (merchants s !! t) -> f <> t ->
  0 < coeff a -> calculate_fee fc a = Ok fe -> 0 <= coeff fe ->
  balances s !! (f, c) = Some cur ->
  Dec.ltb (Dec.sub cur (Dec.add a fe)) Dec.zero = false ->
  numeric (Dec.sub cur (Dec.add a fe)) = Ok db ->
  numeric (credited (<[(f, c) := db]> (balances s)) t c a) = Ok cr ->
  ExecuteTransferUseCase.execute fc f t c a "" now s =
    (Raise (ValueError "Idempotency key is required"),
     set_balances s (<[(t, c) := cr]> (<[(f, c) := db]> (balances s)))) /\
  get_db (ExecuteTransferUseCase.execute fc f t c a "" now) s =
    (Raise (ValueError "Idempotency key is required"), s).
Proof.
  intros Hwf Hnone [tf Hf] [tt Ht] Hft Ha Hfee Hfe Hcur Hnn Hdb Hcr.
  assert (Hdb0 : 0 <= coeff db).
  { apply (numeric_nonneg _ _ Hdb). rewrite ltb_zero in Hnn.
    destruct (Z.ltb_spec (coeff (Dec.sub cur (Dec.add a fe))) 0); [discriminate|lia]. }
  assert (Hcr0 : 0 <= coeff cr).
  { apply (numeric_nonneg _ _ Hcr). now apply credited_nonneg. }
  assert (Hrun : ExecuteTransferUseCase.execute fc f t c a "" now s =
                 (Raise (ValueError "Idempotency key is required"),
                  set_balances s (<[(t, c) := cr]> (<[(f, c) := db]> (balances s))))).
  { rewrite (execute_fresh fc _ _ _ _ _ _ _ Hnone).
    unfold ExecuteTransferUseCase.perform.
    rewrite (bind_eq _ _ _ _ _ (get_by_name_wf s f Hwf)), Hf.
    cbn [fmap option_fmap option_map].
    rewrite (bind_eq _ _ _ _ _ (get_by_name_wf s t Hwf)), Ht.
    cbn [fmap option_fmap option_map].
    rewrite bool_decide_eq_false_2 by exact Hft.
    rewrite leb_zero. destruct (Z.leb_spec (coeff a) 0); [lia|].
    rewrite Hfee. unfold lift at 1. unfold bind at 1.
    rewrite (bind_eq (try_except _ _) _ s _ _
               (balance_moves_run f t c a fe s cur db cr Hwf Hft Ha Hcur Hnn Hdb Hdb0
                  Hcr Hcr0)).
    unfold Transfer_init.
    rewrite leb_zero. destruct (Z.leb_spec (coeff a) 0); [lia|].
    rewrite ltb_zero. destruct (Z.ltb_spec (coeff fe) 0); [lia|].
    reflexivity. }
  split; [exact Hrun|]. unfold get_db. rewrite Hrun. reflexivity.
Qed.

End Moves.

Lemma transfer_moves_exact_units_witness :
  let s := Demo.alice_bob Demo.d1_0 in
  let s' := transferred s "alice" "bob" "BTC" Demo.d0_00005 (mkDecimal 5 (-8))
              "key-1" 3 1 (mkDecimal 99994995 (-8))
              Demo.n0_00005 Demo.n0_00005 (mkDecimal 5 (-8)) in
  exists fe,
    calculate_fee Demo.fee01 Demo.d0_00005 = Ok fe /\
    units_at s' "alice" "BTC" = units_at s "alice" "BTC" - (units Demo.d0_00005 + units fe) /\
    units_at s' "bob" "BTC" = units_at s "bob" "BTC" + units Demo.d0_00005 /\
    (forall m c', (m, c') <> ("alice", "BTC")%string -> (m, c') <> ("bob", "BTC")%string ->
       balances s' !! (m, c') = balances s !! (m, c')).
Proof.
  apply (transfer_moves_exact_units (L := reference_laws)
           Demo.fee01 "alice" "bob" "BTC" Demo.d0_00005 "key-1" 3
           (Demo.alice_bob Demo.d1_0) _
           (ExecuteTransferUseCase.response
              (mkTransfer (Some 1) "alice" "bob" "BTC" Demo.n0_00005 (mkDecimal 5 (-8))
                 "key-1" 3)
              "alice" "bob" "BTC" Demo.d0_00005 (mkDecimal 5 (-8)))).
  - vm_compute. reflexivity.
  - apply (alice_pays_bob_reference Demo.d1_0);
      [reflexivity|exact small_d1_0|vm_compute; discriminate|discriminate].
  - split; vm_compute; [discriminate|reflexivity].
  - intros fe Hfe. vm_compute in Hfe. injection Hfe as <-.
    split; vm_compute; [discriminate|reflexivity].
  - intros m x. rewrite alice_bob_eq by (reflexivity || exact small_d1_0). cbn [balances].
    intros Hx. apply lookup_insert_Some in Hx as [[_ <-]|[_ Hx]].
    + split; vm_compute; [discriminate|reflexivity].
    + rewrite lookup_empty in Hx. discriminate.
Defined.

Lemma empty_key_moves_then_fails_witness :
  let s := Demo.alice_bob Demo.d1_0 in
  ExecuteTransferUseCase.execute Demo.fee01 "alice" "bob" "BTC" Demo.d0_00005 "" 3 s =
    (Raise (ValueError "Idempotency key is required"),
     set_balances s (<[("bob", "BTC")%string := Demo.n0_00005]>
                       (<[("alice", "BTC")%string := mkDecimal 99994995 (-8)]>
                          (balances s)))) /\
  get_db (ExecuteTransferUseCase.execute Demo.fee01 "alice" "bob" "BTC" Demo.d0_00005 "" 3) s =
    (Raise (ValueError "Idempotency key is required"), s).
Proof.
  apply (empty_key_moves_then_fails (L := reference_laws)
           Demo.fee01 "alice" "bob" "BTC" Demo.d0_00005
           (mkDecimal 5 (-8)) Demo.n1_0 (mkDecimal 99994995 (-8)) Demo.n0_00005
           3 (Demo.alice_bob Demo.d1_0) (alice_bob_wf _)).
  - vm_compute. reflexivity.
  - exists 1. vm_compute. reflexivity.
  - exists 2. vm_compute. reflexivity.
  - discriminate.
  - cbn. lia.
  - vm_compute. reflexivity.
  - cbn. lia.
  - vm_compute. reflexivity.
  - vm_compute. reflexivity.
  - vm_compute. reflexivity.
  - vm_compute. reflexivity.
Defined.

(* ===================================================================== *)
(** * Further properties: what the transfer route refuses *)
(* ===================================================================== *)

(** What a body that validated holds. *)
Lemma length_between_nonempty (hi : nat) (v : string) :
  Routes.length_between 1 hi v = true -> v <> ""%string.
Proof.
  unfold Routes.length_between. intros H Hv. subst v. discriminate.
Qed.

Lemma TransferRequest_init_ok (f t c : string) (a : Decimal)
    (request : Routes.TransferRequest) :
  Routes.TransferRequest_init f t c a = Ok request ->
  request = Routes.mkTransferRequest f t c a /\
  0 < coeff a /\ f <> ""%string /\ t <> ""%string /\ c <> ""%string.
Proof.
  unfold Routes.TransferRequest_init, Routes.validate_amount.
  destruct (Routes.length_between 1 255 f) eqn:Hf; [|discriminate].
  destruct (Routes.length_between 1 255 t) eqn:Ht; [|discriminate].
  destruct (Routes.length_between 1 10 c) eqn:Hc; [|discriminate].
  cbn [andb]. rewrite leb_zero.
  destruct (Z.leb_spec (coeff a) 0); [discriminate|].
  intros [= <-]. split; [reflexivity|]. split; [lia|].
  split; [exact (length_between_nonempty _ _ Hf)|].
  split; [exact (length_between_nonempty _ _ Ht)|exact (length_between_nonempty _ _ Hc)].
Qed.

Section Rejections.

Context {E : Engine}.

Lemma perform_checks {T : Type} {FC : FeeCalculator T} (fc : T)
    f t c a k now s :
  store_wf s ->
  (merchants s !! f = None ->
   ExecuteTransferUseCase.perform fc f t c a k now s =
   (Raise (GetBalanceUseCase.not_found f), s)) /\
  (is_Some (merchants s !! f) -> merchants s !! t = None ->
   ExecuteTransferUseCase.perform fc f t c a k now s =
   (Raise (GetBalanceUseCase.not_found t), s)) /\
  (is_Some (merchants s !! f) -> f = t ->
   ExecuteTransferUseCase.perform fc f t c a k now s =
   (Raise (InvalidTransferError "Cannot transfer to the same merchant"), s)) /\
  (is_Some (merchants s !! f) -> is_Some (merchants s !! t) -> f <> t ->
   coeff a <= 0 ->
   ExecuteTransferUseCase.perform fc f t c a k now s =
   (Raise (InvalidTransferError "Transfer amount must be positive"), s)).
Proof.
  intros Hwf. unfold ExecuteTransferUseCase.perform.
  rewrite (bind_eq _ _ _ _ _ (get_by_name_wf s f Hwf)).
  split; [|split; [|split]].
  - intros ->. reflexivity.
  - intros [x ->] Ht. cbn [fmap option_fmap option_map].
    rewrite (bind_eq _ _ _ _ _ (get_by_name_wf s t Hwf)), Ht. reflexivity.
  - intros [x Hf] <-. rewrite Hf. cbn [fmap option_fmap option_map].
    rewrite (bind_eq _ _ _ _ _ (get_by_name_wf s f Hwf)), Hf.
    cbn [fmap option_fmap option_map].
    rewrite bool_decide_eq_true_2 by reflexivity. reflexivity.
  - intros [x ->] [y Ht] Hft Ha. cbn [fmap option_fmap option_map].
    rewrite (bind_eq _ _ _ _ _ (get_by_name_wf s t Hwf)), Ht.
    cbn [fmap option_fmap option_map].
    rewrite bool_decide_eq_false_2 by exact Hft.
    rewrite leb_zero. destruct (Z.leb_spec (coeff a) 0); [reflexivity|lia].
Qed.

Lemma route_raises p (fc : PercentageFeeCalculator) request key now s e s1 :
  PyStr.truthy (PyStr.strip key) = true ->
  idempotency_keys s !! PyStr.strip key = None ->
  PercentageFeeCalculator_init p = Ok fc ->
  ExecuteTransferUseCase.perform fc
    (Routes.req_from_merchant request) (Routes.req_to_merchant request)
    (Routes.req_currency request) (Routes.req_amount request) (PyStr.strip key) now s =
    (Raise e, s1) ->
  Routes.execute_transfer p request key now s = (Raise (Routes.to_http e), s).
Proof.
  intros Hkey Hnone Hfc Hp.
  unfold Routes.execute_transfer, get_db.
  rewrite (handler_unfold _ _ _ _ _ Hkey), Hnone.
  unfold Routes.execute_and_tag, try_except.
  rewrite (bind_eq _ _ s fc s) by (unfold lift; now rewrite Hfc).
  rewrite (bind_raise _ _ s e s1) by (now rewrite execute_fresh).
  reflexivity.
Qed.

Lemma fee_calculator_init_ok (p : Decimal) :
  0 <= coeff p -> PercentageFeeCalculator_init p = Ok (mkPercentageFeeCalculator p).
Proof.
  intros Hp. unfold PercentageFeeCalculator_init. rewrite ltb_zero.
  destruct (Z.ltb_spec (coeff p) 0); [lia|reflexivity].
Qed.

(** X10. What POST /transfers refuses before any money moves, for a body
    that passed the validation of [TransferRequest], in the order of the
    checks and each time leaving the database as it was: a blank
    Idempotency-Key header is a 400; with a new key, a negative fee setting
    is a 400 for every request; an unknown sender is a 404 (whatever the
    receiver is), then an unknown receiver a 404, then a transfer to
    oneself a 400.  The amount of a validated body is positive, so the use
    case's own check of the amount does not fire. *)
Theorem transfer_route_rejections (p : Decimal) (f t c : string) (a : Decimal)
    (request : Routes.TransferRequest) (key : string) (now : datetime) (s : Store) :
  store_wf s ->
  Routes.TransferRequest_init f t c a = Ok request ->
  0 < coeff (Routes.req_amount request) /\
  (PyStr.truthy (PyStr.strip key) = false ->
   Routes.execute_transfer p request key now s =
   (Raise (HTTPException 400 "Idempotency-Key header is required"), s)) /\
  (PyStr.truthy (PyStr.strip key) = true ->
   idempotency_keys s !! PyStr.strip key = None ->
   (coeff p < 0 ->
    Routes.execute_transfer p request key now s =
    (Raise (HTTPException 400 "Fee percentage cannot be negative"), s)) /\
   (0 <= coeff p ->
    (merchants s !! f = None ->
     Routes.execute_transfer p request key now s =
     (Raise (HTTPException 404 ("Merchant '" +:+ f +:+ "' not found")), s)) /\
    (is_Some (merchants s !! f) -> merchants s !! t = None ->
     Routes.execute_transfer p request key now s =
     (Raise (HTTPException 404 ("Merchant '" +:+ t +:+ "' not found")), s)) /\
    (is_Some (merchants s !! f) -> f = t ->
     Routes.execute_transfer p request key now s =
     (Raise (HTTPException 400 "Cannot transfer to the same merchant"), s)))).
Proof.
  intros Hwf Hreq. apply TransferRequest_init_ok in Hreq as (-> & Ha & _).
  split; [exact Ha|]. split.
  - intros Hkey. unfold Routes.execute_transfer, get_db, Routes.execute_transfer_handler.
    rewrite Hkey. cbn [negb]. rewrite orb_true_r. reflexivity.
  - intros Hkey Hnone. split.
    + intros Hp. unfold Routes.execute_transfer, get_db.
      rewrite (handler_unfold _ _ _ _ _ Hkey), Hnone.
      unfold Routes.execute_and_tag, try_except, PercentageFeeCalculator_init.
      rewrite ltb_zero. destruct (Z.ltb_spec (coeff p) 0); [|lia]. reflexivity.
    + intros Hp. pose proof (fee_calculator_init_ok p Hp) as Hfc.
      destruct (perform_checks (mkPercentageFeeCalculator p) f t c a
                  (PyStr.strip key) now s Hwf) as (H1 & H2 & H3 & _).
      split; [|split].
      * intros Hf.
        exact (route_raises _ _ (Routes.mkTransferRequest f t c a) _ _ _ _ _
                 Hkey Hnone Hfc (H1 Hf)).
      * intros Hf Ht.
        exact (route_raises _ _ (Routes.mkTransferRequest f t c a) _ _ _ _ _
                 Hkey Hnone Hfc (H2 Hf Ht)).
      * intros Hf Hft.
        exact (route_raises _ _ (Routes.mkTransferRequest f t c a) _ _ _ _ _
                 Hkey Hnone Hfc (H3 Hf Hft)).
Qed.

End Rejections.

Lemma transfer_route_rejections_witness :
  let s := Demo.alice_bob Demo.d1_0 in
  Routes.execute_transfer Demo.percent
    (Routes.mkTransferRequest "alice" "bob" "BTC" Demo.d0_00005) "   " 3 s =
    (Raise (HTTPException 400 "Idempotency-Key header is required"), s) /\
  Routes.execute_transfer Demo.percent
    (Routes.mkTransferRequest "carol" "dave" "BTC" Demo.d0_00005) "key-1" 3 s =
    (Raise (HTTPException 404 "Merchant 'carol' not found"), s) /\
  Routes.execute_transfer Demo.percent
    (Routes.mkTransferRequest "alice" "alice" "BTC" Demo.d0_00005) "key-1" 3 s =
    (Raise (HTTPException 400 "Cannot transfer to the same merchant"), s) /\
  Routes.execute_transfer (mkDecimal (-1) 0)
    (Routes.mkTransferRequest "alice" "bob" "BTC" Demo.d0_00005) "key-1" 3 s =
    (Raise (HTTPException 400 "Fee percentage cannot be negative"), s).
Proof.
  pose proof (fun p f t key =>
                transfer_route_rejections (E := reference_engine) p f t "BTC" Demo.d0_00005
                  (Routes.mkTransferRequest f t "BTC" Demo.d0_00005) key 3
                  (Demo.alice_bob Demo.d1_0) (alice_bob_wf _)) as H.
  split; [|split; [|split]].
  - refine (proj1 (proj2 (H Demo.percent "alice"%string "bob"%string "   "%string _)) _).
    + vm_compute. reflexivity.
    + vm_compute. reflexivity.
  - refine (proj1 (proj2 (proj2 (proj2 (H Demo.percent "carol"%string "dave"%string
                                         "key-1"%string _)) _ _) _) _).
    + vm_compute. reflexivity.
    + vm_compute. reflexivity.
    + vm_compute. reflexivity.
    + cbn. lia.
    + vm_compute. reflexivity.
  - refine (proj2 (proj2 (proj2 (proj2 (proj2 (H Demo.percent "alice"%string "alice"%string
                                                "key-1"%string _)) _ _) _)) _ _).
    + vm_compute. reflexivity.
    + vm_compute. reflexivity.
    + vm_compute. reflexivity.
    + cbn. lia.
    + exists 1. vm_compute. reflexivity.
    + reflexivity.
  - refine (proj1 (proj2 (proj2 (H (mkDecimal (-1) 0) "alice"%string "bob"%string
                                  "key-1"%string _)) _ _) _).
    + vm_compute. reflexivity.
    + vm_compute. reflexivity.
    + vm_compute. reflexivity.
    + cbn. lia.
Defined.

(* ===================================================================== *)
(** * Further properties: merchants and their balances *)
(* ===================================================================== *)

Lemma build_balances_wf (rows : list (string * string * Decimal)) :
  Forall (fun r => r.1.2 <> ""%string /\ 0 <= coeff r.2) rows ->
  BalanceRepository.build_balances rows =
  Ok (map (fun r => mkBalance r.1.1 r.1.2 r.2) rows).
Proof.
  induction 1 as [|[[m c] a] rows [Hc Ha] _ IH]; [reflexivity|].
  cbn in Hc, Ha. cbn [BalanceRepository.build_balances].
  rewrite (Balance_init_ok m c a Hc Ha), IH. reflexivity.
Qed.

Lemma CreateMerchantRequest_init_ok (n c : string) (ib : Decimal)
    (request : Routes.CreateMerchantRequest) :
  Routes.CreateMerchantRequest_init n c ib = Ok request ->
  request = Routes.mkCreateMerchantRequest n c ib /\
  0 <= coeff ib /\ n <> ""%string /\ c <> ""%string.
Proof.
  unfold Routes.CreateMerchantRequest_init, Routes.validate_balance.
  destruct (Routes.length_between 1 255 n) eqn:Hn; [|discriminate].
  destruct (Routes.length_between 1 10 c) eqn:Hc; [|discriminate].
  cbn [andb]. rewrite ltb_zero.
  destruct (Z.ltb_spec (coeff ib) 0); [discriminate|].
  intros [= <-]. split; [reflexivity|]. split; [lia|].
  split; [exact (length_between_nonempty _ _ Hn)|exact (length_between_nonempty _ _ Hc)].
Qed.

Section Balances.

Context {E : Engine} {L : EngineLaws E}.

(** The rows of a merchant a SELECT returns. *)
Lemma selected_rows (s : Store) (n : string) (r : string * string * Decimal) :
  r ∈ filter (fun r : string * string * Decimal => r.1.1 = n)
        (select_balances (balances s)) <->
  r.1.1 = n /\ balances s !! r.1 = Some r.2.
Proof.
  destruct r as [[m c] a].
  rewrite list_elem_of_filter, (select_balances_perm (balances s)), elem_of_map_to_list.
  reflexivity.
Qed.

Lemma get_all_for_merchant_wf (s : Store) (n : string) :
  store_wf s ->
  BalanceRepository.get_all_for_merchant n s =
  (Ok (map (fun r => mkBalance r.1.1 r.1.2 r.2)
         (filter (fun r => r.1.1 = n) (select_balances (balances s)))), s).
Proof.
  intros Hwf. unfold BalanceRepository.get_all_for_merchant.
  rewrite build_balances_wf; [reflexivity|].
  apply Forall_forall. intros [[m c] a] Hin.
  apply selected_rows in Hin as [_ Hin]. cbn in *.
  exact (wf_balance _ Hwf _ _ _ Hin).
Qed.

Lemma listed_rows (s : Store) (n : string) :
  listed s n
    (map (fun b => (balance_currency b, Dec.str (balance_amount b)))
       (map (fun r => mkBalance r.1.1 r.1.2 r.2)
          (filter (fun r => r.1.1 = n) (select_balances (balances s))))).
Proof.
  set (rows := filter (fun r : string * string * Decimal => r.1.1 = n)
                 (select_balances (balances s))).
  pose proof (selected_rows s n) as Hrows. fold rows in Hrows.
  split.
  - rewrite <- !list_fmap_compose.
    apply NoDup_fmap_2_strong.
    + intros [[m c] a] [[m' c'] a'] Hx Hy Heq. cbn in Heq.
      apply Hrows in Hx as [Hm Hx], Hy as [Hm' Hy]. cbn in *. subst m m' c'.
      rewrite Hx in Hy. now injection Hy as ->.
    + apply NoDup_filter. rewrite (select_balances_perm (balances s)).
      apply NoDup_map_to_list.
  - intros c x. rewrite <- list_fmap_compose. rewrite list_elem_of_fmap. split.
    + intros ([[m c'] a] & Heq & Hin). cbn in Heq. injection Heq as -> ->.
      apply Hrows in Hin as [Hm Hin]. cbn in *. subst m. eauto.
    + intros (a & Ha & ->). exists (n, c, a). split; [reflexivity|].
      apply Hrows. auto.
Qed.

Lemma balances_listed_run (s : Store) (n : string) (t : datetime) :
  store_wf s ->
  merchants s !! n = Some t ->
  exists l,
    listed s n l /\
    GetBalanceUseCase.execute n None s =
      (Ok (<["merchant_name"%string := VStr n]>
           (<["balances"%string := VBalances l]> ∅)), s) /\
    GetMerchantUseCase.execute n s =
      (Ok (<["merchant_name"%string := VStr n]>
           (<["created_at"%string := VIso t]>
            (<["balances"%string := VBalances l]> ∅))), s).
Proof.
  intros Hwf Hn. eexists. split; [apply (listed_rows s n)|]. split.
  - unfold GetBalanceUseCase.execute.
    rewrite (bind_eq _ _ _ _ _ (get_by_name_wf s n Hwf)), Hn.
    cbn [fmap option_fmap option_map].
    rewrite (bind_eq _ _ _ _ _ (get_all_for_merchant_wf s n Hwf)). reflexivity.
  - unfold GetMerchantUseCase.execute.
    rewrite (bind_eq _ _ _ _ _ (get_by_name_wf s n Hwf)), Hn.
    cbn [fmap option_fmap option_map].
    rewrite (bind_eq _ _ _ _ _ (get_all_for_merchant_wf s n Hwf)). reflexivity.
Qed.

(** X12. The two answers that list a merchant's balances list exactly the
    rows of that merchant, each currency once with the text of its amount:
    [GetBalanceUseCase.execute] without a currency, and
    [GetMerchantUseCase.execute], which adds the time the merchant was
    created.  Neither changes the session. *)
Theorem merchant_balances_listed (s : Store) (n : string) (t : datetime) :
  store_wf s ->
  merchants s !! n = Some t ->
  exists l,
    listed s n l /\
    GetBalanceUseCase.execute n None s =
      (Ok (<["merchant_name"%string := VStr n]>
           (<["balances"%string := VBalances l]> ∅)), s) /\
    GetMerchantUseCase.execute n s =
      (Ok (<["merchant_name"%string := VStr n]>
           (<["created_at"%string := VIso t]>
            (<["balances"%string := VBalances l]> ∅))), s).
Proof. exact (balances_listed_run s n t). Qed.

Lemma no_rows_of_unknown (s : Store) (n : string) :
  store_wf s -> merchants s !! n = None ->
  filter (fun r : string * string * Decimal => r.1.1 = n) (select_balances (balances s)) = [].
Proof.
  intros Hwf Hn.
  destruct (filter _ _) as [|r l] eqn:Hf; [reflexivity|]. exfalso.
  assert (Hin : r ∈ filter (fun r : string * string * Decimal => r.1.1 = n)
                      (select_balances (balances s)))
    by (rewrite Hf; apply elem_of_cons; now left).
  apply selected_rows in Hin as [Hm Hin]. destruct r as [[m c] a]. cbn in *. subst m.
  destruct (wf_balance_owner _ Hwf _ _ _ Hin) as [x Hx]. congruence.
Qed.

Lemma create_route_raises request now s e s1 :
  CreateMerchantUseCase.execute (Routes.cm_merchant_name request)
    (Routes.cm_currency request) (Routes.cm_initial_balance request) now s = (Raise e, s1) ->
  Routes.create_merchant_handler request now s = (Raise (Routes.create_to_http e), s1) /\
  Routes.create_merchant request now s = (Raise (Routes.create_to_http e), s).
Proof.
  intros He.
  assert (Hh : Routes.create_merchant_handler request now s =
               (Raise (Routes.create_to_http e), s1)).
  { unfold Routes.create_merchant_handler, try_except.
    rewrite (bind_raise _ _ _ _ _ He). reflexivity. }
  split; [exact Hh|]. unfold Routes.create_merchant, get_db. rewrite Hh. reflexivity.
Qed.

(** X13. What POST /merchants refuses for a body that passed the
    validation of [CreateMerchantRequest]: a name that is taken, with a 400
    (not a 409) that leaves the database as it was.  The use case's three
    other refusals do not fire for such a body: its initial balance is not
    negative and neither its name nor its currency is empty. *)
Theorem create_merchant_route_rejections (n c : string) (ib : Decimal)
    (request : Routes.CreateMerchantRequest) (now : datetime) (s : Store) :
  store_wf s ->
  Routes.CreateMerchantRequest_init n c ib = Ok request ->
  (0 <= coeff (Routes.cm_initial_balance request) /\
   Routes.cm_merchant_name request <> ""%string /\
   Routes.cm_currency request <> ""%string) /\
  (is_Some (merchants s !! n) ->
   Routes.create_merchant request now s =
   (Raise (HTTPException 400 ("Merchant '" +:+ n +:+ "' already exists")), s)).
Proof.
  intros Hwf Hreq. apply CreateMerchantRequest_init_ok in Hreq as (-> & Hib & Hn & Hc).
  split; [auto|].
  intros [x Hx].
  apply (create_route_raises (Routes.mkCreateMerchantRequest n c ib) now s
           (ValueError ("Merchant '" +:+ n +:+ "' already exists")) s).
  cbn [Routes.cm_merchant_name Routes.cm_initial_balance Routes.cm_currency].
  unfold CreateMerchantUseCase.execute. rewrite ltb_zero.
  destruct (Z.ltb_spec (coeff ib) 0); [lia|].
  rewrite (bind_eq _ _ _ _ _ (get_by_name_wf s n Hwf)), Hx. reflexivity.
Qed.

(** X14. What POST /merchants answers when it accepts: on a well-formed
    database, a new non-empty name with a balance that is not negative (and
    a non-empty currency if the balance is positive) is registered with the
    clock reading as its creation time; a positive balance the column
    accepts becomes the merchant's one balance row, on eight places, and
    is listed in the answer as the row holds it (a balance with at most
    eight fractional digits and below a million is held as it is); a zero
    balance creates no row and the answer lists no balance. *)
Theorem create_merchant_route_answer (request : Routes.CreateMerchantRequest)
    (now : datetime) (s : Store) (v : Decimal) :
  let n := Routes.cm_merchant_name request in
  let c := Routes.cm_currency request in
  let ib := Routes.cm_initial_balance request in
  store_wf s -> n <> ""%string -> merchants s !! n = None -> 0 <= coeff ib ->
  (0 < coeff ib -> c <> ""%string /\ numeric ib = Ok v) ->
  Routes.create_merchant request now s =
  (Ok (<["merchant_name"%string := VStr n]>
       (<["created_at"%string := VIso now]>
        (<["balances"%string :=
             VBalances (if 0 <? coeff ib then [(c, Dec.str v)] else [])]> ∅))),
   mkStore (<[n := now]> (merchants s))
     (if 0 <? coeff ib then <[(n, c) := v]> (balances s) else balances s)
     (transfers s) (idempotency_keys s)) /\
  (0 < coeff ib -> exp v = -8 /\ (small ib -> v = mkDecimal (units ib) (-8))).
Proof.
  destruct request as [n c ib]. cbn [Routes.cm_merchant_name
    Routes.cm_initial_balance Routes.cm_currency]. cbn zeta.
  intros Hwf Hn Hnone Hib Hc.
  assert (Hc' : 0 < coeff ib -> c <> ""%string /\ numeric ib = Ok v /\ 0 <= coeff v).
  { intros Hpos. destruct (Hc Hpos) as [Hc1 Hv]. split; [exact Hc1|].
    split; [exact Hv|]. exact (numeric_nonneg _ _ Hv Hib). }
  split.
  2: { intros Hpos. destruct (Hc Hpos) as [_ Hv]. split; [exact (numeric_scale _ _ Hv)|].
       intros Hs. rewrite (numeric_small ib Hs) in Hv. now injection Hv as <-. }
  pose proof (create_merchant_run n c ib now s v Hwf Hn Hnone Hib Hc') as Hrun.
  set (s1 := mkStore (<[n := now]> (merchants s))
               (if 0 <? coeff ib then <[(n, c) := v]> (balances s) else balances s)
               (transfers s) (idempotency_keys s)) in *.
  assert (Hwf1 : store_wf s1).
  { pose proof (create_merchant_wf n c ib now s Hwf) as H1.
    now rewrite (get_db_snd _ _ _ _ Hrun) in H1. }
  assert (Hrow : balances s !! (n, c) = None).
  { destruct (balances s !! (n, c)) as [x|] eqn:Hx; [|reflexivity].
    destruct (wf_balance_owner _ Hwf _ _ _ Hx) as [y Hy]. congruence. }
  assert (Hrows : filter (fun r : string * string * Decimal => r.1.1 = n)
                    (select_balances (balances s1)) =
                  if 0 <? coeff ib then [((n, c), v)] else []).
  { unfold s1. cbn [balances].
    destruct (0 <? coeff ib); [|now apply no_rows_of_unknown].
    apply Permutation_singleton_r.
    rewrite (select_balances_perm (<[(n, c) := v]> (balances s))).
    rewrite (map_to_list_insert _ _ _ Hrow).
    rewrite filter_cons_True by reflexivity.
    rewrite <- (select_balances_perm (balances s)).
    now rewrite (no_rows_of_unknown s n Hwf Hnone). }
  assert (Hget : GetMerchantUseCase.execute n s1 =
                 (Ok (<["merchant_name"%string := VStr n]>
                      (<["created_at"%string := VIso now]>
                       (<["balances"%string :=
                            VBalances (if 0 <? coeff ib then [(c, Dec.str v)] else [])]> ∅))),
                  s1)).
  { unfold GetMerchantUseCase.execute.
    rewrite (bind_eq _ _ _ _ _ (get_by_name_wf s1 n Hwf1)).
    replace (merchants s1 !! n) with (Some now)
      by (unfold s1; cbn [merchants]; now rewrite lookup_insert_eq).
    cbn [fmap option_fmap option_map].
    rewrite (bind_eq _ _ _ _ _ (get_all_for_merchant_wf s1 n Hwf1)).
    rewrite Hrows.
    destruct (0 <? coeff ib); reflexivity. }
  unfold Routes.create_merchant, get_db, Routes.create_merchant_handler, try_except.
  cbn [Routes.cm_merchant_name Routes.cm_initial_balance Routes.cm_currency].
  rewrite (bind_eq _ _ _ _ _ Hrun).
  rewrite (bind_eq _ _ _ _ _ Hget).
  reflexivity.
Qed.

End Balances.

Lemma merchant_balances_listed_witness :
  exists l,
    listed Sample.ledger "bob" l /\
    GetBalanceUseCase.execute "bob" None Sample.ledger =
      (Ok (<["merchant_name"%string := VStr "bob"]>
           (<["balances"%string := VBalances l]> ∅)), Sample.ledger) /\
    GetMerchantUseCase.execute "bob" Sample.ledger =
      (Ok (<["merchant_name"%string := VStr "bob"]>
           (<["created_at"%string := VIso 2]>
            (<["balances"%string := VBalances l]> ∅))), Sample.ledger).
Proof.
  apply (merchant_balances_listed (L := reference_laws) Sample.ledger "bob" 2 sample_wf).
  vm_compute. reflexivity.
Defined.

Lemma create_merchant_route_rejections_witness :
  let s := Demo.alice_bob Demo.d1_0 in
  let request := Routes.mkCreateMerchantRequest "alice" "ETH" Demo.d1_0 in
  (0 <= coeff (Routes.cm_initial_balance request) /\
   Routes.cm_merchant_name request <> ""%string /\
   Routes.cm_currency request <> ""%string) /\
  (is_Some (merchants s !! "alice"%string) ->
   Routes.create_merchant request 9 s =
   (Raise (HTTPException 400 "Merchant 'alice' already exists"), s)).
Proof.
  apply (create_merchant_route_rejections (E := reference_engine) "alice" "ETH" Demo.d1_0
           (Routes.mkCreateMerchantRequest "alice" "ETH" Demo.d1_0) 9
           (Demo.alice_bob Demo.d1_0) (alice_bob_wf _)).
  vm_compute. reflexivity.
Defined.

Lemma create_merchant_route_answer_witness :
  let s := serve Demo.percent Sample.bob_registers empty_store in
  Routes.create_merchant (Routes.mkCreateMerchantRequest "alice" "BTC" Demo.d1_0) 1 s =
  (Ok (<["merchant_name"%string := VStr "alice"]>
       (<["created_at"%string := VIso 1]>
        (<["balances"%string := VBalances [("BTC"%string, "1.00000000"%string)]]> ∅))),
   mkStore (<["alice"%string := 1]> (merchants s))
     (<[("alice", "BTC")%string := Demo.n1_0]> (balances s))
     (transfers s) (idempotency_keys s)) /\
  (0 < coeff Demo.d1_0 ->
   exp Demo.n1_0 = -8 /\ (small Demo.d1_0 -> Demo.n1_0 = mkDecimal (units Demo.d1_0) (-8))).
Proof.
  intros s.
  apply (create_merchant_route_answer (L := reference_laws)
           (Routes.mkCreateMerchantRequest "alice" "BTC" Demo.d1_0) 1 s Demo.n1_0).
  - exact (reachable_wf Demo.percent _ (reachable_serve _ _ _ (reachable_empty _))).
  - discriminate.
  - vm_compute. reflexivity.
  - cbn. lia.
  - intros _. split; [discriminate|vm_compute; reflexivity].
Defined.

(* ===================================================================== *)
(** * Further properties: listing the transfers *)
(* ===================================================================== *)

Lemma sorted_desc_drop (n : nat) (l : list Transfer) :
  sorted_desc l -> sorted_desc (drop n l).
Proof.
  unfold sorted_desc. revert l. induction n as [|n IH]; intros l Hs; [exact Hs|].
  destruct l as [|x l]; [constructor|]. cbn.
  apply IH. now apply StronglySorted_inv in Hs.
Qed.

Lemma sorted_desc_take (n : nat) (l : list Transfer) :
  sorted_desc l -> sorted_desc (take n l).
Proof.
  unfold sorted_desc. revert n. induction l as [|x l IH]; intros n Hs.
  - destruct n; constructor.
  - destruct n as [|n]; [constructor|]. cbn.
    apply StronglySorted_inv in Hs as [Hs Hx].
    constructor; [now apply IH|now apply Forall_take].
Qed.

Lemma where_spec (field : Transfer -> string) (arg : option string)
    (rows : list Transfer) (r : Transfer) :
  r ∈ TransferRepository.where_ field arg rows <-> r ∈ rows /\ passes field arg r.
Proof.
  unfold TransferRepository.where_, passes.
  destruct arg as [v|]; [|tauto].
  destruct v as [|ch v]; cbn [PyStr.truthy].
  - split; [auto|tauto].
  - rewrite list_elem_of_filter. split.
    + intros [Hf Hin]. auto.
    + intros [Hin [Hv|Hf]]; [discriminate|auto].
Qed.

Lemma build_transfers_ok (q ts : list Transfer) :
  TransferRepository.build_transfers q = Ok ts -> ts = q.
Proof.
  revert ts. induction q as [|r q IH]; cbn; intros ts Hb.
  - now injection Hb as <-.
  - destruct (TransferRepository.entity r) as [t|] eqn:He; [|discriminate].
    destruct (TransferRepository.build_transfers q) as [ts'|]; [|discriminate].
    injection Hb as <-. rewrite (IH ts' eq_refl). f_equal.
    unfold TransferRepository.entity in He.
    apply Transfer_init_inv in He as (_ & _ & _ & _ & ->). now destruct r.
Qed.

Lemma build_transfers_valid (q : list Transfer) :
  Forall (fun r => TransferRepository.entity r = Ok r) q ->
  TransferRepository.build_transfers q = Ok q.
Proof.
  induction 1 as [|r q Hr _ IH]; cbn; [reflexivity|]. now rewrite Hr, IH.
Qed.

Lemma TransferListItems_ok (ts : list Transfer) :
  Forall (fun r => is_Some (id r)) ts ->
  Routes.TransferListItems (map ListTransfersUseCase.item ts) =
  Ok (map ListTransfersUseCase.item ts).
Proof.
  induction 1 as [|r ts [i Hi] _ IH]; [reflexivity|].
  cbn [map Routes.TransferListItems]. rewrite IH.
  replace (Routes.TransferListItem (ListTransfersUseCase.item r))
    with (Ok (ListTransfersUseCase.item r)); [reflexivity|].
  unfold ListTransfersUseCase.item. rewrite Hi. reflexivity.
Qed.

Section Pages.

Context {E : Engine} {L : EngineLaws E}.

Lemma order_by_sorted (l : list Transfer) :
  sorted_desc (TransferRepository.order_by_created_at_desc l).
Proof. apply order_by_desc_sorted. Qed.

Lemma order_by_perm (l : list Transfer) :
  TransferRepository.order_by_created_at_desc l ≡ₚ l.
Proof. apply order_by_desc_perm. Qed.

(** The rows a listing selects, before they become entities. *)
Lemma list_unfold fm tm cu limit offset s :
  TransferRepository.list fm tm cu limit offset s =
  (TransferRepository.build_transfers
     (take limit (drop offset
        (TransferRepository.order_by_created_at_desc
           (TransferRepository.where_ currency cu
              (TransferRepository.where_ to_merchant tm
                 (TransferRepository.where_ from_merchant fm (transfers s))))))), s).
Proof. reflexivity. Qed.

Lemma list_page_facts (fm tm cu : option string) (limit offset : nat)
    (s s' : Store) (ts : list Transfer) :
  TransferRepository.list fm tm cu limit offset s = (Ok ts, s') ->
  s' = s /\
  (length ts <= limit)%nat /\
  sorted_desc ts /\
  Forall (fun r => r ∈ transfers s /\ passes from_merchant fm r /\
                   passes to_merchant tm r /\ passes currency cu r) ts.
Proof.
  rewrite list_unfold. intros Hl. injection Hl as Hb <-.
  apply build_transfers_ok in Hb. subst ts.
  split; [reflexivity|]. split; [rewrite length_take; lia|]. split.
  - apply sorted_desc_take, sorted_desc_drop, order_by_sorted.
  - apply Forall_take, Forall_drop. apply Forall_forall. intros r Hr.
    rewrite order_by_perm in Hr.
    apply where_spec in Hr as [Hr Hcu].
    apply where_spec in Hr as [Hr Htm].
    apply where_spec in Hr as [Hr Hfm]. auto.
Qed.

(** X15. A page of [TransferRepository.list]: the session is not changed,
    the page has at most [limit] transfers, newest first, each of them a
    row of the log that passes the three filters (a filter that is absent
    or empty lets every row pass). *)
Theorem transfer_list_page (fm tm cu : option string) (limit offset : nat)
    (s s' : Store) (ts : list Transfer) :
  TransferRepository.list fm tm cu limit offset s = (Ok ts, s') ->
  s' = s /\
  (length ts <= limit)%nat /\
  sorted_desc ts /\
  Forall (fun r => r ∈ transfers s /\ passes from_merchant fm r /\
                   passes to_merchant tm r /\ passes currency cu r) ts.
Proof. exact (list_page_facts fm tm cu limit offset s s' ts). Qed.

Lemma list_run p s fm tm cu limit offset :
  reachable p s ->
  TransferRepository.list fm tm cu limit offset s =
  (Ok (take limit (drop offset
         (TransferRepository.order_by_created_at_desc
            (TransferRepository.where_ currency cu
               (TransferRepository.where_ to_merchant tm
                  (TransferRepository.where_ from_merchant fm (transfers s))))))), s).
Proof.
  intros Hr. rewrite list_unfold. f_equal.
  apply build_transfers_valid, Forall_take, Forall_drop.
  apply Forall_forall. intros r Hin. rewrite order_by_perm in Hin.
  apply where_spec in Hin as [Hin _].
  apply where_spec in Hin as [Hin _].
  apply where_spec in Hin as [Hin _].
  pose proof (inv_rows _ (reachable_ledger_inv _ _ Hr)) as Hrows.
  exact (proj1 (Forall_forall _ _) Hrows r Hin).
Qed.

(** X17. GET /transfers on a reachable database always answers (it never
    is a 500) and changes nothing; the answer holds the items of the page
    [TransferRepository.list] selects, and its [total] is the number of
    items on that page, which is at most [limit], not the number of
    transfers that match. *)
Theorem list_transfers_route_total (p : Decimal) (s : Store)
    (fm tm cu : option string) (limit offset : nat) :
  reachable p s ->
  exists ts,
    TransferRepository.list fm tm cu limit offset s = (Ok ts, s) /\
    Routes.list_transfers fm tm cu limit offset s =
      (Ok (Routes.mkTransferListResponse (map ListTransfersUseCase.item ts) (length ts)), s) /\
    (length ts <= limit)%nat.
Proof.
  intros Hr. pose proof (list_run p s fm tm cu limit offset Hr) as Hl.
  eexists. split; [exact Hl|].
  pose proof (list_page_facts _ _ _ _ _ _ _ _ Hl) as (_ & Hlen & _ & Hin).
  split; [|exact Hlen].
  unfold Routes.list_transfers, get_db, try_except, ListTransfersUseCase.execute.
  rewrite (bind_eq _ _ s _ s)
    by (rewrite (bind_eq _ _ _ _ _ Hl); reflexivity).
  unfold bind at 1, lift. rewrite TransferListItems_ok.
  - rewrite length_map. reflexivity.
  - eapply Forall_impl; [exact Hin|]. cbn. intros r [Hrow _].
    pose proof (inv_ids _ (reachable_ledger_inv _ _ Hr)) as Hids.
    exact (proj1 (Forall_forall _ _) Hids r Hrow).
Qed.

End Pages.

Lemma transfer_list_page_witness :
  (length [Sample.row] <= 10)%nat /\
  sorted_desc [Sample.row] /\
  Forall (fun r => r ∈ transfers Sample.ledger /\
                   passes from_merchant (Some "alice"%string) r /\
                   passes to_merchant None r /\
                   passes currency (Some ""%string) r) [Sample.row].
Proof.
  apply (transfer_list_page (L := reference_laws)
           (Some "alice"%string) None (Some ""%string) 10 0
           Sample.ledger Sample.ledger [Sample.row]).
  vm_compute. reflexivity.
Defined.

Lemma list_transfers_route_total_witness :
  exists ts,
    TransferRepository.list (Some "alice"%string) None None 1 0 Sample.ledger =
      (Ok ts, Sample.ledger) /\
    Routes.list_transfers (Some "alice"%string) None None 1 0 Sample.ledger =
      (Ok (Routes.mkTransferListResponse (map ListTransfersUseCase.item ts) (length ts)),
       Sample.ledger) /\
    (length ts <= 1)%nat.
Proof.
  exact (list_transfers_route_total (L := reference_laws) Demo.percent Sample.ledger
           (Some "alice"%string) None None 1 0 sample_reachable).
Defined.

(* ===================================================================== *)
(** * Further properties: the routes that read *)
(* ===================================================================== *)

Section ReadRoutes.

Context {E : Engine} {L : EngineLaws E}.

(** X18. The two GET routes of a merchant on a well-formed database: an
    unknown merchant is a 404 with the name in the detail; a known one is
    always answered.  GET balance answers with the four fields of its
    model: with a non-empty currency the amount of that row ("0" without a
    row) and no list, otherwise the list of the merchant's rows and neither
    currency nor amount.  Nothing is written. *)
Theorem read_routes (s : Store) (n : string) :
  store_wf s ->
  (merchants s !! n = None ->
   Routes.get_merchant n s =
     (Raise (HTTPException 404 ("Merchant '" +:+ n +:+ "' not found")), s) /\
   forall co, Routes.get_merchant_balance n co s =
     (Raise (HTTPException 404 ("Merchant '" +:+ n +:+ "' not found")), s)) /\
  (forall t, merchants s !! n = Some t ->
   exists l, listed s n l /\
     Routes.get_merchant n s =
       (Ok (<["merchant_name"%string := VStr n]>
            (<["created_at"%string := VIso t]>
             (<["balances"%string := VBalances l]> ∅))), s) /\
     (forall co, co = None \/ co = Some ""%string ->
        Routes.get_merchant_balance n co s =
          (Ok (<["merchant_name"%string := VStr n]>
               (<["currency"%string := VNone]>
                (<["amount"%string := VNone]>
                 (<["balances"%string := VBalances l]> ∅)))), s)) /\
     (forall c, c <> ""%string ->
        Routes.get_merchant_balance n (Some c) s =
          (Ok (<["merchant_name"%string := VStr n]>
               (<["currency"%string := VStr c]>
                (<["amount"%string :=
                     VStr (match balances s !! (n, c) with
                           | Some a => Dec.str a
                           | None => "0"%string
                           end)]>
                 (<["balances"%string := VNone]> ∅)))), s))).
Proof.
  intros Hwf. split.
  - intros Hn. split.
    + unfold Routes.get_merchant, get_db, try_except, GetMerchantUseCase.execute.
      rewrite (bind_raise _ _ s (GetBalanceUseCase.not_found n) s); [reflexivity|].
      rewrite (bind_eq _ _ _ _ _ (get_by_name_wf s n Hwf)), Hn. reflexivity.
    + intros co. unfold Routes.get_merchant_balance, get_db, try_except.
      rewrite (bind_raise _ _ s (GetBalanceUseCase.not_found n) s); [reflexivity|].
      now apply get_balance_not_found.
  - intros t Hn.
    destruct (balances_listed_run s n t Hwf Hn) as (l & Hl & Hb & Hm).
    exists l. split; [exact Hl|]. split; [|split].
    + unfold Routes.get_merchant, get_db, try_except.
      rewrite (bind_eq _ _ _ _ _ Hm). reflexivity.
    + intros co Hco.
      assert (Hb' : GetBalanceUseCase.execute n co s =
                    (Ok (<["merchant_name"%string := VStr n]>
                         (<["balances"%string := VBalances l]> ∅)), s)).
      { destruct Hco as [->| ->]; [exact Hb|]. rewrite <- Hb. reflexivity. }
      unfold Routes.get_merchant_balance, get_db, try_except.
      rewrite (bind_eq _ _ _ _ _ Hb'). reflexivity.
    + intros c Hc.
      pose proof (get_balance_named s n c Hwf Hc) as Hg. rewrite Hn in Hg.
      unfold Routes.get_merchant_balance, get_db, try_except.
      rewrite (bind_eq _ _ _ _ _ Hg).
      destruct (balances s !! (n, c)); reflexivity.
Qed.

End ReadRoutes.

Lemma read_routes_witness :
  Routes.get_merchant "carol" Sample.ledger =
    (Raise (HTTPException 404 "Merchant 'carol' not found"), Sample.ledger) /\
  Routes.get_merchant_balance "bob" (Some "EUR"%string) Sample.ledger =
    (Ok (<["merchant_name"%string := VStr "bob"]>
         (<["currency"%string := VStr "EUR"]>
          (<["amount"%string := VStr "0"]>
           (<["balances"%string := VNone]> ∅)))), Sample.ledger).
Proof.
  pose proof sample_wf as Hwf.
  split.
  - refine (proj1 (proj1 (read_routes (L := reference_laws) Sample.ledger "carol" Hwf) _)).
    vm_compute. reflexivity.
  - destruct (proj2 (read_routes (L := reference_laws) Sample.ledger "bob" Hwf) 2)
      as (l & _ & _ & _ & Hc).
    { vm_compute. reflexivity. }
    rewrite (Hc "EUR"%string) by discriminate.
    replace (balances Sample.ledger !! ("bob", "EUR")%string) with (@None Decimal)
      by (vm_compute; reflexivity).
    reflexivity.
Defined.

(* ===================================================================== *)
(** * Further properties: the fee and the answers after a transfer *)
(* ===================================================================== *)

Lemma fix_context_nonneg (d : Decimal) :
  0 <= coeff d -> 0 <= coeff (Dec.fix_context d).
Proof.
  intros Hd. apply Z.sgn_nonneg. rewrite fix_context_sgn. now apply Z.sgn_nonneg.
Qed.

Lemma div_nonneg (x y q : Decimal) :
  Dec.div x y = Ok q -> 0 <= coeff x -> 0 < coeff y -> 0 <= coeff q.
Proof.
  unfold Dec.div. intros Hd Hx Hy.
  destruct (Z.eqb_spec (coeff y) 0) as [|_]; [lia|].
  destruct (Z.eqb_spec (coeff x) 0) as [|Hx0].
  { injection Hd as <-. apply fix_context_nonneg. cbn. lia. }
  revert Hd.
  set (shift := Dec.ndigits (Z.abs (coeff y)) - Dec.ndigits (Z.abs (coeff x)) + Dec.prec + 1).
  set (dv := if 0 <=? shift then _ else _).
  assert (Hq : 0 <= fst dv).
  { unfold dv. destruct (Z.leb_spec 0 shift).
    - change (fst (Z.div_eucl (Z.abs (coeff x) * 10 ^ shift) (Z.abs (coeff y))))
        with (Z.abs (coeff x) * 10 ^ shift / Z.abs (coeff y)).
      apply Z.div_pos; [|lia].
      apply Z.mul_nonneg_nonneg; [lia|]. apply Z.pow_nonneg. lia.
    - change (fst (Z.div_eucl (Z.abs (coeff x)) (Z.abs (coeff y) * 10 ^ (- shift))))
        with (Z.abs (coeff x) / (Z.abs (coeff y) * 10 ^ (- shift))).
      apply Z.div_pos; [lia|].
      apply Z.mul_pos_pos; [lia|]. apply pow10_pos. lia. }
  destruct dv as [q0 r]. cbn [fst] in Hq.
  set (st := if r =? 0 then _ else _).
  assert (Hc : 0 <= fst st).
  { unfold st. destruct (r =? 0).
    - match goal with
      | |- 0 <= fst (Dec.strip_zeros ?fuel ?c ?e) =>
          destruct (strip_zeros_spec fuel c e) as (j & Hj & Hcj & _)
      end.
      pose proof (pow10_pos j ltac:(lia)) as Hpow.
      apply (Z.mul_le_mono_pos_r _ _ (10 ^ j) Hpow). rewrite <- Hcj. lia.
    - cbn [fst]. destruct (q0 mod 5 =? 0); lia. }
  destruct st as [c e']. cbn [fst] in Hc.
  intros Hd. injection Hd as <-. apply fix_context_nonneg. cbn [coeff].
  rewrite !Z.sgn_pos by lia. lia.
Qed.

Lemma quantize_shape (x fe : Decimal) :
  Dec.quantize x (mkDecimal 1 (-8)) = Ok fe -> 0 <= coeff x ->
  exp fe = -8 /\ 0 <= coeff fe /\ Dec.ndigits (coeff fe) <= Dec.prec.
Proof.
  unfold Dec.quantize. cbn [exp]. intros Hq Hx.
  destruct (coeff x =? 0).
  { injection Hq as <-. rewrite fix_context_id by (cbn; rewrite ndigits_0; unfold Dec.prec; lia).
    cbn. rewrite ndigits_0. unfold Dec.prec. lia. }
  destruct (Dec.prec <? Dec.adjusted x - -8 + 1); [discriminate|].
  destruct (Z.ltb_spec Dec.prec (Dec.ndigits (coeff (Dec.rescale x (-8)))))
    as [|Hn]; [discriminate|].
  injection Hq as <-. rewrite fix_context_id by exact Hn.
  split; [|split; [|exact Hn]].
  - unfold Dec.rescale. destruct (-8 <=? exp x); reflexivity.
  - unfold Dec.rescale. destruct (Z.leb_spec (-8) (exp x)); cbn [coeff].
    + apply Z.mul_nonneg_nonneg; [lia|]. apply Z.pow_nonneg. lia.
    + pose proof (round_half_even_bounds (Z.abs (coeff x)) (-8 - exp x)) as [Hlo _].
      pose proof (pow10_pos (-8 - exp x) ltac:(lia)).
      assert (0 <= Z.abs (coeff x) / 10 ^ (-8 - exp x)) by (apply Z.div_pos; lia).
      apply Z.mul_nonneg_nonneg; [|lia]. apply Z.sgn_nonneg. exact Hx.
Qed.

(** X19. The shape of every fee.  Whatever the amount and the finite
    percentage a [PercentageFeeCalculator] was built with, a fee it returns
    is a whole number of 1e-8 units (its exponent is exactly -8), is not
    negative and has at most 28 digits, and it is returned for positive
    amounts only. *)
Theorem fee_shape (p : Decimal) (self : PercentageFeeCalculator) (a fe : Decimal) :
  PercentageFeeCalculator_init p = Ok self ->
  calculate_fee self a = Ok fe ->
  0 < coeff a /\ exp fe = -8 /\ 0 <= coeff fe /\ Dec.ndigits (coeff fe) <= 28.
Proof.
  unfold PercentageFeeCalculator_init. rewrite ltb_zero.
  destruct (Z.ltb_spec (coeff p) 0) as [|Hp]; [discriminate|].
  intros [= <-].
  unfold calculate_fee, PercentageFeeCalculator_FeeCalculator, percentage_calculate_fee.
  cbn [fee_percent]. rewrite leb_zero.
  destruct (Z.leb_spec (coeff a) 0) as [|Ha]; [discriminate|].
  destruct (Dec.div (Dec.mul a p) (mkDecimal 100 0)) as [q|] eqn:Hd; [|discriminate].
  intros Hq. split; [exact Ha|].
  apply div_nonneg in Hd; [|apply fix_context_nonneg; cbn; nia|cbn; lia].
  exact (quantize_shape q fe Hq Hd).
Qed.

Lemma fee_shape_witness :
  0 < coeff Demo.d0_00005 /\ exp (mkDecimal 5 (-8)) = -8 /\
  0 <= coeff (mkDecimal 5 (-8)) /\ Dec.ndigits (coeff (mkDecimal 5 (-8))) <= 28.
Proof.
  apply (fee_shape Demo.percent Demo.fee01 Demo.d0_00005 (mkDecimal 5 (-8))).
  - vm_compute. reflexivity.
  - vm_compute. reflexivity.
Defined.

Section AfterTransfer.

Context {E : Engine}.

(** X20. Reading after writing.  After a transfer was performed, the
    balance of the sender in that currency is answered as the row holds it,
    which is what the Numeric(20, 8) column made of what it was minus
    amount and fee, and the balance of the receiver as what the column made
    of what it was plus the amount (of the amount itself if the receiver
    had no row). *)
Theorem transfer_then_balances
    {T : Type} {FC : FeeCalculator T} (fc : T)
    (f t c : string) (a : Decimal) (k : string) (now : datetime)
    (s s' : Store) (r : dict) :
  store_wf s ->
  idempotency_keys s !! k = None ->
  ExecuteTransferUseCase.execute fc f t c a k now s = (Ok r, s') ->
  exists fe cur db cr,
    calculate_fee fc a = Ok fe /\ balances s !! (f, c) = Some cur /\
    numeric (Dec.sub cur (Dec.add a fe)) = Ok db /\
    numeric (credited (balances s) t c a) = Ok cr /\
    GetBalanceUseCase.execute f (Some c) s' = (Ok (balance_answer f c (Dec.str db)), s') /\
    GetBalanceUseCase.execute t (Some c) s' = (Ok (balance_answer t c (Dec.str cr)), s').
Proof.
  intros Hwf Hnone He.
  rewrite (execute_fresh fc _ _ _ _ _ _ _ Hnone) in He.
  apply perform_ok in He as (fe & cur & db & cr & am & fs & Hp & _ & ->).
  destruct Hp as [[x Hf] [y Ht] Hft _ Hfe _ Hcur _ Hdb Hdb0 Hcr Hcr0 _ _ _ _ Hc _ _ _].
  assert (Hwf' : store_wf (transferred s f t c a fe k now (next_id (transfers s))
                             db cr am fs)).
  { apply transferred_wf; eauto. }
  exists fe, cur, db, cr. split; [exact Hfe|]. split; [exact Hcur|].
  split; [exact Hdb|]. split.
  { unfold credited in *. now rewrite lookup_insert_ne in Hcr by congruence. }
  split.
  - rewrite (get_balance_named _ f c Hwf' Hc). cbn [transferred merchants balances].
    rewrite Hf, lookup_insert_ne, lookup_insert_eq by congruence. reflexivity.
  - rewrite (get_balance_named _ t c Hwf' Hc). cbn [transferred merchants balances].
    rewrite Ht, lookup_insert_eq. reflexivity.
Qed.



Context {L : EngineLaws E}.

Lemma stored_response_validates p s k rec (m : string) (b : bool) :
  reachable p s -> idempotency_keys s !! k = Some rec ->
  exists r,
    Routes.TransferResponse
      (<["message"%string := VStr m]>
         (<["is_duplicate"%string := VBool b]> (response_data rec))) = Ok r.
Proof.
  intros Hr Hk.
  pose proof (reachable_ledger_inv _ _ Hr) as [_ _ Hids _ _ _ _ _ Hrecs _].
  apply Hrecs in Hk as (row & a & fe & Hin & _ & -> & _).
  rewrite Forall_forall in Hids. destruct (Hids row Hin) as [i Hid].
  destruct row as [rid rf rt rc ra rfe rk rnow]. cbn in Hid. subst rid.
  eexists. reflexivity.
Qed.

(** X22. How the two POST routes fail.  A POST /merchants that fails does
    so with an HTTPException of status 400 or 500, and a POST /transfers
    that fails on a reachable database with one of status 400, 404, 409 or
    500; in either case the database is left exactly as it was. *)
Theorem write_routes_fail_clean (p p' : Decimal) (s s' : Store) (e : exn) :
  reachable p s ->
  (forall request now,
     Routes.create_merchant request now s = (Raise e, s') ->
     s' = s /\ exists code detail,
       e = HTTPException code detail /\ (code = 400 \/ code = 500)) /\
  (forall request key now,
     Routes.execute_transfer p' request key now s = (Raise e, s') ->
     s' = s /\ exists code detail,
       e = HTTPException code detail /\
       (code = 400 \/ code = 404 \/ code = 409 \/ code = 500)).
Proof.
  intros Hr. split.
  - intros request now. unfold Routes.create_merchant, get_db.
    destruct (Routes.create_merchant_handler request now s) as [[r|e0] s1] eqn:Hh;
      [discriminate|].
    intros [= <- <-]. split; [reflexivity|].
    unfold Routes.create_merchant_handler, try_except in Hh.
    destruct (bind _ _ s) as [[r|e1] s2]; [discriminate|].
    unfold raise in Hh. injection Hh as <- _.
    destruct e1; cbn; eauto 6.
  - intros request key now. unfold Routes.execute_transfer, get_db.
    destruct (Routes.execute_transfer_handler p' request key now s) as [[r|e0] s1] eqn:Hh;
      [discriminate|].
    intros [= <- <-]. split; [reflexivity|].
    assert (Htag : forall s2,
               Routes.execute_and_tag p' request (PyStr.strip key) now s = (Raise e0, s2) ->
               exists code detail, e0 = HTTPException code detail /\
                 (code = 400 \/ code = 404 \/ code = 409 \/ code = 500)).
    { intros s2. unfold Routes.execute_and_tag, try_except.
      destruct (bind _ _ s) as [[r|e1] s3]; [discriminate|].
      unfold raise. intros [= <- _]. destruct e1; cbn; eauto 8. }
    destruct (PyStr.truthy (PyStr.strip key)) eqn:Hkey.
    + rewrite (handler_unfold _ _ _ _ _ Hkey) in Hh.
      destruct (idempotency_keys s !! PyStr.strip key) as [rec|] eqn:Hrec;
        [|exact (Htag _ Hh)].
      destruct (dict_truthy (response_data rec)); [|exact (Htag _ Hh)].
      destruct (stored_response_validates p s _ rec
                  (Routes.duplicate_message (PyStr.strip key)) true Hr Hrec) as [r Hv].
      rewrite Hv in Hh. discriminate.
    + unfold Routes.execute_transfer_handler in Hh. rewrite Hkey in Hh.
      cbn [negb] in Hh. rewrite orb_true_r in Hh. unfold raise in Hh.
      injection Hh as <- _. eauto 8.
Qed.

End AfterTransfer.

Lemma transfer_then_balances_witness :
  let s := Demo.alice_bob Demo.d1_0 in
  let s' := transferred s "alice" "bob" "BTC" Demo.d0_00005 (mkDecimal 5 (-8))
              "key-1" 3 1 (mkDecimal 99994995 (-8))
              Demo.n0_00005 Demo.n0_00005 (mkDecimal 5 (-8)) in
  exists fe cur db cr,
    calculate_fee Demo.fee01 Demo.d0_00005 = Ok fe /\
    balances s !! ("alice", "BTC")%string = Some cur /\
    numeric (Dec.sub cur (Dec.add Demo.d0_00005 fe)) = Ok db /\
    numeric (credited (balances s) "bob" "BTC" Demo.d0_00005) = Ok cr /\
    GetBalanceUseCase.execute "alice" (Some "BTC"%string) s' =
      (Ok (balance_answer "alice" "BTC" (Dec.str db)), s') /\
    GetBalanceUseCase.execute "bob" (Some "BTC"%string) s' =
      (Ok (balance_answer "bob" "BTC" (Dec.str cr)), s').
Proof.
  apply (transfer_then_balances Demo.fee01 "alice" "bob" "BTC" Demo.d0_00005 "key-1" 3
           (Demo.alice_bob Demo.d1_0) _
           (ExecuteTransferUseCase.response
              (mkTransfer (Some 1) "alice" "bob" "BTC" Demo.n0_00005 (mkDecimal 5 (-8))
                 "key-1" 3)
              "alice" "bob" "BTC" Demo.d0_00005 (mkDecimal 5 (-8)))
           (alice_bob_wf _)).
  - vm_compute. reflexivity.
  - apply (alice_pays_bob_reference Demo.d1_0);
      [reflexivity|exact small_d1_0|vm_compute; discriminate|discriminate].
Defined.


Lemma write_routes_fail_clean_witness :
  (Sample.ledger = Sample.ledger /\
   exists code detail,
     HTTPException 400 "Merchant 'bob' already exists" = HTTPException code detail /\
     (code = 400 \/ code = 500)) /\
  (Sample.ledger = Sample.ledger /\
   exists code detail,
     HTTPException 404 "Merchant 'carol' not found" = HTTPException code detail /\
     (code = 400 \/ code = 404 \/ code = 409 \/ code = 500)).
Proof.
  split.
  - refine (proj1 (write_routes_fail_clean (L := reference_laws) Demo.percent Demo.percent
                     Sample.ledger Sample.ledger _ sample_reachable)
              (Routes.mkCreateMerchantRequest "bob" "BTC" Demo.d1_0) 5 _).
    vm_compute. reflexivity.
  - refine (proj2 (write_routes_fail_clean (L := reference_laws) Demo.percent Demo.percent
                     Sample.ledger Sample.ledger _ sample_reachable)
              (Routes.mkTransferRequest "carol" "bob" "BTC" Demo.d1_0) "key-2" 5 _).
    vm_compute. reflexivity.
Defined.
